(** * Aerogel: the flight-phase machine and control loop of [lib/copter.js]

    A shallow embedding of [Copter] (lib/copter.js) and of the parts of its
    environment that the control loop talks to: the timers of the event
    loop, the deferreds handed back to callers and the driver's setpoint
    log.

    Modelling conventions.
    - A JavaScript number is [Js.num]: a rational ([Fin q]) or [NaN].
      Every finite double is a rational; arithmetic is exact (no rounding
      of [+], [-], [*]), and infinities, which exact arithmetic on finite
      numbers never produces, are left out.
    - Where the rounding itself is in question, for [deltaToGoal], the
      function is embedded a second time on IEEE 754 binary64 numbers
      ([Double.deltaToGoal], on the primitive floats), with the rounded
      subtraction and the double nearest each decimal literal, as
      JavaScript has them.
    - The fields of the goal, of a setpoint and of a telemetry sample hold
      numbers.  The argument of the thrust setter is an arbitrary value
      ([Js.value]), because the setter tests it with [_.isNumber].
    - The [state-machine] package that [buildStates] configures is not
      part of the repository; its dispatch, [fire], follows the
      specification of the flight-phase machine.  A failed transition is
      an exception: it ends the call that made it and leaves in place
      what that call had already mutated.
    - Time is not modelled: a timer keeps its delay and may fire whenever
      it is active.
    - [console.log] is not modelled. *)

From Stdlib Require Import QArith Qabs Qround Lqa ZArith Lia List Bool String.
From Stdlib Require Floats.
Import ListNotations.

(** ** JavaScript numbers and values *)

Module Js.

Inductive num : Type :=
| Fin (q : Q)
| NaN.

(** Any value: a number, [undefined], or something else (a string, an
    object, ...), of which only the fact that it is not a number
    matters here. *)
Inductive value : Type :=
| VNum (n : num)
| VUndefined
| VOther (s : string).

Definition Qlt_bool (x y : Q) : bool := negb (Qle_bool y x).

Definition add (a b : num) : num :=
  match a, b with Fin x, Fin y => Fin (x + y) | _, _ => NaN end.

Definition sub (a b : num) : num :=
  match a, b with Fin x, Fin y => Fin (x - y) | _, _ => NaN end.

Definition mul (a b : num) : num :=
  match a, b with Fin x, Fin y => Fin (x * y) | _, _ => NaN end.

(** [a < b], [a > b], [a <= b], [a >= b]: false as soon as one side is
    [NaN]. *)
Definition lt (a b : num) : bool :=
  match a, b with Fin x, Fin y => Qlt_bool x y | _, _ => false end.

Definition gt (a b : num) : bool := lt b a.

Definition le (a b : num) : bool :=
  match a, b with Fin x, Fin y => Qle_bool x y | _, _ => false end.

Definition ge (a b : num) : bool := le b a.

(** [a === b] on numbers; [NaN === NaN] is false. *)
Definition strict_eq (a b : num) : bool :=
  match a, b with Fin x, Fin y => Qeq_bool x y | _, _ => false end.

(** [Math.abs]. *)
Definition abs (a : num) : num :=
  match a with Fin x => Fin (Qabs x) | NaN => NaN end.

(** [Math.round]: the nearest integer, a tie going up. *)
Definition round (a : num) : num :=
  match a with
  | Fin x => Fin (inject_Z (Qfloor (x + (1 # 2))))
  | NaN => NaN
  end.

(** [_.isNumber]: true of every number, [NaN] included. *)
Definition isNumber (v : value) : bool :=
  match v with VNum _ => true | _ => false end.

(** ToNumber, as applied by the arithmetic operators.  [undefined]
    converts to [NaN]; the conversion of other non-numbers depends on
    their content and no such value reaches an operator in this
    program, so they are sent to [NaN] as a plain object is. *)
Definition to_number (v : value) : num :=
  match v with VNum n => n | VUndefined => NaN | VOther _ => NaN end.

(** Numeric equality of two numbers, up to the representation of the
    rational. *)
Definition eqv (a b : num) : Prop :=
  match a, b with
  | Fin x, Fin y => x == y
  | NaN, NaN => True
  | _, _ => False
  end.

End Js.

Abbreviation Fin := Js.Fin.
Abbreviation NaN := Js.NaN.
Abbreviation VNum := Js.VNum.
Abbreviation VUndefined := Js.VUndefined.
Abbreviation VOther := Js.VOther.

Infix "≡" := Js.eqv (at level 70, no associativity).

(** ** Constants of lib/copter.js *)

Definition MAX_THRUST : Q := 60000.
Definition MIN_THRUST : Q := 10001.
Definition ε : Q := 0.01.

(** ** deltaToGoal *)

Definition deltaToGoal (current goal : Js.num) : Js.num :=
  let diff := Js.sub goal current in
  if Js.gt (Js.abs diff) (Fin ε) then diff else Fin 0.

(** ** deltaToGoal on doubles *)

(** The same function on the numbers JavaScript computes with: [float]
    is IEEE 754 binary64, [-] rounds to nearest (ties to even), a
    decimal literal stands for the double nearest to it, and a
    comparison with [NaN] is false.  [Math.abs(diff) > ε] is
    [ε < Math.abs(diff)]. *)
Module Double.

Import PrimFloat SpecFloat FloatOps.
Local Open Scope float_scope.
#[local] Set Warnings "-inexact-float".

Definition ε : float := 0.01.

Definition deltaToGoal (current goal : float) : float :=
  let diff := goal - current in
  if ε <? abs diff then diff else 0.

(** The identity the specification states of the deviation function, at
    [a]: [deviation(a, a + 0.02) == 0.02], with [+] and [==] those of
    JavaScript. *)
Definition step_identity (a : float) : Prop :=
  (deltaToGoal a (a + 0.02) =? 0.02) = true.

(** The rational that a finite double is: its mantissa times a power
    of 2. *)
Definition exact (x : float) : option Q :=
  match Prim2SF x with
  | S754_zero _ => Some 0%Q
  | S754_finite s m e => Some (inject_Z (cond_Zopp s (Zpos m)) * 2 ^ e)%Q
  | S754_infinity _ | S754_nan => None
  end.

End Double.

(** ** Data model *)

(** The states declared by [buildStates]. *)
Inductive Phase : Type :=
| setup | connected | waiting | taking_off | hovering | moving | landing.

(** The name of a state, as [currentState()] returns it. *)
Definition name (p : Phase) : string :=
  match p with
  | setup => "setup"
  | connected => "connected"
  | waiting => "waiting"
  | taking_off => "taking-off"
  | hovering => "hovering"
  | moving => "moving"
  | landing => "landing"
  end%string.

Definition Phase_eqb (p q : Phase) : bool :=
  match p, q with
  | setup, setup | connected, connected | waiting, waiting
  | taking_off, taking_off | hovering, hovering | moving, moving
  | landing, landing => true
  | _, _ => false
  end.

(** The events declared by [buildStates]. *)
Module Ev.
Inductive t : Type :=
| connect | ready | takeoff | stabilize | move | settle | land | landed.
End Ev.

(** [{roll, pitch, yaw, thrust}]: [nextSetpoint], [currentSetpoint] and
    what the driver is sent. *)
Record Setpoint : Type := mkSetpoint {
  sp_roll : Js.num;
  sp_pitch : Js.num;
  sp_yaw : Js.num;
  sp_thrust : Js.num
}.

Record Goal : Type := mkGoal {
  g_roll : Js.num;
  g_pitch : Js.num;
  g_yaw : Js.num;
  g_thrust : Js.num;
  g_x : Js.num;
  g_y : Js.num;
  g_z : Js.num
}.

(** Telemetry samples, one record per channel. *)
Record StabilizerData : Type := mkStabilizer {
  st_roll : Js.num; st_pitch : Js.num; st_yaw : Js.num; st_thrust : Js.num
}.
Record MotorData : Type := mkMotor {
  m1 : Js.num; m2 : Js.num; m3 : Js.num; m4 : Js.num
}.
Record AccData : Type := mkAcc {
  acc_x : Js.num; acc_y : Js.num; acc_z : Js.num
}.
Record GyroData : Type := mkGyro {
  gyro_x : Js.num; gyro_y : Js.num; gyro_z : Js.num
}.

(** [this.telemetry]: the last sample of each channel, absent until one
    arrives. *)
Record Telemetry : Type := mkTelemetry {
  stabilizer : option StabilizerData;
  motor : option MotorData;
  acc : option AccData;
  gyro : option GyroData
}.

Inductive Channel : Type :=
| ch_motor | ch_stabilizer | ch_accelerometer | ch_gyro.

(** The functions handed to [setInterval] and [setTimeout].  A closure
    carries the variables it captured: the deferred of the call that
    made it and, for [thrustup], its two counters. *)
Inductive Callback : Type :=
| CbPulse
| CbStopThrustingUp (deferred : nat)
| CbLandCurve (deferred : nat)
| CbThrustup (deferred : nat) (thrust : Q) (timeCounter : Z).

(** A timer of the event loop.  [repeats] tells [setInterval] from
    [setTimeout]; [delay] is in milliseconds. *)
Record Timer : Type := mkTimer {
  handle : nat;
  repeats : bool;
  delay : Z;
  callback : Callback
}.

(** The [Copter] object followed by the environment it acts on: the
    timers of the event loop, the driver and the deferreds. *)
Record Copter : Type := mkCopter {
  copterStates : Phase;
  xmode : bool;
  currentSetpoint : option Setpoint;   (* [None] is the initial [{}] *)
  telemetry : Telemetry;
  goal : Goal;
  nextSetpoint : Setpoint;
  pulseTimer : option nat;             (* timer handles; [None] is [undefined] *)
  hoverTimer : option nat;
  flightTimer : option nat;
  timers : list Timer;                 (* active timers *)
  nextHandle : nat;
  sent : list Setpoint;                (* [driver.setpoint] calls, latest first *)
  connecting : nat;                    (* pending [driver.connect] promises *)
  subscriptions : list Channel;        (* [driver.telemetry.subscribe] calls *)
  closed : nat;                        (* [driver.close] calls *)
  nextDeferred : nat;
  resolved : list (nat * string)       (* [deferred.resolve] calls, latest first *)
}.

Definition with_copterStates v (s : Copter) : Copter :=
  mkCopter v (xmode s) (currentSetpoint s) (telemetry s) (goal s) (nextSetpoint s) (pulseTimer s) (hoverTimer s) (flightTimer s) (timers s) (nextHandle s) (sent s) (connecting s) (subscriptions s) (closed s) (nextDeferred s) (resolved s).
Definition with_xmode v (s : Copter) : Copter :=
  mkCopter (copterStates s) v (currentSetpoint s) (telemetry s) (goal s) (nextSetpoint s) (pulseTimer s) (hoverTimer s) (flightTimer s) (timers s) (nextHandle s) (sent s) (connecting s) (subscriptions s) (closed s) (nextDeferred s) (resolved s).
Definition with_currentSetpoint v (s : Copter) : Copter :=
  mkCopter (copterStates s) (xmode s) v (telemetry s) (goal s) (nextSetpoint s) (pulseTimer s) (hoverTimer s) (flightTimer s) (timers s) (nextHandle s) (sent s) (connecting s) (subscriptions s) (closed s) (nextDeferred s) (resolved s).
Definition with_telemetry v (s : Copter) : Copter :=
  mkCopter (copterStates s) (xmode s) (currentSetpoint s) v (goal s) (nextSetpoint s) (pulseTimer s) (hoverTimer s) (flightTimer s) (timers s) (nextHandle s) (sent s) (connecting s) (subscriptions s) (closed s) (nextDeferred s) (resolved s).
Definition with_goal v (s : Copter) : Copter :=
  mkCopter (copterStates s) (xmode s) (currentSetpoint s) (telemetry s) v (nextSetpoint s) (pulseTimer s) (hoverTimer s) (flightTimer s) (timers s) (nextHandle s) (sent s) (connecting s) (subscriptions s) (closed s) (nextDeferred s) (resolved s).
Definition with_nextSetpoint v (s : Copter) : Copter :=
  mkCopter (copterStates s) (xmode s) (currentSetpoint s) (telemetry s) (goal s) v (pulseTimer s) (hoverTimer s) (flightTimer s) (timers s) (nextHandle s) (sent s) (connecting s) (subscriptions s) (closed s) (nextDeferred s) (resolved s).
Definition with_pulseTimer v (s : Copter) : Copter :=
  mkCopter (copterStates s) (xmode s) (currentSetpoint s) (telemetry s) (goal s) (nextSetpoint s) v (hoverTimer s) (flightTimer s) (timers s) (nextHandle s) (sent s) (connecting s) (subscriptions s) (closed s) (nextDeferred s) (resolved s).
Definition with_hoverTimer v (s : Copter) : Copter :=
  mkCopter (copterStates s) (xmode s) (currentSetpoint s) (telemetry s) (goal s) (nextSetpoint s) (pulseTimer s) v (flightTimer s) (timers s) (nextHandle s) (sent s) (connecting s) (subscriptions s) (closed s) (nextDeferred s) (resolved s).
Definition with_flightTimer v (s : Copter) : Copter :=
  mkCopter (copterStates s) (xmode s) (currentSetpoint s) (telemetry s) (goal s) (nextSetpoint s) (pulseTimer s) (hoverTimer s) v (timers s) (nextHandle s) (sent s) (connecting s) (subscriptions s) (closed s) (nextDeferred s) (resolved s).
Definition with_timers v (s : Copter) : Copter :=
  mkCopter (copterStates s) (xmode s) (currentSetpoint s) (telemetry s) (goal s) (nextSetpoint s) (pulseTimer s) (hoverTimer s) (flightTimer s) v (nextHandle s) (sent s) (connecting s) (subscriptions s) (closed s) (nextDeferred s) (resolved s).
Definition with_nextHandle v (s : Copter) : Copter :=
  mkCopter (copterStates s) (xmode s) (currentSetpoint s) (telemetry s) (goal s) (nextSetpoint s) (pulseTimer s) (hoverTimer s) (flightTimer s) (timers s) v (sent s) (connecting s) (subscriptions s) (closed s) (nextDeferred s) (resolved s).
Definition with_sent v (s : Copter) : Copter :=
  mkCopter (copterStates s) (xmode s) (currentSetpoint s) (telemetry s) (goal s) (nextSetpoint s) (pulseTimer s) (hoverTimer s) (flightTimer s) (timers s) (nextHandle s) v (connecting s) (subscriptions s) (closed s) (nextDeferred s) (resolved s).
Definition with_connecting v (s : Copter) : Copter :=
  mkCopter (copterStates s) (xmode s) (currentSetpoint s) (telemetry s) (goal s) (nextSetpoint s) (pulseTimer s) (hoverTimer s) (flightTimer s) (timers s) (nextHandle s) (sent s) v (subscriptions s) (closed s) (nextDeferred s) (resolved s).
Definition with_subscriptions v (s : Copter) : Copter :=
  mkCopter (copterStates s) (xmode s) (currentSetpoint s) (telemetry s) (goal s) (nextSetpoint s) (pulseTimer s) (hoverTimer s) (flightTimer s) (timers s) (nextHandle s) (sent s) (connecting s) v (closed s) (nextDeferred s) (resolved s).
Definition with_closed v (s : Copter) : Copter :=
  mkCopter (copterStates s) (xmode s) (currentSetpoint s) (telemetry s) (goal s) (nextSetpoint s) (pulseTimer s) (hoverTimer s) (flightTimer s) (timers s) (nextHandle s) (sent s) (connecting s) (subscriptions s) v (nextDeferred s) (resolved s).
Definition with_nextDeferred v (s : Copter) : Copter :=
  mkCopter (copterStates s) (xmode s) (currentSetpoint s) (telemetry s) (goal s) (nextSetpoint s) (pulseTimer s) (hoverTimer s) (flightTimer s) (timers s) (nextHandle s) (sent s) (connecting s) (subscriptions s) (closed s) v (resolved s).
Definition with_resolved v (s : Copter) : Copter :=
  mkCopter (copterStates s) (xmode s) (currentSetpoint s) (telemetry s) (goal s) (nextSetpoint s) (pulseTimer s) (hoverTimer s) (flightTimer s) (timers s) (nextHandle s) (sent s) (connecting s) (subscriptions s) (closed s) (nextDeferred s) v.

Definition with_g_thrust v (g : Goal) : Goal :=
  mkGoal (g_roll g) (g_pitch g) (g_yaw g) v (g_x g) (g_y g) (g_z g).
Definition with_g_z v (g : Goal) : Goal :=
  mkGoal (g_roll g) (g_pitch g) (g_yaw g) (g_thrust g) (g_x g) (g_y g) v.

Definition with_sp_roll v (p : Setpoint) : Setpoint :=
  mkSetpoint v (sp_pitch p) (sp_yaw p) (sp_thrust p).
Definition with_sp_pitch v (p : Setpoint) : Setpoint :=
  mkSetpoint (sp_roll p) v (sp_yaw p) (sp_thrust p).
Definition with_sp_yaw v (p : Setpoint) : Setpoint :=
  mkSetpoint (sp_roll p) (sp_pitch p) v (sp_thrust p).
Definition with_sp_thrust v (p : Setpoint) : Setpoint :=
  mkSetpoint (sp_roll p) (sp_pitch p) (sp_yaw p) v.

(** The constructor [Copter(driver)]: [buildStates] puts the machine in
    its initial state, [setup]. *)
Definition new_Copter : Copter :=
  {| copterStates := setup;
     xmode := false;
     currentSetpoint := None;
     telemetry := mkTelemetry None None None None;
     goal := mkGoal (Fin 0) (Fin 0) (Fin 0) (Fin 0) (Fin 0) (Fin 0) (Fin 0);
     nextSetpoint := mkSetpoint (Fin 0) (Fin 0) (Fin 0) (Fin 0);
     pulseTimer := None;
     hoverTimer := None;
     flightTimer := None;
     timers := [];
     nextHandle := 1;
     sent := [];
     connecting := 0;
     subscriptions := [];
     closed := 0;
     nextDeferred := 0;
     resolved := [] |}.

(** ** Property accessors *)

Definition setPitch (p : Js.num) (st : Copter) : Copter :=
  with_nextSetpoint (with_sp_pitch p (nextSetpoint st)) st.

Definition setRoll (r : Js.num) (st : Copter) : Copter :=
  with_nextSetpoint (with_sp_roll r (nextSetpoint st)) st.

Definition setYaw (y : Js.num) (st : Copter) : Copter :=
  with_nextSetpoint (with_sp_yaw y (nextSetpoint st)) st.

Definition setThrust (t : Js.value) (st : Copter) : Copter :=
  let t :=
    if negb (Js.isNumber t) then Fin 10001
    else if Js.lt (Js.to_number t) (Fin 10001) then Fin 10001
    else if Js.gt (Js.to_number t) (Fin 60000) then Fin 60000
    else Js.to_number t in
  with_nextSetpoint (with_sp_thrust (Js.round t) (nextSetpoint st)) st.

(** Reading a field of [currentSetpoint]: [undefined] while it is [{}]. *)
Definition current_field (f : Setpoint -> Js.num) (st : Copter) : Js.value :=
  match currentSetpoint st with
  | Some sp => VNum (f sp)
  | None => VUndefined
  end.

Definition getPitch : Copter -> Js.value := current_field sp_pitch.
Definition getRoll : Copter -> Js.value := current_field sp_roll.
Definition getYaw : Copter -> Js.value := current_field sp_yaw.
Definition getThrust : Copter -> Js.value := current_field sp_thrust.

(** ** Lower-level control functions *)

(** [setpoint]: the two assignments of the X-mode branch run in order,
    so the second reads the [roll] the first has just written. *)
Definition setpoint (roll pitch yaw thrust : Js.num) (st : Copter) : Copter :=
  let roll := if xmode st then Js.mul (Fin 0.707) (Js.sub roll pitch) else roll in
  let pitch := if xmode st then Js.mul (Fin 0.707) (Js.add roll pitch) else pitch in
  let sp := mkSetpoint roll pitch yaw thrust in
  with_sent (sp :: sent st) (with_currentSetpoint (Some sp) st).

Definition pulse (st : Copter) : Copter :=
  setpoint (sp_roll (nextSetpoint st)) (sp_pitch (nextSetpoint st))
           (sp_yaw (nextSetpoint st)) (sp_thrust (nextSetpoint st)) st.

(** ** Telemetry handlers *)

Definition handleStabilizerTelemetry (data : StabilizerData) (st : Copter) : Copter :=
  let st := with_telemetry
              (mkTelemetry (Some data) (motor (telemetry st))
                           (acc (telemetry st)) (gyro (telemetry st))) st in
  let thrustDelta := deltaToGoal (st_thrust data) (g_thrust (goal st)) in
  let rollDelta := deltaToGoal (st_roll data) (g_roll (goal st)) in
  let pitchDelta := deltaToGoal (st_pitch data) (g_pitch (goal st)) in
  let yawDelta := deltaToGoal (st_yaw data) (g_yaw (goal st)) in
  match copterStates st with
  | taking_off | moving | hovering =>
      setYaw (Fin 0) (setPitch (Fin 0) (setRoll (Fin 0) st))
  | _ => st
  end.

Definition handleMotorTelemetry (data : MotorData) (st : Copter) : Copter :=
  let st := with_telemetry
              (mkTelemetry (stabilizer (telemetry st)) (Some data)
                           (acc (telemetry st)) (gyro (telemetry st))) st in
  match copterStates st with
  | taking_off => st
  | _ => st
  end.

Definition handleAccTelemetry (data : AccData) (st : Copter) : Copter :=
  let st := with_telemetry
              (mkTelemetry (stabilizer (telemetry st)) (motor (telemetry st))
                           (Some data) (gyro (telemetry st))) st in
  match copterStates st with
  | taking_off | hovering =>
      let zDelta := deltaToGoal (acc_z data) (g_z (goal st)) in
      if negb (Js.strict_eq zDelta (Fin 0)) then
        let st := with_goal
                    (with_g_thrust
                       (Js.add (g_thrust (goal st)) (Js.mul (Fin 1250) zDelta))
                       (goal st)) st in
        setThrust (VNum (g_thrust (goal st))) st
      else st
  | _ => st
  end.

Definition handleGyroTelemetry (data : GyroData) (st : Copter) : Copter :=
  with_telemetry
    (mkTelemetry (stabilizer (telemetry st)) (motor (telemetry st))
                 (acc (telemetry st)) (Some data)) st.

(** ** Timers of the event loop *)

Definition add_timer (rep : bool) (cb : Callback) (ms : Z) (st : Copter)
  : nat * Copter :=
  let h := nextHandle st in
  (h, with_nextHandle (S h) (with_timers (mkTimer h rep ms cb :: timers st) st)).

Definition setInterval := add_timer true.
Definition setTimeout := add_timer false.

Definition remove_timer (h : nat) (l : list Timer) : list Timer :=
  filter (fun t => negb (Nat.eqb (handle t) h)) l.

(** [clearInterval(h)]; clearing [undefined] or a handle that is no
    longer active does nothing. *)
Definition clearInterval (h : option nat) (st : Copter) : Copter :=
  match h with
  | Some h => with_timers (remove_timer h (timers st)) st
  | None => st
  end.

Definition find_timer (h : nat) (l : list Timer) : option Timer :=
  find (fun t => Nat.eqb (handle t) h) l.

(** ** State-entry and state-exit hooks *)

Definition enterSetup (st : Copter) : Copter := st.

Definition enterWaiting (st : Copter) : Copter := st.

Definition enterTakeoff (st : Copter) : Copter :=
  let st := with_goal (with_g_z (Fin 1.5) (goal st)) st in
  let st := with_goal (with_g_thrust (Fin 35000) (goal st)) st in
  let '(h, st) := setInterval CbPulse 100%Z st in
  with_pulseTimer (Some h) st.

Definition enterHovering (st : Copter) : Copter :=
  with_goal (with_g_z (Fin 1.0) (goal st)) st.

Definition enterMoving (st : Copter) : Copter := st.

Definition enterLanding (st : Copter) : Copter := st.

Definition leaveLanding (st : Copter) : Copter :=
  let st := clearInterval (hoverTimer st) st in
  let st := clearInterval (pulseTimer st) st in
  setpoint (Fin 0) (Fin 0) (Fin 0) (Fin 0) st.

(** The tables [buildStates] hands to the state machine. *)
Definition enter (p : Phase) : Copter -> Copter :=
  match p with
  | setup => enterSetup
  | connected => fun st => st
  | waiting => enterWaiting
  | taking_off => enterTakeoff
  | hovering => enterHovering
  | moving => enterMoving
  | landing => enterLanding
  end.

Definition leave (p : Phase) : Copter -> Copter :=
  match p with
  | landing => leaveLanding
  | _ => fun st => st
  end.

Definition source (e : Ev.t) : Phase :=
  match e with
  | Ev.connect => setup
  | Ev.ready => connected
  | Ev.takeoff => waiting
  | Ev.stabilize => taking_off
  | Ev.move => hovering
  | Ev.settle => moving
  | Ev.land => hovering
  | Ev.landed => landing
  end.

Definition destination (e : Ev.t) : Phase :=
  match e with
  | Ev.connect => connected
  | Ev.ready => waiting
  | Ev.takeoff => taking_off
  | Ev.stabilize => hovering
  | Ev.move => moving
  | Ev.settle => hovering
  | Ev.land => landing
  | Ev.landed => waiting
  end.

(** ** Calls that may throw *)

Inductive Error : Type :=
| InvalidTransition (current : Phase) (event : Ev.t) (required : Phase).

(** The outcome of a call: it returns or throws, and either way leaves a
    state behind (what it had mutated before throwing stays mutated). *)
Inductive outcome (A : Type) : Type :=
| Returned (a : A) (st : Copter)
| Thrown (e : Error) (st : Copter).

Arguments Returned {A} a st.
Arguments Thrown {A} e st.

Definition M (A : Type) : Type := Copter -> outcome A.

Definition ret {A} (a : A) : M A := fun st => Returned a st.

Definition bind {A B} (c : M A) (k : A -> M B) : M B :=
  fun st =>
    match c st with
    | Returned a st' => k a st'
    | Thrown e st' => Thrown e st'
    end.

Definition get : M Copter := fun st => Returned st st.

Definition modify (f : Copter -> Copter) : M unit :=
  fun st => Returned tt (f st).

Definition lift {A} (f : Copter -> A * Copter) : M A :=
  fun st => let '(a, st') := f st in Returned a st'.

Definition throw {A} (e : Error) : M A := fun st => Thrown e st.

Declare Scope js_scope.
Delimit Scope js_scope with js.
Notation "x <- c ;; k" := (bind c (fun x => k))
  (at level 61, c at next level, right associativity) : js_scope.
Notation "c ;; k" := (bind c (fun _ => k))
  (at level 61, right associativity) : js_scope.
Local Open Scope js_scope.

Definition state_of {A} (o : outcome A) : Copter :=
  match o with
  | Returned _ st => st
  | Thrown _ st => st
  end.

Definition threw {A} (o : outcome A) : option Error :=
  match o with
  | Returned _ _ => None
  | Thrown e _ => Some e
  end.

(** ** The state machine *)

(** Modelled from the spec: the event dispatch of the [state-machine]
    package, which [buildStates] configures and which is not part of
    this repository's sources.  An event is valid from its one source
    state only; from any other state it fails with [InvalidTransition]
    and the machine keeps its state.  A valid event runs the leave-hook
    of the source state, makes the destination current and runs its
    enter-hook. *)
Definition fire (e : Ev.t) : M unit :=
  st <- get ;;
  if Phase_eqb (copterStates st) (source e) then
    modify (leave (source e)) ;;
    modify (with_copterStates (destination e)) ;;
    modify (enter (destination e))
  else
    throw (InvalidTransition (copterStates st) e (source e)).

(** ** Deferreds *)

(** [P.defer()]: a fresh deferred, named by a number. *)
Definition defer : M nat :=
  lift (fun st => (nextDeferred st, with_nextDeferred (S (nextDeferred st)) st)).

(** [deferred.resolve(v)]: the call is logged; the promise settles on the
    first one. *)
Definition resolve (deferred : nat) (v : string) (st : Copter) : Copter :=
  with_resolved ((deferred, v) :: resolved st) st.

(** The calls of [deferred.resolve], oldest first. *)
Definition resolutions (deferred : nat) (st : Copter) : list string :=
  map snd (filter (fun r => Nat.eqb (fst r) deferred) (rev (resolved st))).

(** The value the promise of [deferred] has settled on, if any. *)
Definition settled (deferred : nat) (st : Copter) : option string :=
  hd_error (resolutions deferred st).

(** ** The public API *)

(** [connect] up to the call of [driver.connect]; the callback given to
    [then] is [connected_callback]. *)
Definition connect : M unit :=
  fire Ev.connect ;;
  modify (fun st => with_connecting (S (connecting st)) st).

Definition subscribe (c : Channel) (st : Copter) : Copter :=
  with_subscriptions (subscriptions st ++ [c]) st.

Definition connected_callback : M unit :=
  modify (subscribe ch_motor) ;;
  modify (subscribe ch_stabilizer) ;;
  modify (subscribe ch_accelerometer) ;;
  modify (subscribe ch_gyro) ;;
  fire Ev.ready.

Definition stopThrustingUp (deferred : nat) : M unit :=
  fire Ev.stabilize ;;
  modify (resolve deferred "OK").

(** [takeoff] returns the promise of its deferred. *)
Definition takeoff : M nat :=
  deferred <- defer ;;
  fire Ev.takeoff ;;
  h <- lift (setTimeout (CbStopThrustingUp deferred) 2000%Z) ;;
  modify (with_flightTimer (Some h)) ;;
  ret deferred.

(** The closure [thrustup] of [takeoff1], on its captured [thrust] and
    [timeCounter]; it returns their new values. *)
Definition thrustup (deferred : nat) (thrust : Q) (timeCounter : Z)
  : M (Q * Z) :=
  let maxThrust : Q := 39601 in
  let minThrust : Q := 37700 in
  let thrustStep : Q := 500 in
  let timeAtMax : Z := 4%Z in
  let timeAtMin : Z := 2%Z in
  let finish (thrust : Q) (timeCounter : Z) : M (Q * Z) :=
    modify (setThrust (VNum (Fin thrust))) ;;
    modify (fun st => with_goal (with_g_thrust (Fin thrust) (goal st)) st) ;;
    ret (thrust, timeCounter) in
  if Qeq_bool thrust 0 then ret (thrust, timeCounter)
  else if Z.eqb timeCounter 0%Z then
    let thrust := (thrust + thrustStep)%Q in
    if Qle_bool maxThrust thrust then finish maxThrust 1%Z
    else finish thrust timeCounter
  else if Z.leb timeAtMax timeCounter then
    let thrust := (thrust - thrustStep)%Q in
    if Js.Qlt_bool thrust minThrust then
      if Z.leb (timeAtMax + timeAtMin) timeCounter then
        modify (resolve deferred "OK") ;;
        ret (0%Q, timeCounter)
      else finish minThrust (timeCounter + 1)%Z
    else finish thrust timeCounter
  else finish thrust (timeCounter + 1)%Z.

Definition takeoff1 : M nat :=
  deferred <- defer ;;
  fire Ev.takeoff ;;
  h <- lift (setInterval (CbThrustup deferred 37700 0%Z) 250%Z) ;;
  modify (with_flightTimer (Some h)) ;;
  ret deferred.

Definition landCurve (deferred : nat) : M unit :=
  let thrustStep : Q := 1000 in
  st <- get ;;
  let thrust := Js.sub (Js.to_number (getThrust st)) (Fin thrustStep) in
  let thrust := if Js.le thrust (Fin MIN_THRUST) then Fin MIN_THRUST else thrust in
  modify (fun st => with_goal (with_g_thrust thrust (goal st)) st) ;;
  modify (setThrust (VNum thrust)) ;;
  if Js.strict_eq thrust (Fin MIN_THRUST) then
    fire Ev.landed ;;
    st <- get ;;
    modify (resolve deferred (name (copterStates st)))
  else ret tt.

(** [land] returns the promise of its deferred. *)
Definition land : M nat :=
  let stepMS : Z := 250%Z in
  deferred <- defer ;;
  fire Ev.land ;;
  st <- get ;;
  modify (match flightTimer st with
          | Some h => clearInterval (Some h)
          | None => fun st => st
          end) ;;
  h <- lift (setInterval (CbLandCurve deferred) stepMS) ;;
  modify (with_hoverTimer (Some h)) ;;
  ret deferred.

(** [hover] returns a promise already resolved with ['OK']. *)
Definition hover : M string :=
  fire Ev.stabilize ;;
  ret "OK"%string.

Definition shutdown (st : Copter) : Copter :=
  with_closed (S (closed st)) st.

(** ** The system: what can happen to a copter *)

(** A timer fires: a timeout leaves the loop before its function runs;
    [thrustup] keeps its new captured values in the timer. *)
Definition set_callback (h : nat) (cb : Callback) (l : list Timer) : list Timer :=
  map (fun t => if Nat.eqb (handle t) h
                then mkTimer (handle t) (repeats t) (delay t) cb else t) l.

Definition run_callback (h : nat) (cb : Callback) : M unit :=
  match cb with
  | CbPulse => modify pulse
  | CbStopThrustingUp deferred => stopThrustingUp deferred
  | CbLandCurve deferred => landCurve deferred
  | CbThrustup deferred thrust timeCounter =>
      r <- thrustup deferred thrust timeCounter ;;
      modify (fun st =>
        with_timers (set_callback h (CbThrustup deferred (fst r) (snd r))
                                  (timers st)) st)
  end.

Definition fire_timer (h : nat) : M unit :=
  st <- get ;;
  match find_timer h (timers st) with
  | None => ret tt
  | Some t =>
      modify (if repeats t then fun st => st
              else fun st => with_timers (remove_timer h (timers st)) st) ;;
      run_callback h (callback t)
  end.

(** Everything that can reach the copter: a call of its API by the
    application (an event of [copterStates] and [setpoint] included, both
    being public), a telemetry sample from the driver, the fulfilment of
    [driver.connect], a timer firing. *)
Inductive Input : Type :=
| CallConnect
| DriverConnected
| CallTakeoff
| CallTakeoff1
| CallLand
| CallHover
| CallShutdown
| CallEvent (e : Ev.t)
| SetRoll (r : Js.num)
| SetPitch (p : Js.num)
| SetYaw (y : Js.num)
| SetThrust (t : Js.value)
| SetXmode (b : bool)
| CallSetpoint (roll pitch yaw thrust : Js.num)
| OnStabilizer (data : StabilizerData)
| OnMotor (data : MotorData)
| OnAcc (data : AccData)
| OnGyro (data : GyroData)
| TimerFires (h : nat).

Definition handle_input (i : Input) : M unit :=
  match i with
  | CallConnect => connect
  | DriverConnected =>
      st <- get ;;
      match connecting st with
      | O => ret tt
      | S n => modify (with_connecting n) ;; connected_callback
      end
  | CallTakeoff => takeoff ;; ret tt
  | CallTakeoff1 => takeoff1 ;; ret tt
  | CallLand => land ;; ret tt
  | CallHover => hover ;; ret tt
  | CallShutdown => modify shutdown
  | CallEvent e => fire e
  | SetRoll r => modify (setRoll r)
  | SetPitch p => modify (setPitch p)
  | SetYaw y => modify (setYaw y)
  | SetThrust t => modify (setThrust t)
  | SetXmode b => modify (with_xmode b)
  | CallSetpoint roll pitch yaw thrust => modify (setpoint roll pitch yaw thrust)
  | OnStabilizer data => modify (handleStabilizerTelemetry data)
  | OnMotor data => modify (handleMotorTelemetry data)
  | OnAcc data => modify (handleAccTelemetry data)
  | OnGyro data => modify (handleGyroTelemetry data)
  | TimerFires h => fire_timer h
  end.

(** The state an input leaves behind, whether its handler returned or
    threw. *)
Definition step (i : Input) (st : Copter) : Copter :=
  state_of (handle_input i st).

Definition run (inputs : list Input) (st : Copter) : Copter :=
  fold_left (fun st i => step i st) inputs st.

Inductive reachable : Copter -> Prop :=
| reachable_new : reachable new_Copter
| reachable_step i st : reachable st -> reachable (step i st).

(** The pulse timer is active when the event loop holds a timer that
    runs [pulse]. *)
Definition is_pulse (t : Timer) : bool :=
  match callback t with CbPulse => true | _ => false end.

Definition is_landCurve (t : Timer) : bool :=
  match callback t with CbLandCurve _ => true | _ => false end.

Definition pulse_active (st : Copter) : bool := existsb is_pulse (timers st).

Definition ramp_active (st : Copter) : bool := existsb is_landCurve (timers st).

(** ** Vocabulary of the properties *)

(** The phases in which the stabilizer handler acts. *)
Definition stabilizing (p : Phase) : bool :=
  match p with taking_off | moving | hovering => true | _ => false end.

(** The phases in which the accelerometer handler acts. *)
Definition climbing (p : Phase) : bool :=
  match p with taking_off | hovering => true | _ => false end.

(** The phases from entering taking-off to leaving landing. *)
Definition flying (p : Phase) : bool :=
  match p with taking_off | hovering | moving | landing => true | _ => false end.

(** A setpoint that is zero on its four axes. *)
Definition zero_setpoint (sp : Setpoint) : Prop :=
  sp_roll sp ≡ Fin 0 /\ sp_pitch sp ≡ Fin 0 /\ sp_yaw sp ≡ Fin 0 /\
  sp_thrust sp ≡ Fin 0.

(** Inputs that neither call the flight API nor fire a timer other than
    the pulse timer [p]: accessor writes, raw setpoints, telemetry,
    pulse ticks. *)
Definition ambient (p : option nat) (i : Input) : bool :=
  match i with
  | SetRoll _ | SetPitch _ | SetYaw _ | SetThrust _ | SetXmode _
  | CallSetpoint _ _ _ _ | CallShutdown
  | OnStabilizer _ | OnMotor _ | OnAcc _ | OnGyro _ => true
  | TimerFires h =>
      match p with Some h' => Nat.eqb h h' | None => false end
  | _ => false
  end.

(** What ambient inputs leave alone: the phase, the timers, the altitude
    goal and the deferreds. *)
Record steady (a b : Copter) : Prop := mkSteady {
  steady_phase : copterStates b = copterStates a;
  steady_timers : timers b = timers a;
  steady_z : g_z (goal b) = g_z (goal a);
  steady_resolved : resolved b = resolved a;
  steady_deferred : nextDeferred b = nextDeferred a
}.

(** The deferred a timer's function has captured. *)
Definition deferred_of (cb : Callback) : option nat :=
  match cb with
  | CbPulse => None
  | CbStopThrustingUp d | CbLandCurve d | CbThrustup d _ _ => Some d
  end.

(** The part of the state the timers and the deferreds live in. *)
Definition view (st : Copter) :=
  (copterStates st, pulseTimer st, hoverTimer st, flightTimer st,
   timers st, nextHandle st, resolved st, nextDeferred st).

(** The invariant of the reachable states: handles and deferreds are
    handed out in increasing order; [pulseTimer] and [hoverTimer] name the
    timers that run [pulse] and [landCurve]; a pulse timer runs exactly in
    the flying phases and a landing ramp only in landing. *)
Record wf (st : Copter) : Prop := mkWf {
  wf_fresh : forall t, In t (timers st) -> (handle t < nextHandle st)%nat;
  wf_nodup : NoDup (map handle (timers st));
  wf_flight : forall h, flightTimer st = Some h -> (h < nextHandle st)%nat;
  wf_pulse : forall t, In t (timers st) -> is_pulse t = true ->
    pulseTimer st = Some (handle t) /\ flightTimer st <> Some (handle t) /\
    repeats t = true;
  wf_ramp : forall t, In t (timers st) -> is_landCurve t = true ->
    hoverTimer st = Some (handle t) /\ copterStates st = landing;
  wf_active : pulse_active st = flying (copterStates st);
  wf_closure : forall t d, In t (timers st) ->
    deferred_of (callback t) = Some d -> (d < nextDeferred st)%nat;
  wf_resolved : forall r, In r (resolved st) -> (fst r < nextDeferred st)%nat
}.

(** The timers that survive [clearInterval h]. *)
Definition cleared (h : option nat) (l : list Timer) : list Timer :=
  match h with Some h => remove_timer h l | None => l end.

(** The pulse-timer invariant as the specification words it: active
    exactly in taking-off, hovering and moving. *)
Definition pulse_only_airborne (st : Copter) : Prop :=
  pulse_active st = true <->
  (copterStates st = taking_off \/ copterStates st = hovering \/
   copterStates st = moving).

(** A flight as far as the landing phase. *)
Definition flight_to_landing : list Input :=
  [CallConnect; DriverConnected; CallTakeoff; CallHover; CallLand].

(** A connected copter waiting on the ground. *)
Definition on_the_ground : Copter := run [CallConnect; DriverConnected] new_Copter.

(** A takeoff followed by one pulse tick (the pulse timer has handle 1). *)
Definition climb_start : list Input :=
  [CallConnect; DriverConnected; CallTakeoff; TimerFires 1%nat].

(** The accelerometer feedback as the specification words it: the adjusted
    goal thrust is mirrored into the value the thrust getter returns. *)
Definition acc_mirrors_into_getter (data : AccData) (st : Copter) : Prop :=
  forall z gz gt : Q,
    climbing (copterStates st) = true ->
    acc_z data = Fin z ->
    g_z (goal st) = Fin gz ->
    g_thrust (goal st) = Fin gt ->
    (0.01 < Qabs (gz - z))%Q ->
    let st' := handleAccTelemetry data st in
    g_thrust (goal st') ≡ Fin (gt + 1250 * (gz - z)) /\
    exists t, getThrust st' = VNum t /\ t ≡ g_thrust (goal st').

(** A flight as far as landing with a current thrust of 37700: the pulse
    timer has handle 1, the landing ramp handle 3 and [land] deferred 1. *)
Definition descent_start : list Input :=
  [CallConnect; DriverConnected; CallTakeoff; SetThrust (VNum (Fin 37700));
   TimerFires 1%nat; CallHover; CallLand].

(** The landing ramp as the specification words it: each tick
    lowers the thrust by 1000, floored at 10001, in the goal and in the
    current thrust, and the tick that reaches the floor lands. *)
Definition ramp_tick_mirrors (d : nat) (st : Copter) : Prop :=
  forall T : Q,
    copterStates st = landing ->
    getThrust st = VNum (Fin T) ->
    let st' := state_of (landCurve d st) in
    let T' := if Qle_bool (T - 1000) 10001 then 10001%Q else (T - 1000)%Q in
    g_thrust (goal st') ≡ Fin T' /\
    (exists t, getThrust st' = VNum t /\ t ≡ Fin T') /\
    ((T' == 10001)%Q ->
       copterStates st' = waiting /\ resolutions d st' = ["waiting"%string]).

(** The goal thrust after each of [n] ticks of the ramp timer [h], a
    tick of the pulse timer [p] following each. *)
Fixpoint thrusts (n h p : nat) (st : Copter) : list Js.num :=
  match n with
  | O => []
  | S n =>
      let st' := step (TimerFires h) st in
      g_thrust (goal st') :: thrusts n h p (step (TimerFires p) st')
  end.

(** [n] rounds of a ramp tick and a pulse tick. *)
Fixpoint descend (n h p : nat) (st : Copter) : Copter :=
  match n with
  | O => st
  | S n => descend n h p (step (TimerFires p) (step (TimerFires h) st))
  end.

(** The end of a landing that began in [st]: the machine waits, [land]'s
    deferred [d] has been resolved with 'waiting' and with nothing else
    on top, the goal thrust is at the floor, and neither the ramp timer
    [h] nor the pulse timer [p] is left. *)
Definition touched_down (h p d : nat) (st st' : Copter) : Prop :=
  copterStates st' = waiting /\
  resolved st' = (d, "waiting"%string) :: resolved st /\
  g_thrust (goal st') = Fin 10001 /\
  find_timer h (timers st') = None /\
  find_timer p (timers st') = None.

(** ** The hand tracker's thrust control (scripts/leap-control.js) *)

(** What [changethrust] reads of a hand: the height of the palm,
    [hand.palmPosition[1]]. *)
Record Hand : Type := mkHand {
  palmHeight : Js.num
}.

Record Frame : Type := mkFrame {
  hands : list Hand
}.

(** [changethrust], as the later of the two copies of the script has it
    (the earlier one differs in the one-hand branch only, where it reads
    names it never declares): with one hand in the frame the thrust
    follows the height of the palm; [thrust] is assigned 10001 under a
    low hand and assigned again, unconditionally, on the next line.
    Without exactly one hand the current thrust is handed back to the
    setter. *)
Definition changethrust (frame : Frame) (st : Copter) : Copter :=
  let thrusty := getThrust st in
  match hands frame with
  | [hand] =>
      let position := palmHeight hand in
      let thrust := if Js.lt position (Fin 150) then VNum (Fin 10001)
                    else VUndefined in
      let thrust := VNum (Js.mul position (Fin 133)) in
      setThrust thrust st
  | _ => setThrust thrusty st
  end.

(** ** Vocabulary of the further properties *)

(** [n] consecutive ticks of the timer [h]. *)
Definition ticks (n h : nat) (st : Copter) : Copter :=
  Nat.iter n (step (TimerFires h)) st.

(** [n] consecutive runs of [thrustup], each on the captured values the
    one before returned. *)
Fixpoint thrustups (n d : nat) (thrust : Q) (timeCounter : Z) : M (Q * Z) :=
  match n with
  | O => ret (thrust, timeCounter)
  | S n =>
      (r <- thrustups n d thrust timeCounter ;;
       thrustup d (fst r) (snd r))%js
  end.

(** The thrust staged after each of the first [n] ticks of the timer
    [h]. *)
Definition staged_thrusts (n h : nat) (st : Copter) : list Js.num :=
  map (fun k => sp_thrust (nextSetpoint (ticks k h st))) (seq 1 n).


(** A landing-ramp tick, a frame of the hand tracker, a pulse tick. *)
Definition tracked_round (d : nat) (frame : Frame) (st : Copter) : Copter :=
  pulse (changethrust frame (state_of (landCurve d st))).

(** The thrusts the setter can leave in [nextSetpoint]: the initial 0,
    [NaN], or an integer from 10001 to 60000. *)
Definition staged (n : Js.num) : Prop :=
  n = Fin 0 \/ n = NaN \/
  exists m : Z, n = Fin (inject_Z m) /\ (10001 <= m <= 60000)%Z.

Definition all_channels : list Channel :=
  [ch_motor; ch_stabilizer; ch_accelerometer; ch_gyro].

(** The altitude the goal holds in each phase of a flight. *)
Definition altitude_of (p : Phase) (z : Js.num) : Prop :=
  match p with
  | taking_off => z = Fin 1.5
  | hovering | moving | landing => z = Fin 1.0
  | _ => True
  end.

(** A second invariant of the reachable states, on what the control code
    writes: [currentSetpoint] is the setpoint last sent; the staged
    thrust went through the setter; [connect] got through at most once;
    the attitude and position goals are never written and the altitude
    goal follows the phase. *)
Record tidy (st : Copter) : Prop := mkTidy {
  tidy_current : currentSetpoint st = hd_error (sent st);
  tidy_staged : staged (sp_thrust (nextSetpoint st));
  tidy_connect :
    (connecting st = 0%nat /\ subscriptions st = []) \/
    (copterStates st <> setup /\
     ((connecting st = 1%nat /\ subscriptions st = []) \/
      (connecting st = 0%nat /\ subscriptions st = all_channels)));
  tidy_attitude :
    g_roll (goal st) = Fin 0 /\ g_pitch (goal st) = Fin 0 /\
    g_yaw (goal st) = Fin 0 /\ g_x (goal st) = Fin 0 /\ g_y (goal st) = Fin 0;
  tidy_altitude : altitude_of (copterStates st) (g_z (goal st))
}.

(** Code that keeps the invariant, leaves the telemetry snapshots and
    the X-mode switch alone and does not go back to setup. *)
Definition keeps (a b : Copter) : Prop :=
  (tidy a -> tidy b) /\ telemetry b = telemetry a /\ xmode b = xmode a /\
  (copterStates a <> setup -> copterStates b <> setup).

(** What the invariant reads of a state. *)
Definition tview (st : Copter) :=
  (copterStates st, currentSetpoint st, sent st, sp_thrust (nextSetpoint st),
   connecting st, subscriptions st, with_g_thrust (Fin 0) (goal st)).

(** The snapshots after an input: a sample replaces the snapshot of its
    channel. *)
Definition record_sample (i : Input) (t : Telemetry) : Telemetry :=
  match i with
  | OnStabilizer data => mkTelemetry (Some data) (motor t) (acc t) (gyro t)
  | OnMotor data => mkTelemetry (stabilizer t) (Some data) (acc t) (gyro t)
  | OnAcc data => mkTelemetry (stabilizer t) (motor t) (Some data) (gyro t)
  | OnGyro data => mkTelemetry (stabilizer t) (motor t) (acc t) (Some data)
  | _ => t
  end.

(** The latest sample a list of inputs delivers on a channel, [init] if
    it delivers none. *)
Definition latest {A} (pick : Input -> option A) (inputs : list Input)
  (init : option A) : option A :=
  fold_left (fun last i => match pick i with Some d => Some d | None => last end)
            inputs init.

Definition pick_stabilizer (i : Input) : option StabilizerData :=
  match i with OnStabilizer d => Some d | _ => None end.
Definition pick_motor (i : Input) : option MotorData :=
  match i with OnMotor d => Some d | _ => None end.
Definition pick_acc (i : Input) : option AccData :=
  match i with OnAcc d => Some d | _ => None end.
Definition pick_gyro (i : Input) : option GyroData :=
  match i with OnGyro d => Some d | _ => None end.

(** * Properties *)

(** ** Numbers *)

Section Numbers.

Local Open Scope Q_scope.

Lemma Qlt_bool_iff (x y : Q) : Js.Qlt_bool x y = true <-> x < y.
Proof.
  unfold Js.Qlt_bool. rewrite negb_true_iff.
  split; intro H.
  - apply Qnot_le_lt. intro Hle. apply Qle_bool_iff in Hle. congruence.
  - destruct (Qle_bool y x) eqn:E; [|reflexivity].
    apply Qle_bool_iff in E. exfalso. exact (Qlt_not_le _ _ H E).
Qed.

Lemma Qlt_bool_false_iff (x y : Q) : Js.Qlt_bool x y = false <-> y <= x.
Proof.
  unfold Js.Qlt_bool. rewrite negb_false_iff. apply Qle_bool_iff.
Qed.

Lemma Qle_bool_false_iff (x y : Q) : Qle_bool x y = false <-> y < x.
Proof.
  rewrite <- Qlt_bool_iff. unfold Js.Qlt_bool.
  destruct (Qle_bool x y); simpl; intuition congruence.
Qed.

Lemma Qeq_bool_false_iff (x y : Q) : Qeq_bool x y = false <-> ~ x == y.
Proof.
  split; intro H.
  - apply Qeq_bool_neq. exact H.
  - destruct (Qeq_bool x y) eqn:E; [|reflexivity].
    apply Qeq_bool_iff in E. contradiction.
Qed.

(** [Math.round] picks the nearest integer, the upper one on a tie. *)
Lemma round_nearest (q : Q) :
  exists n : Z,
    Js.round (Fin q) = Fin (inject_Z n) /\
    inject_Z n - (1 # 2) <= q /\ q < inject_Z n + (1 # 2).
Proof.
  exists (Qfloor (q + (1 # 2))). split; [reflexivity|].
  pose proof (Qfloor_le (q + (1 # 2))) as Hlo.
  pose proof (Qlt_floor (q + (1 # 2))) as Hhi.
  rewrite inject_Z_plus in Hhi. change (inject_Z 1) with 1 in Hhi.
  set (f := inject_Z (Qfloor (q + (1 # 2)))) in *.
  split; lra.
Qed.

Lemma round_integer (n : Z) : Js.round (Fin (inject_Z n)) ≡ Fin (inject_Z n).
Proof.
  simpl. destruct (round_nearest (inject_Z n)) as (m & Hm & Hlo & Hhi).
  simpl in Hm. injection Hm as Hm. rewrite Hm.
  assert (m = n) as ->; [|reflexivity].
  assert (inject_Z m < inject_Z (n + 1)) as H1
    by (rewrite inject_Z_plus; change (inject_Z 1) with 1; lra).
  assert (inject_Z n < inject_Z (m + 1)) as H2
    by (rewrite inject_Z_plus; change (inject_Z 1) with 1; lra).
  rewrite <- Zlt_Qlt in H1, H2. lia.
Qed.

End Numbers.

(** ** deltaToGoal *)

Section Deviation.

Local Open Scope Q_scope.

Lemma deltaToGoal_Fin (a b : Q) :
  deltaToGoal (Fin a) (Fin b) =
  if Js.Qlt_bool ε (Qabs (b - a)) then Fin (b - a) else Fin 0.
Proof. reflexivity. Qed.

Lemma deltaToGoal_within (a b : Q) :
  Qabs (b - a) <= ε -> deltaToGoal (Fin a) (Fin b) = Fin 0.
Proof.
  intro H. rewrite deltaToGoal_Fin.
  apply Qlt_bool_false_iff in H. now rewrite H.
Qed.

Lemma deltaToGoal_beyond (a b : Q) :
  ε < Qabs (b - a) -> deltaToGoal (Fin a) (Fin b) = Fin (b - a).
Proof.
  intro H. rewrite deltaToGoal_Fin.
  apply Qlt_bool_iff in H. now rewrite H.
Qed.

(** In exact arithmetic, on numbers [a] (the current value) and [b]
    (the goal), [deltaToGoal] returns 0 when [|b - a| <= 0.01] and
    [b - a] otherwise; so [deltaToGoal a a] is 0 and
    [deltaToGoal a (a + 0.02)] is 0.02, whatever [a]. *)
Theorem deltaToGoal_deviation (a b : Q) :
  (Qabs (b - a) <= 0.01 -> deltaToGoal (Fin a) (Fin b) = Fin 0) /\
  (~ Qabs (b - a) <= 0.01 -> deltaToGoal (Fin a) (Fin b) = Fin (b - a)) /\
  deltaToGoal (Fin a) (Fin a) = Fin 0 /\
  deltaToGoal (Fin a) (Fin (a + 0.02)) ≡ Fin 0.02.
Proof.
  split; [apply deltaToGoal_within|].
  split; [intro H; apply deltaToGoal_beyond, Qnot_le_lt, H|].
  split.
  - apply deltaToGoal_within.
    assert (a - a == 0) as -> by ring. discriminate.
  - rewrite deltaToGoal_beyond; [simpl; ring|].
    assert (a + 0.02 - a == 0.02) as -> by ring. reflexivity.
Qed.

Lemma deltaToGoal_deviation_witness :
  deltaToGoal (Fin 1) (Fin 1.005) = Fin 0 /\
  deltaToGoal (Fin 0.5) (Fin 1.5) = Fin (1.5 - 0.5).
Proof.
  split.
  - apply (proj1 (deltaToGoal_deviation 1 1.005)). vm_compute. discriminate.
  - apply (proj1 (proj2 (deltaToGoal_deviation 0.5 1.5))).
    vm_compute. intro H. apply H. reflexivity.
Defined.

End Deviation.

(** ** deltaToGoal on doubles *)

Section DoubleDeviation.

Import PrimFloat SpecFloat FloatOps FloatAxioms.
Local Open Scope float_scope.
#[local] Set Warnings "-inexact-float".

(** Comparison of two doubles, by their specification. *)
Lemma SFcompare_antisym x y :
  SFcompare y x = option_map CompOpp (SFcompare x y).
Proof.
  destruct x as [sx|sx| |sx mx ex], y as [sy|sy| |sy my ey]; simpl;
    try reflexivity;
    try (destruct sx; reflexivity); try (destruct sy; reflexivity);
    try (destruct sx, sy; reflexivity).
  f_equal.
  pose proof (Pos.compare_cont_antisym mx my Eq) as Hm. simpl in Hm.
  destruct sx, sy; try reflexivity;
    rewrite (Z.compare_antisym ex ey); destruct (ex ?= ey)%Z; simpl;
    try reflexivity; rewrite <- Hm;
    destruct (Pos.compare_cont Eq mx my); reflexivity.
Qed.

Lemma SFcompare_refl x : x <> S754_nan -> SFcompare x x = Some Eq.
Proof.
  destruct x as [s|s| |s m e]; simpl; intro H; try congruence.
  - destruct s; reflexivity.
  - rewrite Z.compare_refl, Pos.compare_cont_refl. destruct s; reflexivity.
Qed.

Lemma SFcompare_some x y :
  x <> S754_nan -> y <> S754_nan -> exists c, SFcompare x y = Some c.
Proof.
  destruct x as [sx|sx| |sx mx ex], y as [sy|sy| |sy my ey]; simpl;
    intros Hx Hy; try congruence; eexists; reflexivity.
Qed.

(** [x !== x] holds of [NaN] alone. *)
Lemma is_nan_spec x : is_nan x = true <-> Prim2SF x = S754_nan.
Proof.
  unfold is_nan. rewrite eqb_spec. unfold SFeqb. split.
  - intro H. destruct (Prim2SF x) as [s|s| |s m e] eqn:E; try reflexivity;
      rewrite SFcompare_refl in H by discriminate; discriminate.
  - intros ->. reflexivity.
Qed.

Lemma abs_nan x : is_nan (abs x) = is_nan x.
Proof.
  apply eq_true_iff_eq. rewrite !is_nan_spec, abs_spec.
  destruct (Prim2SF x); simpl; split; congruence.
Qed.

(** [y < x] is false when [x <= y], and when [x] is [NaN]; it is true
    when [x <= y] is false of two numbers. *)
Lemma ltb_of_leb x y : (x <=? y) = true -> (y <? x) = false.
Proof.
  rewrite leb_spec, ltb_spec. unfold SFleb, SFltb.
  rewrite (SFcompare_antisym (Prim2SF x) (Prim2SF y)).
  destruct (SFcompare (Prim2SF x) (Prim2SF y)) as [[| |]|]; simpl; congruence.
Qed.

Lemma ltb_of_nan x y : is_nan x = true -> (y <? x) = false.
Proof.
  rewrite is_nan_spec, ltb_spec. intros ->. unfold SFltb.
  destruct (Prim2SF y); reflexivity.
Qed.

Lemma ltb_of_not_leb x y :
  (x <=? y) = false -> is_nan x = false -> is_nan y = false -> (y <? x) = true.
Proof.
  intros Hle Hx Hy.
  assert (Prim2SF x <> S754_nan) as Nx
    by (intro E; apply is_nan_spec in E; congruence).
  assert (Prim2SF y <> S754_nan) as Ny
    by (intro E; apply is_nan_spec in E; congruence).
  rewrite leb_spec in Hle. rewrite ltb_spec. unfold SFleb, SFltb in *.
  rewrite (SFcompare_antisym (Prim2SF x) (Prim2SF y)).
  destruct (SFcompare_some _ _ Nx Ny) as (c & Hc). rewrite Hc in *.
  destruct c; simpl; congruence.
Qed.

(** [x - x] is [+0], or [NaN] when [x] is infinite or [NaN]. *)
Lemma sub_diag x :
  Prim2SF (x - x) = S754_zero false \/ Prim2SF (x - x) = S754_nan.
Proof.
  rewrite sub_spec. unfold SF64sub.
  destruct (Prim2SF x) as [s|s| |s m e]; simpl.
  - left. destruct s; reflexivity.
  - right. destruct s; reflexivity.
  - right. reflexivity.
  - left. rewrite Z.min_id. unfold shl_align. rewrite !Z.sub_diag.
    reflexivity.
Qed.

(** Two doubles that [Leibniz.eqb] tells apart are different. *)
Lemma float_neq x y : Leibniz.eqb x y = false -> Leibniz.eqb y y = true -> x <> y.
Proof. intros H1 H2 E. rewrite E, H2 in H1. discriminate H1. Qed.

(** The identity [deviation(a, a + 0.02) == 0.02] fails at [a = 1]:
    [1 + 0.02] is the double [1.02], which lies
    [0.0200000000000000177...] above 1; that difference is itself a
    double, so the subtraction returns it, five units in the last place
    above the double [0.02].  It fails at [a = 1e17] too, where
    [a + 0.02] is [a] and the result is 0.  And what is returned beyond
    the tolerance is the rounded difference, not the difference of the
    two reals: at current [2^-60] and goal 1 it is 1. *)
Lemma step_identity_fails :
  ~ Double.step_identity 1 /\
  Double.deltaToGoal 1 (1 + 0.02) = 0.020000000000000018 /\
  Double.deltaToGoal 1 (1 + 0.02) <> 0.02 /\
  Double.exact (Double.deltaToGoal 1 (1 + 0.02)) =
    Some (5764607523034240 * 2 ^ (-58))%Q /\
  Double.exact 0.02 = Some (5764607523034235 * 2 ^ (-58))%Q /\
  ~ Double.step_identity 1e17 /\
  Double.deltaToGoal 1e17 (1e17 + 0.02) = 0 /\
  Double.deltaToGoal 0x1p-60 1 = 1 /\
  (exists a b r : Q,
     Double.exact 0x1p-60 = Some a /\ Double.exact 1 = Some b /\
     Double.exact (Double.deltaToGoal 0x1p-60 1) = Some r /\
     (0.01 < Qabs (b - a))%Q /\ ~ (r == b - a)%Q).
Proof.
  split.
  { unfold Double.step_identity. vm_compute. discriminate. }
  split; [vm_compute; reflexivity|].
  split.
  { apply float_neq; vm_compute; reflexivity. }
  split; [vm_compute; reflexivity|].
  split; [vm_compute; reflexivity|].
  split.
  { unfold Double.step_identity. vm_compute. discriminate. }
  split; [vm_compute; reflexivity|].
  split; [vm_compute; reflexivity|].
  eexists. eexists. eexists.
  split; [vm_compute; reflexivity|].
  split; [vm_compute; reflexivity|].
  split; [vm_compute; reflexivity|].
  split; [vm_compute; reflexivity|].
  vm_compute. discriminate.
Qed.

(** C8.  On doubles [a] (the current value) and [b] (the goal), with [d]
    the difference [b - a] as the code computes it, [deltaToGoal]
    returns 0 when [|d| <= 0.01] and when [d] is [NaN], and [d]
    otherwise; [deltaToGoal a a] is 0 whatever [a], infinite or [NaN]
    included.  [deltaToGoal a (a + 0.02)] is 0.02 at [a = 0]; it is
    [0.020000000000000018] at [a = 1] and 0 at [a = 1e17]. *)
Theorem deltaToGoal_on_doubles (a b : float) :
  let d := b - a in
  ((abs d <=? Double.ε) = true -> Double.deltaToGoal a b = 0) /\
  (is_nan d = true -> Double.deltaToGoal a b = 0) /\
  ((abs d <=? Double.ε) = false -> is_nan d = false ->
     Double.deltaToGoal a b = d) /\
  Double.deltaToGoal a a = 0 /\
  Double.deltaToGoal 0 (0 + 0.02) = 0.02 /\
  Double.deltaToGoal 1 (1 + 0.02) = 0.020000000000000018 /\
  Double.deltaToGoal 1e17 (1e17 + 0.02) = 0.
Proof.
  intro d. unfold Double.deltaToGoal. fold d.
  split.
  { intro H. now rewrite (ltb_of_leb _ _ H). }
  split.
  { intro H. rewrite (ltb_of_nan (abs d) Double.ε); [reflexivity|].
    now rewrite abs_nan. }
  split.
  { intros H N.
    rewrite (ltb_of_not_leb (abs d) Double.ε H); [reflexivity| |reflexivity].
    now rewrite abs_nan. }
  split.
  { assert ((Double.ε <? abs (a - a)) = false) as ->; [|reflexivity].
    rewrite ltb_spec, abs_spec.
    destruct (sub_diag a) as [-> | ->]; reflexivity. }
  split; [vm_compute; reflexivity|].
  split; vm_compute; reflexivity.
Qed.

Lemma deltaToGoal_on_doubles_witness :
  Double.deltaToGoal 1 1.005 = 0 /\
  Double.deltaToGoal nan 1.5 = 0 /\
  Double.deltaToGoal 0.5 1.5 = 1.5 - 0.5.
Proof.
  split.
  { apply (proj1 (deltaToGoal_on_doubles 1 1.005)). vm_compute. reflexivity. }
  split.
  { apply (proj1 (proj2 (deltaToGoal_on_doubles nan 1.5))).
    vm_compute. reflexivity. }
  apply (proj1 (proj2 (proj2 (deltaToGoal_on_doubles 0.5 1.5))));
    vm_compute; reflexivity.
Defined.

End DoubleDeviation.

(** ** The setpoint pipeline *)

Section Pipeline.

Local Open Scope Q_scope.

(** With X-mode off the four numbers go through as they are. *)
Lemma setpoint_plain roll pitch yaw thrust st :
  xmode st = false ->
  setpoint roll pitch yaw thrust st =
  with_sent (mkSetpoint roll pitch yaw thrust :: sent st)
    (with_currentSetpoint (Some (mkSetpoint roll pitch yaw thrust)) st).
Proof. intro H. unfold setpoint. now rewrite H. Qed.

(** With X-mode on, the new pitch is computed from the new roll. *)
Lemma setpoint_xmode (r p : Q) yaw thrust st :
  xmode st = true ->
  currentSetpoint (setpoint (Fin r) (Fin p) yaw thrust st) =
  Some (mkSetpoint (Fin (0.707 * (r - p)))
                   (Fin (0.707 * (0.707 * (r - p) + p))) yaw thrust).
Proof. intro H. unfold setpoint. now rewrite H. Qed.

(** What is stored is what the driver is sent. *)
Lemma setpoint_forwards roll pitch yaw thrust st :
  hd_error (sent (setpoint roll pitch yaw thrust st)) =
  currentSetpoint (setpoint roll pitch yaw thrust st).
Proof. reflexivity. Qed.

(** C1.  The code at roll 10, pitch 4 with X-mode on: it stores (and
    sends) roll' = 4.242, as specified, but pitch' = 5.827094,
    which is 0.707 * (roll' + pitch) and not the specified
    0.707 * (roll + pitch) = 9.898. *)
Theorem setpoint_xmode_10_4 :
  let st := setpoint (Fin 10) (Fin 4) (Fin 0) (Fin 0)
                     (with_xmode true new_Copter) in
  exists roll' pitch' : Q,
    currentSetpoint st = Some (mkSetpoint (Fin roll') (Fin pitch') (Fin 0) (Fin 0)) /\
    hd_error (sent st) = currentSetpoint st /\
    roll' == 4.242 /\
    pitch' == 5.827094 /\
    pitch' == 0.707 * (roll' + 4) /\
    0.001 < Qabs (pitch' - 0.707 * (10 + 4)).
Proof.
  simpl. eexists. eexists. split; [reflexivity|].
  split; [reflexivity|]. repeat split.
Qed.

End Pipeline.

(** ** The thrust accessors *)

Section Thrust.

Local Open Scope Q_scope.

Lemma setThrust_Fin (q : Q) st :
  sp_thrust (nextSetpoint (setThrust (VNum (Fin q)) st)) =
  Js.round (if Js.Qlt_bool q 10001 then Fin 10001
            else if Js.Qlt_bool 60000 q then Fin 60000 else Fin q).
Proof.
  unfold setThrust. simpl.
  destruct (Js.Qlt_bool q 10001); [reflexivity|].
  destruct (Js.Qlt_bool 60000 q); reflexivity.
Qed.

(** The setter touches the thrust of [nextSetpoint] and nothing else. *)
Lemma setThrust_frame t st :
  setThrust t st =
  with_nextSetpoint
    (with_sp_thrust (sp_thrust (nextSetpoint (setThrust t st))) (nextSetpoint st))
    st.
Proof. reflexivity. Qed.

(** [NaN] is a number for [_.isNumber] and fails both comparisons. *)
Lemma setThrust_NaN st :
  sp_thrust (nextSetpoint (setThrust (VNum NaN) st)) = NaN.
Proof. reflexivity. Qed.

(** The setter on the inputs that one of its three tests catches or
    that lie in the range: it stages 10001 for a value that is not a
    number, 10001 for a number below 10001, 60000 for one above 60000,
    and the nearest integer for one in between; the rest of
    [nextSetpoint], [currentSetpoint] and the goal are left alone, and
    the getter reads [currentSetpoint.thrust]. *)
Theorem setThrust_clamps (t : Js.value) (st : Copter) :
  let st' := setThrust t st in
  (Js.isNumber t = false ->
     sp_thrust (nextSetpoint st') = Fin 10001) /\
  (forall q, t = VNum (Fin q) -> q < 10001 ->
     sp_thrust (nextSetpoint st') = Fin 10001) /\
  (forall q, t = VNum (Fin q) -> 60000 < q ->
     sp_thrust (nextSetpoint st') = Fin 60000) /\
  (forall q, t = VNum (Fin q) -> 10001 <= q <= 60000 ->
     sp_thrust (nextSetpoint st') = Js.round (Fin q) /\
     exists n : Z,
       Js.round (Fin q) = Fin (inject_Z n) /\
       inject_Z n - (1 # 2) <= q /\ q < inject_Z n + (1 # 2)) /\
  st' = with_nextSetpoint
          (with_sp_thrust (sp_thrust (nextSetpoint st')) (nextSetpoint st)) st /\
  currentSetpoint st' = currentSetpoint st /\
  goal st' = goal st /\
  getThrust st' = match currentSetpoint st with
                  | Some sp => VNum (sp_thrust sp)
                  | None => VUndefined
                  end.
Proof.
  intro st'. subst st'.
  split.
  { intro H. unfold setThrust. now rewrite H. }
  split.
  { intros q -> H. rewrite setThrust_Fin.
    apply Qlt_bool_iff in H. now rewrite H. }
  split.
  { intros q -> H. rewrite setThrust_Fin.
    assert (Js.Qlt_bool q 10001 = false) as ->
      by (apply Qlt_bool_false_iff; lra).
    apply Qlt_bool_iff in H. now rewrite H. }
  split.
  { intros q -> [Hlo Hhi]. rewrite setThrust_Fin.
    apply Qlt_bool_false_iff in Hlo, Hhi. rewrite Hlo, Hhi.
    split; [reflexivity|]. apply round_nearest. }
  repeat split.
Qed.

Lemma setThrust_clamps_witness :
  sp_thrust (nextSetpoint (setThrust (VOther "full") new_Copter)) = Fin 10001 /\
  sp_thrust (nextSetpoint (setThrust (VNum (Fin 9000.7)) new_Copter)) = Fin 10001 /\
  sp_thrust (nextSetpoint (setThrust (VNum (Fin 70000)) new_Copter)) = Fin 60000 /\
  sp_thrust (nextSetpoint (setThrust (VNum (Fin 37700.5)) new_Copter)) =
    Js.round (Fin 37700.5).
Proof.
  split.
  { apply (proj1 (setThrust_clamps (VOther "full") new_Copter)). reflexivity. }
  split.
  { apply (proj1 (proj2 (setThrust_clamps (VNum (Fin 9000.7)) new_Copter))
             9000.7 eq_refl).
    reflexivity. }
  split.
  { apply (proj1 (proj2 (proj2 (setThrust_clamps (VNum (Fin 70000)) new_Copter)))
             70000 eq_refl).
    reflexivity. }
  apply (proj1 (proj2 (proj2 (proj2
           (setThrust_clamps (VNum (Fin 37700.5)) new_Copter))))
           37700.5 eq_refl).
  split; discriminate.
Defined.

(** Whatever the setter is given short of [NaN], it stages an integer
    from 10001 to 60000. *)
Lemma setThrust_range (v : Js.value) (st : Copter) :
  v <> VNum NaN ->
  exists m : Z,
    sp_thrust (nextSetpoint (setThrust v st)) = Fin (inject_Z m) /\
    (10001 <= m <= 60000)%Z.
Proof.
  intro Hv. destruct v as [[q|]| |s]; try congruence.
  - rewrite setThrust_Fin.
    destruct (Js.Qlt_bool q 10001) eqn:Elo.
    { exists 10001%Z. split; [reflexivity|lia]. }
    destruct (Js.Qlt_bool 60000 q) eqn:Ehi.
    { exists 60000%Z. split; [reflexivity|lia]. }
    apply Qlt_bool_false_iff in Elo, Ehi.
    exists (Qfloor (q + (1 # 2))). split; [reflexivity|]. split.
    + change 10001%Z with (Qfloor (inject_Z 10001)).
      apply Qfloor_resp_le. change (inject_Z 10001) with 10001. lra.
    + change 60000%Z with (Qfloor (60000 + (1 # 2))).
      apply Qfloor_resp_le. lra.
  - exists 10001%Z. split; [reflexivity|lia].
  - exists 10001%Z. split; [reflexivity|lia].
Qed.

End Thrust.

(** ** Telemetry handlers *)

Section Handlers.

Local Open Scope Q_scope.

(** C10.  A stabilizer sample is stored as the snapshot.  In
    taking-off, moving and hovering the handler then writes 0 into the
    roll, pitch and yaw of [nextSetpoint] through the setters, whatever
    was staged there; in every other phase it does nothing more.  The
    goal, [currentSetpoint], the thrust of [nextSetpoint] and the phase
    stay as they were. *)
Theorem stabilizer_zeroes_staged_attitude (data : StabilizerData) (st : Copter) :
  let stored :=
    with_telemetry
      (mkTelemetry (Some data) (motor (telemetry st)) (acc (telemetry st))
                   (gyro (telemetry st))) st in
  let st' := handleStabilizerTelemetry data st in
  (stabilizing (copterStates st) = true ->
     st' = setYaw (Fin 0) (setPitch (Fin 0) (setRoll (Fin 0) stored)) /\
     nextSetpoint st' =
       mkSetpoint (Fin 0) (Fin 0) (Fin 0) (sp_thrust (nextSetpoint st))) /\
  (stabilizing (copterStates st) = false -> st' = stored) /\
  stabilizer (telemetry st') = Some data /\
  goal st' = goal st /\
  currentSetpoint st' = currentSetpoint st /\
  sp_thrust (nextSetpoint st') = sp_thrust (nextSetpoint st) /\
  copterStates st' = copterStates st.
Proof.
  unfold handleStabilizerTelemetry. cbv zeta. simpl copterStates.
  destruct (copterStates st) eqn:E; simpl;
    repeat split; try discriminate; try reflexivity; exact E.
Qed.

Lemma stabilizer_zeroes_staged_attitude_witness :
  let st := setRoll (Fin 12) (with_copterStates hovering new_Copter) in
  nextSetpoint (handleStabilizerTelemetry
                  (mkStabilizer (Fin 1) (Fin 2) (Fin 3) (Fin 4)) st) =
    mkSetpoint (Fin 0) (Fin 0) (Fin 0) (Fin 0) /\
  handleStabilizerTelemetry
    (mkStabilizer (Fin 1) (Fin 2) (Fin 3) (Fin 4)) new_Copter =
    with_telemetry
      (mkTelemetry (Some (mkStabilizer (Fin 1) (Fin 2) (Fin 3) (Fin 4)))
                   None None None) new_Copter.
Proof.
  split.
  - apply (proj1 (stabilizer_zeroes_staged_attitude
                    (mkStabilizer (Fin 1) (Fin 2) (Fin 3) (Fin 4))
                    (setRoll (Fin 12) (with_copterStates hovering new_Copter)))).
    reflexivity.
  - apply (proj1 (proj2 (stabilizer_zeroes_staged_attitude
                    (mkStabilizer (Fin 1) (Fin 2) (Fin 3) (Fin 4)) new_Copter))).
    reflexivity.
Defined.

Lemma handleAcc_active (data : AccData) (st : Copter) :
  climbing (copterStates st) = true ->
  handleAccTelemetry data st =
  let stored :=
    with_telemetry
      (mkTelemetry (stabilizer (telemetry st)) (motor (telemetry st))
                   (Some data) (gyro (telemetry st))) st in
  let zDelta := deltaToGoal (acc_z data) (g_z (goal st)) in
  if negb (Js.strict_eq zDelta (Fin 0)) then
    let thrust := Js.add (g_thrust (goal st)) (Js.mul (Fin 1250) zDelta) in
    setThrust (VNum thrust) (with_goal (with_g_thrust thrust (goal st)) stored)
  else stored.
Proof.
  unfold handleAccTelemetry. cbv zeta. simpl copterStates. simpl goal.
  destruct (copterStates st); try discriminate; reflexivity.
Qed.

(** The handler never writes [currentSetpoint], which is what the
    thrust getter reads. *)
Lemma handleAcc_currentSetpoint (data : AccData) (st : Copter) :
  currentSetpoint (handleAccTelemetry data st) = currentSetpoint st.
Proof.
  unfold handleAccTelemetry. cbv zeta. simpl copterStates.
  destruct (copterStates st); try reflexivity;
    destruct (negb _); reflexivity.
Qed.

(** C4, as amended.  In taking-off and hovering, a sample whose [z] is
    more than 0.01 away from [goal.z] adds exactly
    [1250 * (goal.z - sample.z)] to [goal.thrust], unclamped, and stages
    the new value through the thrust setter, which clamps and rounds it
    into [nextSetpoint.thrust]; the value the thrust getter returns is
    not touched.  A sample within 0.01 leaves [goal.thrust] as it
    was. *)
Theorem acc_adjusts_goal_thrust (data : AccData) (st : Copter) (z gz gt : Q) :
  climbing (copterStates st) = true ->
  acc_z data = Fin z ->
  g_z (goal st) = Fin gz ->
  g_thrust (goal st) = Fin gt ->
  let st' := handleAccTelemetry data st in
  (0.01 < Qabs (gz - z) ->
     g_thrust (goal st') = Fin (gt + 1250 * (gz - z)) /\
     nextSetpoint st' =
       nextSetpoint (setThrust (VNum (Fin (gt + 1250 * (gz - z)))) st)) /\
  (Qabs (gz - z) <= 0.01 ->
     g_thrust (goal st') = Fin gt /\ nextSetpoint st' = nextSetpoint st) /\
  getThrust st' = getThrust st.
Proof.
  intros Hp Hz Hgz Hgt st'. subst st'.
  split; [|split].
  - intro H. rewrite (handleAcc_active _ _ Hp). cbv zeta.
    rewrite Hz, Hgz, Hgt, (deltaToGoal_beyond _ _ H). simpl Js.strict_eq.
    assert (Qeq_bool (gz - z) 0 = false) as ->.
    { apply Qeq_bool_false_iff. intro E. rewrite E in H. discriminate H. }
    split; reflexivity.
  - intro H. rewrite (handleAcc_active _ _ Hp). cbv zeta.
    rewrite Hz, Hgz, (deltaToGoal_within _ _ H). simpl.
    split; [exact Hgt|reflexivity].
  - unfold getThrust, current_field. now rewrite handleAcc_currentSetpoint.
Qed.

End Handlers.

(** ** The state machine *)

Section Machine.

Lemma Phase_eqb_eq (p q : Phase) : Phase_eqb p q = true <-> p = q.
Proof. destruct p, q; simpl; split; congruence. Qed.

Lemma Phase_eqb_neq (p q : Phase) : Phase_eqb p q = false <-> p <> q.
Proof. destruct p, q; simpl; split; congruence. Qed.

(** A declared edge: leave-hook, new state, enter-hook. *)
Lemma fire_valid (e : Ev.t) (st : Copter) :
  copterStates st = source e ->
  fire e st =
  Returned tt (enter (destination e)
                 (with_copterStates (destination e) (leave (source e) st))).
Proof.
  intro H. unfold fire, bind, get.
  apply Phase_eqb_eq in H. now rewrite H.
Qed.

Lemma fire_invalid (e : Ev.t) (st : Copter) :
  copterStates st <> source e ->
  fire e st = Thrown (InvalidTransition (copterStates st) e (source e)) st.
Proof.
  intro H. unfold fire, bind, get.
  apply Phase_eqb_neq in H. now rewrite H.
Qed.

(** C2.  An event invoked from a phase that is not its source reports
    [InvalidTransition] (naming the current phase, the event and the
    required source) to its caller and changes nothing, the phase in
    particular; whatever the phase, the call terminates with one of the
    two outcomes. *)
Theorem invalid_event_reported (e : Ev.t) (st : Copter) :
  copterStates st <> source e ->
  fire e st = Thrown (InvalidTransition (copterStates st) e (source e)) st /\
  threw (fire e st) = Some (InvalidTransition (copterStates st) e (source e)) /\
  copterStates (state_of (fire e st)) = copterStates st /\
  step (CallEvent e) st = st.
Proof.
  intro H. unfold step, handle_input.
  rewrite (fire_invalid e st H). repeat split.
Qed.

Lemma invalid_event_reported_witness :
  fire Ev.land new_Copter =
    Thrown (InvalidTransition setup Ev.land hovering) new_Copter /\
  copterStates (state_of (fire Ev.land new_Copter)) = setup.
Proof.
  destruct (invalid_event_reported Ev.land new_Copter) as (H1 & _ & H3 & _).
  - simpl. discriminate.
  - split; [exact H1 | exact H3].
Defined.

(** The API calls hand the failure on to their caller. *)
Lemma api_invalid (st : Copter) :
  (copterStates st <> waiting ->
     threw (takeoff st) = Some (InvalidTransition (copterStates st) Ev.takeoff waiting) /\
     copterStates (state_of (takeoff st)) = copterStates st /\
     timers (state_of (takeoff st)) = timers st) /\
  (copterStates st <> hovering ->
     threw (land st) = Some (InvalidTransition (copterStates st) Ev.land hovering) /\
     copterStates (state_of (land st)) = copterStates st /\
     timers (state_of (land st)) = timers st) /\
  (copterStates st <> taking_off ->
     threw (hover st) = Some (InvalidTransition (copterStates st) Ev.stabilize taking_off) /\
     state_of (hover st) = st) /\
  (copterStates st <> setup ->
     threw (connect st) = Some (InvalidTransition (copterStates st) Ev.connect setup) /\
     state_of (connect st) = st).
Proof.
  repeat split; unfold takeoff, land, hover, connect, bind, defer, lift;
    cbv zeta;
    match goal with
    | |- context [fire ?e ?s] =>
        rewrite (fire_invalid e s) by (simpl; assumption)
    end; reflexivity.
Qed.

End Machine.

(** ** Ambient inputs *)

Section Ambient.

Lemma steady_refl st : steady st st.
Proof. constructor; reflexivity. Qed.

Lemma steady_trans a b c : steady a b -> steady b c -> steady a c.
Proof.
  intros [] []. constructor; congruence.
Qed.

Lemma steady_stabilizer data st : steady st (handleStabilizerTelemetry data st).
Proof.
  unfold handleStabilizerTelemetry. cbv zeta. simpl copterStates.
  destruct (copterStates st) eqn:E; constructor; simpl; auto.
Qed.

Lemma steady_motor data st : steady st (handleMotorTelemetry data st).
Proof.
  unfold handleMotorTelemetry. cbv zeta. simpl copterStates.
  destruct (copterStates st) eqn:E; constructor; simpl; auto.
Qed.

Lemma steady_acc data st : steady st (handleAccTelemetry data st).
Proof.
  unfold handleAccTelemetry. cbv zeta. simpl copterStates.
  destruct (copterStates st) eqn:E; try (constructor; simpl; now auto);
    destruct (negb _); constructor; simpl; auto.
Qed.

(** A tick of an interval timer that runs [pulse]. *)
Lemma fire_pulse_timer h t st :
  find_timer h (timers st) = Some t ->
  repeats t = true ->
  callback t = CbPulse ->
  fire_timer h st = Returned tt (pulse st).
Proof.
  intros Hf Hr Hc. unfold fire_timer, bind, get.
  rewrite Hf, Hr. unfold modify. unfold run_callback.
  now rewrite Hc.
Qed.

Lemma steady_ambient p t i st :
  find_timer p (timers st) = Some t ->
  repeats t = true ->
  callback t = CbPulse ->
  ambient (Some p) i = true ->
  steady st (step i st).
Proof.
  intros Hf Hr Hc Ha. unfold step.
  destruct i; simpl in Ha; try discriminate; simpl handle_input;
    unfold modify; simpl state_of;
    try (constructor; reflexivity).
  - apply steady_stabilizer.
  - apply steady_motor.
  - apply steady_acc.
  - apply Nat.eqb_eq in Ha. subst h.
    rewrite (fire_pulse_timer p t st Hf Hr Hc).
    constructor; reflexivity.
Qed.

Lemma steady_run p t inputs : forall st,
  find_timer p (timers st) = Some t ->
  repeats t = true ->
  callback t = CbPulse ->
  Forall (fun i => ambient (Some p) i = true) inputs ->
  steady st (run inputs st).
Proof.
  induction inputs as [|i inputs IH]; intros st Hf Hr Hc Hall.
  - apply steady_refl.
  - inversion Hall as [|? ? Hi Hrest]; subst.
    pose proof (steady_ambient p t i st Hf Hr Hc Hi) as H1.
    apply (steady_trans _ _ _ H1). simpl. apply IH; auto.
    now rewrite (steady_timers _ _ H1).
Qed.

End Ambient.

(** ** The invariant of the reachable states *)

Section Invariant.

Local Open Scope nat_scope.

Lemma wf_view st st' : view st' = view st -> wf st -> wf st'.
Proof.
  unfold view. intros E [H1 H2 H3 H4 H5 H6 H7 H8].
  injection E as E1 E2 E3 E4 E5 E6 E7 E8.
  constructor; unfold pulse_active in *;
    rewrite ?E1, ?E2, ?E3, ?E4, ?E5, ?E6, ?E7, ?E8; assumption.
Qed.

Lemma wf_new : wf new_Copter.
Proof.
  constructor; simpl; try (intros; contradiction); try discriminate;
    try reflexivity.
  constructor.
Qed.

(** *** Lists of timers *)

Lemma in_remove_timer h t l :
  In t (remove_timer h l) <-> In t l /\ handle t <> h.
Proof.
  unfold remove_timer. rewrite filter_In, negb_true_iff, Nat.eqb_neq.
  reflexivity.
Qed.

Lemma nodup_remove_timer h l :
  NoDup (map handle l) -> NoDup (map handle (remove_timer h l)).
Proof.
  induction l as [|t l IH]; simpl; intro H; [constructor|].
  inversion H as [|? ? Hn Hd]; subst.
  destruct (negb (handle t =? h)); simpl; auto.
  constructor; auto.
  intro Hin. apply Hn. apply in_map_iff in Hin as (t' & E & Hin).
  apply in_map_iff. exists t'. split; auto.
  now apply in_remove_timer in Hin.
Qed.

Lemma find_timer_in h t l :
  find_timer h l = Some t -> In t l /\ handle t = h.
Proof.
  unfold find_timer. intro H. apply find_some in H as [H1 H2].
  now apply Nat.eqb_eq in H2.
Qed.

Lemma nodup_handle_inj l t t' :
  NoDup (map handle l) -> In t l -> In t' l -> handle t = handle t' -> t = t'.
Proof.
  induction l as [|a l IH]; simpl; intros Hd Ht Ht' E; [contradiction|].
  inversion Hd as [|? ? Hn Hd']; subst.
  destruct Ht as [->|Ht], Ht' as [->|Ht']; auto.
  - exfalso. apply Hn. rewrite E. now apply in_map.
  - exfalso. apply Hn. rewrite <- E. now apply in_map.
Qed.

Lemma map_handle_set_callback h cb l :
  map handle (set_callback h cb l) = map handle l.
Proof.
  unfold set_callback. rewrite map_map. apply map_ext.
  intro t. now destruct (handle t =? h).
Qed.

Lemma in_set_callback h cb t l :
  In t (set_callback h cb l) ->
  (In t l /\ handle t <> h) \/
  (exists t0, In t0 l /\ handle t0 = h /\
              t = mkTimer (handle t0) (repeats t0) (delay t0) cb).
Proof.
  unfold set_callback. intro H. apply in_map_iff in H as (t0 & E & Hin).
  destruct (handle t0 =? h) eqn:Eh.
  - right. exists t0. apply Nat.eqb_eq in Eh. auto.
  - left. subst t0. apply Nat.eqb_neq in Eh. auto.
Qed.

Lemma existsb_false_iff {A} (f : A -> bool) l :
  existsb f l = false <-> forall x, In x l -> f x = false.
Proof.
  induction l as [|a l IH]; simpl.
  - split; [intros _ x []|reflexivity].
  - rewrite orb_false_iff, IH. split.
    + intros [Ha Hl] x [<-|Hx]; auto.
    + intro H. split; auto.
Qed.

End Invariant.

Section Preservation.

Local Open Scope nat_scope.

Lemma wf_defer st : wf st -> wf (with_nextDeferred (S (nextDeferred st)) st).
Proof.
  intros [H1 H2 H3 H4 H5 H6 H7 H8]. constructor; simpl; auto.
  - intros t d Ht Hd. specialize (H7 t d Ht Hd). lia.
  - intros r Hr. specialize (H8 r Hr). lia.
Qed.

Lemma wf_resolve d v st : wf st -> d < nextDeferred st -> wf (resolve d v st).
Proof.
  intros [H1 H2 H3 H4 H5 H6 H7 H8] Hd. constructor; simpl; auto.
  intros r [<-|Hr]; auto.
Qed.

(** A change of phase that keeps clear of landing on both sides. *)
Lemma wf_rephase p st :
  wf st -> flying p = flying (copterStates st) -> copterStates st <> landing ->
  wf (with_copterStates p st).
Proof.
  intros [H1 H2 H3 H4 H5 H6 H7 H8] Hf Hl. constructor; simpl; auto.
  - intros t Ht Hc. destruct (H5 t Ht Hc) as [_ E]. contradiction.
  - unfold pulse_active in *. simpl. congruence.
Qed.

Lemma wf_enterTakeoff st :
  wf st -> copterStates st = waiting ->
  wf (enterTakeoff (with_copterStates taking_off st)).
Proof.
  intros [H1 H2 H3 H4 H5 H6 H7 H8] Hp.
  rewrite Hp in H6. simpl in H6. unfold pulse_active in H6.
  rewrite existsb_false_iff in H6.
  unfold enterTakeoff, setInterval, add_timer. simpl.
  constructor; simpl.
  - intros t [<-|Ht]; simpl; [lia|]. specialize (H1 t Ht). lia.
  - constructor; auto. intro Hin.
    apply in_map_iff in Hin as (t & E & Ht). specialize (H1 t Ht). lia.
  - intros h Hh. specialize (H3 h Hh). lia.
  - intros t [<-|Ht] Hc; simpl.
    + repeat split; auto. intro E. specialize (H3 _ E). lia.
    + rewrite (H6 t Ht) in Hc. discriminate.
  - intros t [<-|Ht] Hc; [discriminate|].
    destruct (H5 t Ht Hc) as [_ E]. congruence.
  - reflexivity.
  - intros t d [<-|Ht] Hd; [discriminate|]. eauto.
  - auto.
Qed.

Lemma clearInterval_cleared h st :
  timers (clearInterval h st) = cleared h (timers st).
Proof. destruct h; reflexivity. Qed.

Lemma in_cleared h t l :
  In t (cleared h l) <-> In t l /\ h <> Some (handle t).
Proof.
  destruct h as [h|]; simpl.
  - rewrite in_remove_timer. intuition congruence.
  - intuition discriminate.
Qed.

Lemma nodup_cleared h l :
  NoDup (map handle l) -> NoDup (map handle (cleared h l)).
Proof. destruct h; simpl; auto using nodup_remove_timer. Qed.

Lemma leaveLanding_view st :
  view (leaveLanding st) =
  (copterStates st, pulseTimer st, hoverTimer st, flightTimer st,
   cleared (pulseTimer st) (cleared (hoverTimer st) (timers st)),
   nextHandle st, resolved st, nextDeferred st).
Proof.
  unfold view, leaveLanding, clearInterval, setpoint. cbv zeta.
  destruct (hoverTimer st) as [hh|] eqn:Eh; simpl;
    destruct (pulseTimer st) as [hp|] eqn:Ep; simpl;
    rewrite ?Eh, ?Ep; reflexivity.
Qed.

Lemma wf_leaveLanding st :
  wf st -> copterStates st = landing ->
  wf (with_copterStates waiting (leaveLanding st)).
Proof.
  intros [H1 H2 H3 H4 H5 H6 H7 H8] Hp.
  pose proof (leaveLanding_view st) as Hv. unfold view in Hv.
  remember (leaveLanding st) as st' eqn:Est. clear Est.
  injection Hv as E1 E2 E3 E4 E5 E6 E7 E8.
  assert (forall t, In t (timers st') ->
                    In t (timers st) /\ hoverTimer st <> Some (handle t) /\
                    pulseTimer st <> Some (handle t)) as Hin.
  { intros t. rewrite E5, !in_cleared. tauto. }
  constructor; simpl; rewrite ?E1, ?E2, ?E3, ?E4, ?E6, ?E7, ?E8.
  - intros t Ht. apply Hin in Ht as [Ht _]. auto.
  - rewrite E5. auto using nodup_cleared.
  - exact H3.
  - intros t Ht Hc. apply Hin in Ht as (Ht & _ & Hn).
    destruct (H4 t Ht Hc) as [E _]. contradiction.
  - intros t Ht Hc. apply Hin in Ht as (Ht & Hn & _).
    destruct (H5 t Ht Hc) as [E _]. contradiction.
  - unfold pulse_active. simpl. apply existsb_false_iff.
    intros t Ht. apply Hin in Ht as (Ht & _ & Hn).
    destruct (is_pulse t) eqn:Hc; [|reflexivity].
    destruct (H4 t Ht Hc) as [E _]. contradiction.
  - intros t d Ht Hd. apply Hin in Ht as [Ht _]. eauto.
  - exact H8.
Qed.

Lemma wf_fire e st : wf st -> wf (state_of (fire e st)).
Proof.
  intro H. destruct (Phase_eqb (copterStates st) (source e)) eqn:E.
  - apply Phase_eqb_eq in E. rewrite (fire_valid e st E). simpl state_of.
    destruct e; simpl in *;
      try (apply wf_rephase; [exact H | now rewrite E | now rewrite E]).
    + now apply wf_enterTakeoff.
    + apply (wf_view (with_copterStates hovering st)); [reflexivity|].
      apply wf_rephase; [exact H | now rewrite E | now rewrite E].
    + apply (wf_view (with_copterStates hovering st)); [reflexivity|].
      apply wf_rephase; [exact H | now rewrite E | now rewrite E].
    + now apply wf_leaveLanding.
  - apply Phase_eqb_neq in E. now rewrite (fire_invalid e st E).
Qed.

Lemma fire_deferred e st :
  nextDeferred (state_of (fire e st)) = nextDeferred st.
Proof.
  destruct (Phase_eqb (copterStates st) (source e)) eqn:E.
  - apply Phase_eqb_eq in E. rewrite (fire_valid e st E). simpl state_of.
    destruct e; try reflexivity.
    pose proof (leaveLanding_view st) as Hv. unfold view in Hv.
    change (nextDeferred (leaveLanding st) = nextDeferred st).
    remember (leaveLanding st) as st' eqn:Est. clear Est. congruence.
  - apply Phase_eqb_neq in E. now rewrite (fire_invalid e st E).
Qed.

End Preservation.

Section PreservationCalls.

Local Open Scope nat_scope.

Lemma existsb_same {A} (f : A -> bool) l l' :
  (forall x, f x = true -> (In x l <-> In x l')) ->
  existsb f l = existsb f l'.
Proof.
  intro H.
  destruct (existsb f l) eqn:E, (existsb f l') eqn:E'; auto.
  - apply existsb_exists in E as (x & Hx & Hf).
    rewrite existsb_false_iff in E'.
    apply (H x Hf) in Hx. rewrite (E' x Hx) in Hf. discriminate.
  - apply existsb_exists in E' as (x & Hx & Hf).
    rewrite existsb_false_iff in E.
    apply (H x Hf) in Hx. rewrite (E x Hx) in Hf. discriminate.
Qed.

(** Removing a handle that no pulse timer bears. *)
Lemma wf_remove h st :
  wf st ->
  (forall t, In t (timers st) -> handle t = h -> is_pulse t = false) ->
  wf (with_timers (remove_timer h (timers st)) st).
Proof.
  intros [H1 H2 H3 H4 H5 H6 H7 H8] Hn. constructor; simpl; auto.
  - intros t Ht. apply in_remove_timer in Ht as [Ht _]. auto.
  - now apply nodup_remove_timer.
  - intros t Ht. apply in_remove_timer in Ht as [Ht _]. auto.
  - intros t Ht. apply in_remove_timer in Ht as [Ht _]. auto.
  - rewrite <- H6. unfold pulse_active. simpl. apply existsb_same.
    intros t Hc. rewrite in_remove_timer. split; [tauto|].
    intro Ht. split; auto. intro E. rewrite (Hn t Ht E) in Hc. discriminate.
  - intros t d Ht. apply in_remove_timer in Ht as [Ht _]. eauto.
Qed.

(** Starting a timer that runs neither [pulse] nor [landCurve] and
    keeping its handle in [flightTimer]. *)
Lemma wf_add_flight rep cb ms st :
  wf st ->
  is_pulse (mkTimer 0 rep ms cb) = false ->
  is_landCurve (mkTimer 0 rep ms cb) = false ->
  (forall d, deferred_of cb = Some d -> d < nextDeferred st) ->
  wf (with_flightTimer (Some (fst (add_timer rep cb ms st)))
        (snd (add_timer rep cb ms st))).
Proof.
  intros [H1 H2 H3 H4 H5 H6 H7 H8] Hp Hl Hd. unfold add_timer. simpl.
  constructor; simpl.
  - intros t [<-|Ht]; simpl; [lia|]. specialize (H1 t Ht). lia.
  - constructor; auto. intro Hin.
    apply in_map_iff in Hin as (t & E & Ht). specialize (H1 t Ht). lia.
  - intros h [= <-]. lia.
  - intros t [<-|Ht] Hc; [unfold is_pulse in *; simpl in *; congruence|].
    destruct (H4 t Ht Hc) as (E1 & E2 & E3). repeat split; auto.
    intros [= E]. specialize (H1 t Ht). lia.
  - intros t [<-|Ht] Hc; [unfold is_landCurve in *; simpl in *; congruence|].
    auto.
  - rewrite <- H6. unfold pulse_active. simpl.
    unfold is_pulse in Hp |- *. simpl in Hp |- *. now rewrite Hp.
  - intros t d [<-|Ht] E; simpl in *; eauto.
  - auto.
Qed.

(** Starting the landing ramp, in landing with no ramp running. *)
Lemma wf_add_ramp d ms st :
  wf st ->
  copterStates st = landing ->
  (forall t, In t (timers st) -> is_landCurve t = false) ->
  d < nextDeferred st ->
  wf (with_hoverTimer (Some (fst (setInterval (CbLandCurve d) ms st)))
        (snd (setInterval (CbLandCurve d) ms st))).
Proof.
  intros [H1 H2 H3 H4 H5 H6 H7 H8] Hp Hn Hd.
  unfold setInterval, add_timer. simpl.
  constructor; simpl.
  - intros t [<-|Ht]; simpl; [lia|]. specialize (H1 t Ht). lia.
  - constructor; auto. intro Hin.
    apply in_map_iff in Hin as (t & E & Ht). specialize (H1 t Ht). lia.
  - intros h Hh. specialize (H3 h Hh). lia.
  - intros t [<-|Ht] Hc; [discriminate|]. auto.
  - intros t [<-|Ht] Hc; [auto|]. rewrite (Hn t Ht) in Hc. discriminate.
  - exact H6.
  - intros t d' [<-|Ht] E; simpl in *; [congruence|eauto].
  - auto.
Qed.

Lemma wf_takeoff st : wf st -> wf (state_of (takeoff st)).
Proof.
  intro H. unfold takeoff, bind, defer, lift. cbv zeta.
  set (st0 := with_nextDeferred (S (nextDeferred st)) st).
  pose proof (wf_fire Ev.takeoff st0 (wf_defer st H)) as Hf.
  pose proof (fire_deferred Ev.takeoff st0) as Hd.
  destruct (fire Ev.takeoff st0) as [[] st1|e st1]; simpl in *; auto.
  apply (wf_add_flight false (CbStopThrustingUp (nextDeferred st)) 2000 st1);
    auto.
  intros d [= <-]. rewrite Hd. lia.
Qed.

Lemma wf_takeoff1 st : wf st -> wf (state_of (takeoff1 st)).
Proof.
  intro H. unfold takeoff1, bind, defer, lift. cbv zeta.
  set (st0 := with_nextDeferred (S (nextDeferred st)) st).
  pose proof (wf_fire Ev.takeoff st0 (wf_defer st H)) as Hf.
  pose proof (fire_deferred Ev.takeoff st0) as Hd.
  destruct (fire Ev.takeoff st0) as [[] st1|e st1]; simpl in *; auto.
  apply (wf_add_flight true (CbThrustup (nextDeferred st) 37700 0) 250 st1);
    auto.
  intros d [= <-]. rewrite Hd. lia.
Qed.

Lemma wf_land st : wf st -> wf (state_of (land st)).
Proof.
  intro H. unfold land, bind, defer, lift, get. cbv zeta.
  set (st0 := with_nextDeferred (S (nextDeferred st)) st).
  pose proof (wf_defer st H) as H0. fold st0 in H0.
  destruct (Phase_eqb (copterStates st0) (source Ev.land)) eqn:E.
  - apply Phase_eqb_eq in E. rewrite (fire_valid Ev.land st0 E).
    simpl enter. simpl leave. cbv beta.
    set (st1 := with_copterStates landing st0).
    assert (wf st1) as H1.
    { apply wf_rephase; [exact H0 | now rewrite E | now rewrite E]. }
    assert (forall t, In t (timers st1) -> is_landCurve t = false) as Hn.
    { intros t Ht. destruct (is_landCurve t) eqn:Hc; [|reflexivity].
      destruct (wf_ramp st0 H0 t Ht Hc) as [_ El]. rewrite E in El.
      discriminate El. }
    unfold modify.
    set (st2 := match flightTimer st1 with
                | Some h => clearInterval (Some h)
                | None => fun st => st
                end st1).
    assert (wf st2 /\ copterStates st2 = landing /\
            nextDeferred st2 = S (nextDeferred st) /\
            forall t, In t (timers st2) -> is_landCurve t = false)
      as (H2 & Hp2 & Hd2 & Hn2).
    { subst st2. destruct (flightTimer st1) as [f|] eqn:Ef.
      - simpl clearInterval. split; [|split; [|split]]; try reflexivity.
        + apply (wf_remove f st1 H1). intros t Ht Eh.
          destruct (is_pulse t) eqn:Hc; [|reflexivity].
          destruct (wf_pulse st1 H1 t Ht Hc) as (_ & Hne & _).
          congruence.
        + simpl. intros t Ht. apply in_remove_timer in Ht as [Ht _].
          now apply Hn.
      - split; [|split; [|split]]; auto. }
    simpl state_of.
    apply (wf_add_ramp (nextDeferred st) 250 st2); auto.
    rewrite Hd2. lia.
  - apply Phase_eqb_neq in E. rewrite (fire_invalid Ev.land st0 E).
    exact H0.
Qed.

End PreservationCalls.

Section PreservationTimers.

Local Open Scope nat_scope.

Lemma wf_set_callback h d q z st :
  wf st ->
  (forall t, In t (timers st) -> handle t = h -> is_pulse t = false) ->
  d < nextDeferred st ->
  wf (with_timers (set_callback h (CbThrustup d q z) (timers st)) st).
Proof.
  intros [H1 H2 H3 H4 H5 H6 H7 H8] Hn Hd. constructor; simpl; auto.
  - intros t Ht. apply in_set_callback in Ht as [[Ht _]|(t0 & Ht0 & _ & ->)];
      simpl; auto.
  - now rewrite map_handle_set_callback.
  - intros t Ht Hc.
    apply in_set_callback in Ht as [[Ht _]|(t0 & Ht0 & _ & ->)]; auto.
    discriminate Hc.
  - intros t Ht Hc.
    apply in_set_callback in Ht as [[Ht _]|(t0 & Ht0 & _ & ->)]; auto.
    discriminate Hc.
  - rewrite <- H6. unfold pulse_active. simpl. apply existsb_same.
    intros t Hc. split; intro Ht.
    + apply in_set_callback in Ht as [[Ht _]|(t0 & Ht0 & _ & ->)]; auto.
      discriminate Hc.
    + unfold set_callback. apply in_map_iff. exists t. split; auto.
      destruct (handle t =? h) eqn:E; auto.
      apply Nat.eqb_eq in E. rewrite (Hn t Ht E) in Hc. discriminate.
  - intros t d' Ht E.
    apply in_set_callback in Ht as [[Ht _]|(t0 & Ht0 & _ & ->)]; eauto.
    simpl in E. congruence.
Qed.

Lemma thrustup_returns d q z st :
  wf st -> d < nextDeferred st ->
  exists r st',
    thrustup d q z st = Returned r st' /\ wf st' /\
    timers st' = timers st /\ nextDeferred st' = nextDeferred st.
Proof.
  intros H Hd. unfold thrustup. cbv zeta.
  repeat match goal with
         | |- context [if ?c then _ else _] => destruct c
         end;
    unfold bind, modify, ret; simpl;
    eexists; eexists; (split; [reflexivity|]);
    (split; [|split; reflexivity]);
    try exact H;
    try (eapply wf_view; [|exact H]; reflexivity).
  now apply wf_resolve.
Qed.

Lemma wf_landCurve d st :
  wf st -> d < nextDeferred st -> wf (state_of (landCurve d st)).
Proof.
  intros H Hd. unfold landCurve, bind, get, modify. cbv zeta.
  match goal with
  | |- context [setThrust ?v ?s] => set (st1 := setThrust v s)
  end.
  assert (wf st1) as H1 by (eapply wf_view; [|exact H]; reflexivity).
  destruct (Js.strict_eq _ _); [|exact H1].
  pose proof (wf_fire Ev.landed st1 H1) as Hf.
  pose proof (fire_deferred Ev.landed st1) as Hn.
  destruct (fire Ev.landed st1) as [[] st2|e st2]; simpl in *; auto.
  apply wf_resolve; auto. rewrite Hn. exact Hd.
Qed.

Lemma wf_stopThrustingUp d st :
  wf st -> d < nextDeferred st -> wf (state_of (stopThrustingUp d st)).
Proof.
  intros H Hd. unfold stopThrustingUp, bind, modify.
  pose proof (wf_fire Ev.stabilize st H) as Hf.
  pose proof (fire_deferred Ev.stabilize st) as Hn.
  destruct (fire Ev.stabilize st) as [[] st2|e st2]; simpl in *; auto.
  apply wf_resolve; auto. rewrite Hn. exact Hd.
Qed.

Lemma wf_fire_timer h st : wf st -> wf (state_of (fire_timer h st)).
Proof.
  intro H. unfold fire_timer, bind, get.
  destruct (find_timer h (timers st)) as [t|] eqn:Ef; [|exact H].
  apply find_timer_in in Ef as [Ht Eh].
  unfold modify.
  set (st1 := (if repeats t then fun st => st
               else fun st => with_timers (remove_timer h (timers st)) st) st).
  assert (forall t', In t' (timers st) -> handle t' = h -> t' = t) as Huniq.
  { intros t' Ht' E. apply (nodup_handle_inj (timers st)); auto.
    - apply (wf_nodup st H).
    - congruence. }
  assert (wf st1 /\ nextDeferred st1 = nextDeferred st /\
          forall t', In t' (timers st1) -> In t' (timers st))
    as (H1 & Hd1 & Hsub).
  { subst st1. destruct (repeats t) eqn:Er.
    - auto.
    - split; [|split; [reflexivity|]].
      + apply wf_remove; auto. intros t' Ht' E.
        rewrite (Huniq t' Ht' E).
        destruct (is_pulse t) eqn:Hc; [|reflexivity].
        destruct (wf_pulse st H t Ht Hc) as (_ & _ & Hr). congruence.
      + simpl. intros t' Ht'. now apply in_remove_timer in Ht'. }
  assert (forall d, deferred_of (callback t) = Some d -> d < nextDeferred st1)
    as Hcl.
  { intros d E. rewrite Hd1. apply (wf_closure st H t d Ht E). }
  unfold run_callback.
  destruct (callback t) as [|d|d|d q z] eqn:Ec; simpl state_of.
  - simpl. eapply wf_view; [|exact H1]. reflexivity.
  - apply wf_stopThrustingUp; auto.
  - apply wf_landCurve; auto.
  - destruct (thrustup_returns d q z st1 H1 (Hcl d eq_refl))
      as (r & st2 & E & H2 & Et & En).
    unfold bind, modify. rewrite E. simpl.
    apply wf_set_callback; auto.
    + rewrite Et. intros t' Ht' E'.
      rewrite (Huniq t' (Hsub t' Ht') E').
      unfold is_pulse. now rewrite Ec.
    + rewrite En. auto.
Qed.

Lemma wf_step i st : wf st -> wf (step i st).
Proof.
  intro H. unfold step.
  destruct i; simpl handle_input;
    try (unfold modify; simpl state_of;
         eapply wf_view; [|exact H]; reflexivity).
  - (* connect *)
    unfold connect, bind, modify.
    pose proof (wf_fire Ev.connect st H) as Hf.
    destruct (fire Ev.connect st) as [[] st1|e st1]; simpl in *; auto.
    eapply wf_view; [|exact Hf]. reflexivity.
  - (* the callback of driver.connect *)
    unfold bind, get. destruct (connecting st) as [|n]; [exact H|].
    unfold connected_callback, bind, modify.
    match goal with
    | |- context [fire Ev.ready ?s] =>
        assert (wf s) as H1 by (eapply wf_view; [|exact H]; reflexivity);
        pose proof (wf_fire Ev.ready s H1) as Hf;
        destruct (fire Ev.ready s) as [[] st1|e st1]
    end; exact Hf.
  - (* takeoff *)
    unfold bind. pose proof (wf_takeoff st H) as Hf.
    destruct (takeoff st); exact Hf.
  - unfold bind. pose proof (wf_takeoff1 st H) as Hf.
    destruct (takeoff1 st); exact Hf.
  - unfold bind. pose proof (wf_land st H) as Hf.
    destruct (land st); exact Hf.
  - (* hover *)
    unfold hover, bind. pose proof (wf_fire Ev.stabilize st H) as Hf.
    destruct (fire Ev.stabilize st) as [[] st1|e st1]; exact Hf.
  - now apply wf_fire.
  - (* telemetry *)
    eapply wf_view; [|exact H].
    unfold modify, handleStabilizerTelemetry. cbv zeta. simpl.
    destruct (copterStates st); reflexivity.
  - eapply wf_view; [|exact H].
    unfold modify, handleMotorTelemetry. cbv zeta. simpl.
    destruct (copterStates st); reflexivity.
  - eapply wf_view; [|exact H].
    unfold modify, handleAccTelemetry. cbv zeta. simpl.
    destruct (copterStates st); try reflexivity;
      destruct (negb _); reflexivity.
  - now apply wf_fire_timer.
Qed.

Theorem reachable_wf st : reachable st -> wf st.
Proof.
  induction 1 as [|i st _ IH]; [exact wf_new | now apply wf_step].
Qed.

Lemma reachable_run inputs : forall st,
  reachable st -> reachable (run inputs st).
Proof.
  induction inputs as [|i inputs IH]; intros st H; simpl; auto.
  apply IH. now constructor.
Qed.

End PreservationTimers.

(** ** The pulse timer *)

Section PulseTimer.

(** C3 as the specification words it fails: after a connect, a takeoff, a hover
    and a land the phase is landing and the pulse timer started by
    [enterTakeoff] is still running; [leaveLanding] is what stops it. *)
Lemma pulse_runs_while_landing :
  reachable (run flight_to_landing new_Copter) /\
  copterStates (run flight_to_landing new_Copter) = landing /\
  pulse_active (run flight_to_landing new_Copter) = true /\
  ~ pulse_only_airborne (run flight_to_landing new_Copter).
Proof.
  split; [apply reachable_run; constructor|].
  split; [reflexivity|]. split; [reflexivity|].
  intros [H _]. specialize (H eq_refl).
  vm_compute in H. destruct H as [H|[H|H]]; discriminate H.
Qed.

(** C3, as amended.  In every reachable state the pulse timer is active
    if and only if the phase is taking-off, hovering, moving or landing;
    so it is not active in setup, connected and waiting. *)
Theorem pulse_active_iff_flying (st : Copter) :
  reachable st ->
  (pulse_active st = true <->
     (copterStates st = taking_off \/ copterStates st = hovering \/
      copterStates st = moving \/ copterStates st = landing)) /\
  (copterStates st = setup \/ copterStates st = connected \/
   copterStates st = waiting -> pulse_active st = false).
Proof.
  intro H. apply reachable_wf in H. rewrite (wf_active st H).
  destruct (copterStates st); simpl; split;
    try (split; [discriminate|]); intuition congruence.
Qed.

Lemma pulse_active_iff_flying_witness :
  pulse_active (run flight_to_landing new_Copter) = true /\
  pulse_active (run [CallConnect; DriverConnected] new_Copter) = false.
Proof.
  split.
  - apply (proj1 (pulse_active_iff_flying (run flight_to_landing new_Copter)
                    (reachable_run flight_to_landing new_Copter reachable_new))).
    right. right. right. reflexivity.
  - apply (proj2 (pulse_active_iff_flying
                    (run [CallConnect; DriverConnected] new_Copter)
                    (reachable_run [CallConnect; DriverConnected] new_Copter
                                   reachable_new))).
    right. right. reflexivity.
Defined.

End PulseTimer.

(** ** Leaving the landing phase *)

Section LeaveLanding.

Local Open Scope Q_scope.

Lemma leaveLanding_timers st :
  timers (leaveLanding st) =
  cleared (pulseTimer st) (cleared (hoverTimer st) (timers st)).
Proof.
  pose proof (leaveLanding_view st) as Hv. unfold view in Hv.
  remember (leaveLanding st) as st' eqn:Est. clear Est. congruence.
Qed.

(** What [leaveLanding] does to the state. *)
Lemma leaveLanding_effect (st : Copter) :
  timers (leaveLanding st) =
    cleared (pulseTimer st) (cleared (hoverTimer st) (timers st)) /\
  (exists sp, zero_setpoint sp /\
              currentSetpoint (leaveLanding st) = Some sp /\
              sent (leaveLanding st) = sp :: sent st) /\
  leaveLanding st =
    with_sent (sent (leaveLanding st))
      (with_currentSetpoint (currentSetpoint (leaveLanding st))
         (with_timers (timers (leaveLanding st)) st)).
Proof.
  split; [apply leaveLanding_timers|].
  split.
  - unfold leaveLanding, setpoint, clearInterval. cbv zeta.
    destruct (hoverTimer st) eqn:Eh; simpl;
      destruct (pulseTimer st) eqn:Ep; simpl;
      (eexists; split; [|split; reflexivity]);
      destruct (xmode st); repeat split.
  - unfold leaveLanding, setpoint, clearInterval. cbv zeta.
    destruct (hoverTimer st) eqn:Eh; simpl;
      destruct (pulseTimer st) eqn:Ep; reflexivity.
Qed.

(** C9.  The leave-hook of landing stops the timers [hoverTimer] and
    [pulseTimer] name, and sends one setpoint, zero on its four axes,
    through [setpoint]; apart from the timers of the event loop,
    [currentSetpoint] and the driver's log nothing changes.  It runs on
    every transition out of landing, and in a reachable state no pulse
    timer and no landing ramp is left afterwards. *)
Theorem leaveLanding_stops_and_zeroes (st : Copter) :
  let st' := leaveLanding st in
  timers st' = cleared (pulseTimer st) (cleared (hoverTimer st) (timers st)) /\
  (exists sp, zero_setpoint sp /\
              currentSetpoint st' = Some sp /\ sent st' = sp :: sent st) /\
  st' = with_sent (sent st')
          (with_currentSetpoint (currentSetpoint st')
             (with_timers (timers st') st)) /\
  (forall e, source e = landing -> copterStates st = landing ->
     fire e st = Returned tt (with_copterStates (destination e) st')) /\
  (reachable st -> copterStates st = landing ->
     pulse_active st' = false /\ ramp_active st' = false).
Proof.
  intro st'. subst st'.
  destruct (leaveLanding_effect st) as (H1 & H2 & H3).
  split; [exact H1|]. split; [exact H2|]. split; [exact H3|].
  split.
  { intros e He Hp. rewrite fire_valid by congruence.
    rewrite He. destruct e; try discriminate He. reflexivity. }
  intros Hr Hp. apply reachable_wf in Hr.
  pose proof (wf_leaveLanding st Hr Hp) as Hw. split.
  - apply (wf_active _ Hw).
  - unfold ramp_active. apply existsb_false_iff. intros t Ht.
    destruct (is_landCurve t) eqn:Hc; [|reflexivity].
    destruct (wf_ramp _ Hw t Ht Hc) as [_ E]. discriminate E.
Qed.

Lemma leaveLanding_stops_and_zeroes_witness :
  fire Ev.landed (run flight_to_landing new_Copter) =
    Returned tt (with_copterStates waiting
                   (leaveLanding (run flight_to_landing new_Copter))) /\
  pulse_active (leaveLanding (run flight_to_landing new_Copter)) = false /\
  ramp_active (leaveLanding (run flight_to_landing new_Copter)) = false.
Proof.
  destruct (leaveLanding_stops_and_zeroes (run flight_to_landing new_Copter))
    as (_ & _ & _ & Hf & Ha).
  split.
  - apply (Hf Ev.landed); reflexivity.
  - apply Ha; [|reflexivity].
    apply reachable_run. constructor.
Defined.

End LeaveLanding.

(** ** Deferreds *)

Section Deferreds.

Local Open Scope nat_scope.

Lemma filter_none {A} (f : A -> bool) l :
  (forall x, In x l -> f x = false) -> filter f l = [].
Proof.
  induction l as [|a l IH]; simpl; intro H; [reflexivity|].
  rewrite (H a (or_introl eq_refl)). apply IH. auto.
Qed.

(** The first call of [resolve] on a deferred not resolved before. *)
Lemma resolutions_first d v l st :
  resolved st = (d, v) :: l ->
  (forall r, In r l -> fst r <> d) ->
  resolutions d st = [v].
Proof.
  intros E Hl. unfold resolutions. rewrite E. simpl rev.
  rewrite filter_app, map_app. simpl. rewrite Nat.eqb_refl. simpl.
  rewrite filter_none; [reflexivity|].
  intros r Hr. apply in_rev in Hr. apply Nat.eqb_neq. now apply Hl.
Qed.

(** Once [clearInterval] was given its handle, a timer fires no more. *)
Lemma find_timer_cleared h p l :
  find_timer h (cleared p (cleared (Some h) l)) = None.
Proof.
  destruct (find_timer h (cleared p (cleared (Some h) l))) as [t|] eqn:E;
    [|reflexivity].
  apply find_timer_in in E as [Hin Eh].
  apply in_cleared in Hin as [Hin _]. apply in_cleared in Hin as [_ Hn].
  congruence.
Qed.

End Deferreds.

(** ** Taking off *)

Section Takeoff.

Local Open Scope nat_scope.

Lemma eqb_succ_l n : (S n =? n) = false.
Proof. apply Nat.eqb_neq. lia. Qed.

(** [takeoff] from waiting, in full. *)
Lemma takeoff_from_waiting st :
  copterStates st = waiting ->
  takeoff st =
  Returned (nextDeferred st)
    (with_flightTimer (Some (S (nextHandle st)))
       (with_nextHandle (S (S (nextHandle st)))
          (with_timers
             (mkTimer (S (nextHandle st)) false 2000
                      (CbStopThrustingUp (nextDeferred st))
              :: mkTimer (nextHandle st) true 100 CbPulse :: timers st)
             (with_pulseTimer (Some (nextHandle st))
                (with_goal
                   (with_g_thrust (Fin 35000) (with_g_z (Fin 1.5) (goal st)))
                   (with_copterStates taking_off
                      (with_nextDeferred (S (nextDeferred st)) st))))))).
Proof.
  intro H. unfold takeoff, bind, defer, lift. cbv zeta.
  rewrite fire_valid by exact H. reflexivity.
Qed.

(** The function of the takeoff timeout, run in taking-off. *)
Lemma stopThrustingUp_taking_off d st :
  copterStates st = taking_off ->
  stopThrustingUp d st =
  Returned tt
    (resolve d "OK" (enterHovering (with_copterStates hovering st))).
Proof.
  intro H. unfold stopThrustingUp, bind, modify.
  rewrite fire_valid by exact H. reflexivity.
Qed.

(** C6.  [takeoff] called in waiting moves the machine to taking-off at
    once, with [goal.z] 1.5 and [goal.thrust] 35000, and arms a timeout
    of 2000 ms.  Whatever ambient inputs arrive in between, when that
    timeout fires the machine moves to hovering, [goal.z] becomes 1.0
    and the promise [takeoff] returned is resolved with 'OK'. *)
Theorem takeoff_then_hovering (st : Copter) (inputs : list Input) :
  copterStates st = waiting ->
  Forall (fun i => ambient (Some (nextHandle st)) i = true) inputs ->
  let d := nextDeferred st in
  let h := S (nextHandle st) in
  let st1 := state_of (takeoff st) in
  let st2 := run inputs st1 in
  let st3 := step (TimerFires h) st2 in
  (takeoff st = Returned d st1 /\
   copterStates st1 = taking_off /\
   g_z (goal st1) = Fin 1.5 /\
   g_thrust (goal st1) = Fin 35000 /\
   find_timer h (timers st1) = Some (mkTimer h false 2000 (CbStopThrustingUp d)) /\
   resolved st1 = resolved st) /\
  (copterStates st2 = taking_off /\ resolved st2 = resolved st) /\
  (threw (fire_timer h st2) = None /\
   copterStates st3 = hovering /\
   g_z (goal st3) = Fin 1.0 /\
   resolved st3 = (d, "OK"%string) :: resolved st /\
   (reachable st ->
      resolutions d st3 = ["OK"%string] /\ settled d st3 = Some "OK"%string)).
Proof.
  intros Hp Hall d h st1 st2 st3.
  pose proof (takeoff_from_waiting st Hp) as Ht.
  assert (find_timer h (timers st1) =
          Some (mkTimer h false 2000 (CbStopThrustingUp d))) as Hfind.
  { subst st1 h. rewrite Ht. unfold find_timer. cbn -[Nat.eqb].
    now rewrite Nat.eqb_refl. }
  assert (find_timer (nextHandle st) (timers st1) =
          Some (mkTimer (nextHandle st) true 100 CbPulse)) as Hpulse.
  { subst st1. rewrite Ht. unfold find_timer. cbn -[Nat.eqb].
    now rewrite eqb_succ_l, Nat.eqb_refl. }
  assert (steady st1 st2) as Hs.
  { subst st2. eapply steady_run; eauto. }
  destruct Hs as [Hs1 Hs2 Hs3 Hs4 Hs5].
  assert (copterStates st1 = taking_off) as Hp1 by (subst st1; now rewrite Ht).
  assert (resolved st1 = resolved st) as Hr1 by (subst st1; now rewrite Ht).
  split.
  { subst st1. rewrite Ht. repeat split. rewrite Ht in Hfind. exact Hfind. }
  split.
  { split; congruence. }
  assert (fire_timer h st2 =
          Returned tt
            (resolve d "OK"
               (enterHovering
                  (with_copterStates hovering
                     (with_timers (remove_timer h (timers st2)) st2))))) as Hfire.
  { rewrite <- Hs2 in Hfind.
    unfold fire_timer, bind, get. rewrite Hfind. simpl repeats.
    unfold modify. simpl run_callback.
    rewrite stopThrustingUp_taking_off; [reflexivity|].
    simpl. congruence. }
  assert (resolved st3 = (d, "OK"%string) :: resolved st) as Hr3.
  { subst st3. unfold step. simpl handle_input. rewrite Hfire. simpl.
    congruence. }
  split; [now rewrite Hfire|].
  split; [subst st3; unfold step; simpl handle_input; now rewrite Hfire|].
  split; [subst st3; unfold step; simpl handle_input; now rewrite Hfire|].
  split; [exact Hr3|].
  intro Hreach. apply reachable_wf in Hreach.
  assert (resolutions d st3 = ["OK"%string]) as Hres.
  { apply (resolutions_first d "OK"%string (resolved st) st3 Hr3).
    intros r Hr. pose proof (wf_resolved st Hreach r Hr). subst d. lia. }
  split; [exact Hres|]. unfold settled. now rewrite Hres.
Qed.

End Takeoff.

Section TakeoffWitness.

Lemma takeoff_then_hovering_witness :
  let inputs := [OnAcc (mkAcc (Fin 0) (Fin 0) (Fin 0.5)); SetRoll (Fin 3);
                 TimerFires 1%nat] in
  let st3 := step (TimerFires 2%nat) (run inputs (state_of (takeoff on_the_ground))) in
  copterStates (state_of (takeoff on_the_ground)) = taking_off /\
  g_z (goal (state_of (takeoff on_the_ground))) = Fin 1.5 /\
  copterStates st3 = hovering /\
  g_z (goal st3) = Fin 1.0 /\
  settled 0%nat st3 = Some "OK"%string.
Proof.
  intros inputs st3.
  assert (copterStates on_the_ground = waiting) as Hp by reflexivity.
  assert (Forall (fun i => ambient (Some (nextHandle on_the_ground)) i = true)
                 inputs) as Hall
    by (repeat constructor).
  destruct (takeoff_then_hovering on_the_ground inputs Hp Hall)
    as ((_ & H1 & H2 & _) & _ & (_ & H3 & H4 & _ & H5)).
  split; [exact H1|]. split; [exact H2|].
  split; [exact H3|]. split; [exact H4|].
  apply H5. apply (reachable_run [CallConnect; DriverConnected]).
  constructor.
Defined.

End TakeoffWitness.

(** ** The accelerometer handler and the thrust getter *)

Section AccGetter.

Local Open Scope Q_scope.

(** C4 as the specification words it fails: with the goal at z 1.5 and thrust
    35000 and a current thrust of 0, the sample z 0.5 raises the goal
    thrust to 36250, but the thrust getter still returns 0. *)
Lemma acc_getter_not_mirrored :
  ~ acc_mirrors_into_getter (mkAcc (Fin 0) (Fin 0) (Fin 0.5))
                            (run climb_start new_Copter).
Proof.
  intro H.
  destruct (H 0.5 1.5 35000 eq_refl eq_refl eq_refl eq_refl eq_refl)
    as (_ & t & Ht & Heq).
  vm_compute in Ht. injection Ht as <-.
  vm_compute in Heq. discriminate Heq.
Qed.

Lemma acc_adjusts_goal_thrust_witness :
  let st := run climb_start new_Copter in
  let st' := handleAccTelemetry (mkAcc (Fin 0) (Fin 0) (Fin 0.5)) st in
  g_thrust (goal st') = Fin (35000 + 1250 * (1.5 - 0.5)) /\
  nextSetpoint st' =
    nextSetpoint (setThrust (VNum (Fin (35000 + 1250 * (1.5 - 0.5)))) st) /\
  getThrust st' = getThrust st.
Proof.
  intros st st'.
  destruct (acc_adjusts_goal_thrust (mkAcc (Fin 0) (Fin 0) (Fin 0.5)) st
              0.5 1.5 35000 eq_refl eq_refl eq_refl eq_refl)
    as (H1 & _ & H3).
  destruct (H1 eq_refl) as [Ha Hb].
  split; [exact Ha|]. split; [exact Hb|exact H3].
Defined.

(** The scenario of the specification: the goal thrust goes up by
    1250, and what is staged for the next pulse is 36250. *)
Example acc_sample_scenario :
  let st := run climb_start new_Copter in
  let st' := handleAccTelemetry (mkAcc (Fin 0) (Fin 0) (Fin 0.5)) st in
  g_thrust (goal st) = Fin 35000 /\
  g_thrust (goal st') ≡ Fin (35000 + 1250) /\
  sp_thrust (nextSetpoint st') = Fin 36250 /\
  getThrust st' = VNum (Fin 0).
Proof. vm_compute. repeat split. Qed.

End AccGetter.

(** ** Landing *)

Section Landing.

Local Open Scope Q_scope.

(** [land] from hovering, up to the two timer operations. *)
Lemma land_from_hovering st :
  copterStates st = hovering ->
  land st =
  Returned (nextDeferred st)
    (let st1 := with_copterStates landing
                  (with_nextDeferred (S (nextDeferred st)) st) in
     let st2 := match flightTimer st with
                | Some h => clearInterval (Some h) st1
                | None => st1
                end in
     with_hoverTimer (Some (nextHandle st))
       (snd (setInterval (CbLandCurve (nextDeferred st)) 250 st2))).
Proof.
  intro H. unfold land, bind, defer, lift, get, modify. cbv zeta.
  rewrite fire_valid by exact H. simpl.
  destruct (flightTimer st); reflexivity.
Qed.

(** One run of [landCurve], from a finite current thrust. *)
Lemma landCurve_Fin d T st :
  getThrust st = VNum (Fin T) ->
  landCurve d st =
  let thrust := if Qle_bool (T - 1000) 10001 then 10001 else T - 1000 in
  let st1 := setThrust (VNum (Fin thrust))
               (with_goal (with_g_thrust (Fin thrust) (goal st)) st) in
  if Qeq_bool thrust 10001 then
    (fire Ev.landed ;;
     st <- get ;;
     modify (resolve d (name (copterStates st))))%js st1
  else Returned tt st1.
Proof.
  intro H. unfold landCurve, bind at 1, get at 1. cbv zeta. rewrite H.
  simpl Js.to_number. simpl Js.sub. simpl Js.le. unfold MIN_THRUST.
  destruct (Qle_bool (T - 1000) 10001); [reflexivity|].
  unfold bind, modify, Js.strict_eq.
  destruct (Qeq_bool (T - 1000) 10001); reflexivity.
Qed.

(** C5, as amended.  [land] called in hovering moves the machine to
    landing and starts an interval of 250 ms that runs [landCurve].
    Each tick takes the current thrust less 1000, floored at 10001,
    writes it into [goal.thrust] and stages it through the thrust
    setter into [nextSetpoint.thrust]; it does not write the current
    thrust, which follows at the next pulse tick.  The tick on which the
    value is 10001 fires [landed], so that the phase is waiting and the
    timers are stopped, and calls [resolve] once, with 'waiting'; the
    ramp timer being stopped, no tick follows. *)
Theorem landing_ramp (st : Copter) (d : nat) (T : Q) :
  (copterStates st = hovering ->
     let st1 := state_of (land st) in
     land st = Returned (nextDeferred st) st1 /\
     copterStates st1 = landing /\
     hoverTimer st1 = Some (nextHandle st) /\
     find_timer (nextHandle st) (timers st1) =
       Some (mkTimer (nextHandle st) true 250 (CbLandCurve (nextDeferred st))) /\
     resolved st1 = resolved st /\
     goal st1 = goal st /\
     currentSetpoint st1 = currentSetpoint st /\
     nextSetpoint st1 = nextSetpoint st) /\
  (forall h, find_timer h (timers st) = Some (mkTimer h true 250 (CbLandCurve d)) ->
     fire_timer h st = landCurve d st) /\
  (getThrust st = VNum (Fin T) -> 10001 < T - 1000 ->
     let st' := state_of (landCurve d st) in
     threw (landCurve d st) = None /\
     g_thrust (goal st') = Fin (T - 1000) /\
     st' = setThrust (VNum (Fin (T - 1000)))
             (with_goal (with_g_thrust (Fin (T - 1000)) (goal st)) st) /\
     getThrust st' = VNum (Fin T) /\
     copterStates st' = copterStates st /\
     resolved st' = resolved st) /\
  (copterStates st = landing -> getThrust st = VNum (Fin T) ->
   T - 1000 <= 10001 ->
     let st' := state_of (landCurve d st) in
     threw (landCurve d st) = None /\
     g_thrust (goal st') = Fin 10001 /\
     sp_thrust (nextSetpoint st') = Fin 10001 /\
     copterStates st' = waiting /\
     resolved st' = (d, "waiting"%string) :: resolved st /\
     timers st' = cleared (pulseTimer st) (cleared (hoverTimer st) (timers st)) /\
     (exists sp, zero_setpoint sp /\ currentSetpoint st' = Some sp) /\
     ((forall r, In r (resolved st) -> fst r <> d) ->
        resolutions d st' = ["waiting"%string]) /\
     (forall h, hoverTimer st = Some h -> fire_timer h st' = Returned tt st')).
Proof.
  split.
  { intros Hp st1. subst st1. rewrite (land_from_hovering st Hp). cbv zeta.
    unfold setInterval, add_timer, find_timer.
    destruct (flightTimer st) as [f|] eqn:Ef; cbn -[Nat.eqb];
      rewrite Nat.eqb_refl; repeat split. }
  split.
  { intros h Hf. unfold fire_timer, bind, get. rewrite Hf. reflexivity. }
  split.
  { intros Hg Hlt st'. subst st'. rewrite (landCurve_Fin d T st Hg). cbv zeta.
    assert (Qle_bool (T - 1000) 10001 = false) as ->
      by (apply Qle_bool_false_iff; exact Hlt).
    assert (Qeq_bool (T - 1000) 10001 = false) as ->.
    { apply Qeq_bool_false_iff. intro E. rewrite E in Hlt.
      discriminate Hlt. }
    simpl. repeat split.
    unfold getThrust, current_field in *. simpl. exact Hg. }
  intros Hp Hg Hle st'. subst st'. rewrite (landCurve_Fin d T st Hg). cbv zeta.
  assert (Qle_bool (T - 1000) 10001 = true) as ->
    by (apply Qle_bool_iff; exact Hle).
  change (Qeq_bool 10001 10001) with true. cbv iota.
  set (st1 := setThrust (VNum (Fin 10001))
                (with_goal (with_g_thrust (Fin 10001) (goal st)) st)).
  unfold bind, get, modify.
  rewrite (fire_valid Ev.landed st1 Hp). simpl source. simpl destination.
  simpl leave. simpl enter. unfold enterWaiting. simpl state_of. simpl threw.
  pose proof (leaveLanding_effect st1) as (Ht & (sp & Hz & Hc & _) & Hfr).
  remember (leaveLanding st1) as st2 eqn:E2.
  split; [reflexivity|].
  assert (resolved (resolve d (name waiting) (with_copterStates waiting st2)) =
          (d, "waiting"%string) :: resolved st) as Hres
    by (rewrite Hfr; reflexivity).
  assert (timers (resolve d (name waiting) (with_copterStates waiting st2)) =
          cleared (pulseTimer st) (cleared (hoverTimer st) (timers st))) as Htm
    by exact Ht.
  split; [rewrite Hfr; reflexivity|].
  split; [rewrite Hfr; reflexivity|].
  split; [reflexivity|].
  split; [exact Hres|].
  split; [exact Htm|].
  split; [exists sp; split; [exact Hz|exact Hc]|].
  split.
  - intro Hnew. now apply (resolutions_first d "waiting"%string (resolved st)).
  - intros h Hh. unfold fire_timer, bind, get.
    change (timers (resolve d "waiting"%string (with_copterStates waiting st2)))
      with (timers st2).
    change (timers st2 =
            cleared (pulseTimer st) (cleared (hoverTimer st) (timers st))) in Htm.
    rewrite Htm, Hh.
    now rewrite find_timer_cleared.
Qed.

End Landing.

Section LandingScenario.

Local Open Scope Q_scope.

(** C5 as the specification words it fails: on the first tick of a landing
    from a current thrust of 37700 the goal thrust becomes 36700, but
    the current thrust, which the getter reads, is still 37700. *)
Lemma ramp_tick_not_mirrored :
  ~ ramp_tick_mirrors 1 (run descent_start new_Copter).
Proof.
  intro H. destruct (H 37700 eq_refl eq_refl) as (_ & (t & Ht & Heq) & _).
  vm_compute in Ht. injection Ht as <-.
  vm_compute in Heq. discriminate Heq.
Qed.

Lemma landing_ramp_witness :
  let st := run descent_start new_Copter in
  fire_timer 3 st = landCurve 1 st /\
  g_thrust (goal (state_of (landCurve 1 st))) = Fin (37700 - 1000) /\
  getThrust (state_of (landCurve 1 st)) = VNum (Fin 37700) /\
  let st27 := descend 27 3 1 st in
  copterStates (state_of (landCurve 1 st27)) = waiting /\
  resolved (state_of (landCurve 1 st27)) = [(1%nat, "waiting"%string)] /\
  copterStates (state_of (land (run [CallConnect; DriverConnected; CallTakeoff;
                                     CallHover] new_Copter))) = landing.
Proof.
  intro st.
  destruct (landing_ramp st 1 37700) as (_ & Htick & Habove & _).
  split; [apply Htick; reflexivity|].
  destruct (Habove eq_refl eq_refl) as (_ & Hg & _ & Hc & _).
  split; [exact Hg|]. split; [exact Hc|].
  intro st27.
  destruct (landing_ramp st27 1 10700) as (_ & _ & _ & Hfloor).
  destruct Hfloor as (_ & _ & _ & Hw & Hr & _);
    [reflexivity | reflexivity | discriminate |].
  split; [exact Hw|]. split; [exact Hr|].
  destruct (landing_ramp
              (run [CallConnect; DriverConnected; CallTakeoff; CallHover]
                   new_Copter) 0 0) as (Hland & _).
  destruct (Hland eq_refl) as (_ & Hp & _). exact Hp.
Defined.

(** The scenario of the specification: from a current thrust of 37700
    the goal thrust steps down by 1000 on each of 27 ticks and is
    floored on the 28th, which lands: the phase is waiting, both timers
    are stopped and [land]'s promise was resolved once, with
    'waiting'. *)
Example landing_from_37700 :
  let st := run descent_start new_Copter in
  let final := descend 28 3 1 st in
  copterStates st = landing /\
  getThrust st = VNum (Fin 37700) /\
  thrusts 28 3 1 st =
    map (fun k : Z => Fin (inject_Z (37700 - 1000 * k)))
        [1; 2; 3; 4; 5; 6; 7; 8; 9; 10; 11; 12; 13; 14; 15; 16; 17; 18; 19;
         20; 21; 22; 23; 24; 25; 26; 27]%Z ++ [Fin 10001] /\
  copterStates (descend 27 3 1 st) = landing /\
  copterStates final = waiting /\
  timers final = [] /\
  resolutions 1 final = ["waiting"%string] /\
  settled 1 final = Some "waiting"%string /\
  step (TimerFires 3) final = final.
Proof. vm_compute. repeat split. Qed.

End LandingScenario.

(** ** The thrust setter at NaN *)

Section ThrustNaN.

Local Open Scope Q_scope.

(** C7.  The thrust setter at [NaN].  [NaN] passes [_.isNumber] and is
    neither below 10001 nor above 60000, so none of the three tests
    catches it and the setter stages [Math.round(NaN)], which is [NaN]:
    not 10001, and no number of the range.  It is the only input to get
    through: whatever else the setter is given, it stages an integer
    from 10001 to 60000.  The frame and the getter are as for any other
    input.  And the setter does receive [NaN] from the code itself: in
    the reachable state [flight_to_landing], where no setpoint has been
    sent and the thrust getter returns [undefined], the first tick of
    the landing ramp (timer 3) hands [undefined - 1000] to the setter,
    and the next pulse (timer 1) sends the staged [NaN] to the driver. *)
Theorem setThrust_passes_NaN :
  (forall st : Copter,
     let st' := setThrust (VNum NaN) st in
     Js.isNumber (VNum NaN) = true /\
     Js.lt NaN (Fin 10001) = false /\
     Js.gt NaN (Fin 60000) = false /\
     sp_thrust (nextSetpoint st') = NaN /\
     sp_thrust (nextSetpoint st') <> Fin 10001 /\
     currentSetpoint st' = currentSetpoint st /\
     goal st' = goal st /\
     sp_thrust (nextSetpoint (pulse st')) = NaN /\
     getThrust (pulse st') = VNum NaN) /\
  (forall (t : Js.value) (st : Copter),
     t = VNum NaN \/
     exists m : Z,
       sp_thrust (nextSetpoint (setThrust t st)) = Fin (inject_Z m) /\
       (10001 <= m <= 60000)%Z) /\
  (let st := run flight_to_landing new_Copter in
   reachable st /\
   copterStates st = landing /\
   getThrust st = VUndefined /\
   Js.sub (Js.to_number (getThrust st)) (Fin 1000) = NaN /\
   step (TimerFires 3) st =
     setThrust (VNum NaN) (with_goal (with_g_thrust NaN (goal st)) st) /\
   hd_error (sent (step (TimerFires 1) (step (TimerFires 3) st))) =
     Some (mkSetpoint (Fin 0) (Fin 0) (Fin 0) NaN)).
Proof.
  split; [|split].
  - intros st st'. subst st'. repeat split. discriminate.
  - intros t st.
    destruct t as [[q|]| |s]; [right|left; reflexivity|right|right];
      apply setThrust_range; discriminate.
  - cbv zeta. split.
    { apply reachable_run, reachable_new. }
    split; [vm_compute; reflexivity|].
    split; [vm_compute; reflexivity|].
    split; [vm_compute; reflexivity|].
    split; vm_compute; reflexivity.
Qed.

End ThrustNaN.

(** * Further properties *)

(** ** Accessors and the pulse *)

Section Accessors.

Local Open Scope Q_scope.

(** [Math.round] leaves an integer as it is. *)
Lemma round_Z (n : Z) : Js.round (Fin (inject_Z n)) = Fin (inject_Z n).
Proof.
  destruct (round_nearest (inject_Z n)) as (m & Hm & Hlo & Hhi).
  rewrite Hm. f_equal. f_equal.
  assert (inject_Z m < inject_Z (n + 1)) as H1
    by (rewrite inject_Z_plus; change (inject_Z 1) with 1; lra).
  assert (inject_Z n < inject_Z (m + 1)) as H2
    by (rewrite inject_Z_plus; change (inject_Z 1) with 1; lra).
  rewrite <- Zlt_Qlt in H1, H2. lia.
Qed.

(** X1.  What is staged reaches the getters and the driver with the next
    pulse and not before: with X-mode off, after the four setters the
    getters and the driver's log are as they were, and after a pulse the
    getters return the staged roll, pitch and yaw and the clamped thrust,
    which is also what the driver was sent.  A second pulse sends the
    same setpoint again. *)
Theorem staged_setpoint_round_trip (r p y : Js.num) (t : Js.value) (st : Copter) :
  xmode st = false ->
  let st1 := setThrust t (setYaw y (setPitch p (setRoll r st))) in
  let st2 := pulse st1 in
  (currentSetpoint st1 = currentSetpoint st /\ sent st1 = sent st) /\
  (getRoll st2 = VNum r /\ getPitch st2 = VNum p /\ getYaw st2 = VNum y /\
   getThrust st2 = VNum (sp_thrust (nextSetpoint (setThrust t st)))) /\
  sent st2 =
    mkSetpoint r p y (sp_thrust (nextSetpoint (setThrust t st))) :: sent st /\
  (currentSetpoint (pulse st2) = currentSetpoint st2 /\
   sent (pulse st2) =
     mkSetpoint r p y (sp_thrust (nextSetpoint (setThrust t st))) :: sent st2).
Proof.
  intros Hx st1 st2. subst st2 st1.
  unfold pulse, setpoint, getRoll, getPitch, getYaw, getThrust, current_field.
  simpl. rewrite Hx. simpl. repeat split.
Qed.

Lemma staged_setpoint_round_trip_witness :
  let st2 := pulse (setThrust (VNum (Fin 70000))
                      (setYaw (Fin 3) (setPitch (Fin 2) (setRoll (Fin 1) new_Copter)))) in
  getRoll st2 = VNum (Fin 1) /\ getPitch st2 = VNum (Fin 2) /\
  getYaw st2 = VNum (Fin 3) /\ getThrust st2 = VNum (Fin 60000).
Proof.
  destruct (staged_setpoint_round_trip (Fin 1) (Fin 2) (Fin 3)
              (VNum (Fin 70000)) new_Copter eq_refl)
    as (_ & (H1 & H2 & H3 & H4) & _).
  split; [exact H1|]. split; [exact H2|]. split; [exact H3|exact H4].
Defined.

(** X2.  The thrust setter clamps whatever it is given, [NaN] apart: the
    staged thrust is an integer from 10001 to 60000; and it is
    idempotent: handing the staged thrust back to the setter changes
    nothing. *)
Theorem setThrust_clamp_idempotent (v : Js.value) (st : Copter) :
  v <> VNum NaN ->
  exists m : Z,
    sp_thrust (nextSetpoint (setThrust v st)) = Fin (inject_Z m) /\
    (10001 <= m <= 60000)%Z /\
    setThrust (VNum (Fin (inject_Z m))) (setThrust v st) = setThrust v st.
Proof.
  intro Hv. destruct (setThrust_range v st Hv) as (m & Hm & Hr).
  exists m. split; [exact Hm|]. split; [exact Hr|].
  assert (sp_thrust (nextSetpoint (setThrust (VNum (Fin (inject_Z m)))
                                             (setThrust v st))) =
          Fin (inject_Z m)) as Hs.
  { rewrite setThrust_Fin.
    assert (Js.Qlt_bool (inject_Z m) 10001 = false) as ->.
    { apply Qlt_bool_false_iff. change 10001 with (inject_Z 10001).
      rewrite <- Zle_Qle. lia. }
    assert (Js.Qlt_bool 60000 (inject_Z m) = false) as ->.
    { apply Qlt_bool_false_iff. change 60000 with (inject_Z 60000).
      rewrite <- Zle_Qle. lia. }
    apply round_Z. }
  rewrite (setThrust_frame (VNum (Fin (inject_Z m))) (setThrust v st)), Hs.
  rewrite (setThrust_frame v st) at 3. rewrite Hm. reflexivity.
Qed.

Lemma setThrust_clamp_idempotent_witness :
  exists m : Z,
    sp_thrust (nextSetpoint (setThrust (VNum (Fin 123456.7)) new_Copter)) =
      Fin (inject_Z m) /\
    (10001 <= m <= 60000)%Z.
Proof.
  destruct (setThrust_clamp_idempotent (VNum (Fin 123456.7)) new_Copter)
    as (m & H1 & H2 & _).
  - discriminate.
  - exists m. split; [exact H1|exact H2].
Defined.

End Accessors.

(** ** Feedback arithmetic *)

Section Feedback.

Local Open Scope Q_scope.

Lemma deltaToGoal_NaN_l b : deltaToGoal NaN b = Fin 0.
Proof. destruct b; reflexivity. Qed.

Lemma deltaToGoal_NaN_r a : deltaToGoal a NaN = Fin 0.
Proof. destruct a; reflexivity. Qed.

(** X3.  [deltaToGoal] has a dead band and ignores what is not a number:
    it returns 0 as soon as one argument is [NaN]; on numbers its result
    is 0 or farther than 0.01 from 0, never a small nonzero value; and
    swapping the arguments negates the result. *)
Theorem deltaToGoal_dead_band (a b : Js.num) :
  (a = NaN \/ b = NaN -> deltaToGoal a b = Fin 0) /\
  (forall x y, a = Fin x -> b = Fin y ->
     exists r, deltaToGoal a b = Fin r /\
               (r == 0 \/ 0.01 < Qabs r) /\
               deltaToGoal b a ≡ Fin (- r)).
Proof.
  split.
  - intros [-> | ->]; [apply deltaToGoal_NaN_l | apply deltaToGoal_NaN_r].
  - intros x y -> ->. rewrite !deltaToGoal_Fin.
    assert (Qabs (x - y) == Qabs (y - x)) as Hsym.
    { rewrite <- (Qabs_opp (y - x)). apply Qabs_wd. ring. }
    destruct (Js.Qlt_bool ε (Qabs (y - x))) eqn:E.
    + exists (y - x). split; [reflexivity|].
      pose proof E as E'. apply Qlt_bool_iff in E'.
      split; [right; exact E'|].
      assert (Js.Qlt_bool ε (Qabs (x - y)) = true) as ->.
      { apply Qlt_bool_iff. rewrite Hsym. exact E'. }
      simpl. ring.
    + exists 0. split; [reflexivity|].
      pose proof E as E'. apply Qlt_bool_false_iff in E'.
      split; [left; reflexivity|].
      assert (Js.Qlt_bool ε (Qabs (x - y)) = false) as ->.
      { apply Qlt_bool_false_iff. rewrite Hsym. exact E'. }
      simpl. reflexivity.
Qed.

Lemma deltaToGoal_dead_band_witness :
  deltaToGoal NaN (Fin 1.5) = Fin 0 /\
  exists r, deltaToGoal (Fin 1.495) (Fin 1.5) = Fin r /\
            (r == 0 \/ 0.01 < Qabs r).
Proof.
  split.
  - apply (proj1 (deltaToGoal_dead_band NaN (Fin 1.5))). left. reflexivity.
  - destruct (proj2 (deltaToGoal_dead_band (Fin 1.495) (Fin 1.5))
                    1.495 1.5 eq_refl eq_refl) as (r & H1 & H2 & _).
    exists r. split; [exact H1|exact H2].
Defined.

(** X4.  An accelerometer sample whose [z] is [NaN] counts as on target:
    in every phase the handler stores the sample and changes nothing
    else. *)
Theorem acc_NaN_sample_ignored (data : AccData) (st : Copter) :
  acc_z data = NaN ->
  handleAccTelemetry data st =
  with_telemetry
    (mkTelemetry (stabilizer (telemetry st)) (motor (telemetry st))
                 (Some data) (gyro (telemetry st))) st.
Proof.
  intro H. unfold handleAccTelemetry. cbv zeta. simpl copterStates.
  simpl goal. rewrite H, deltaToGoal_NaN_l.
  destruct (copterStates st); reflexivity.
Qed.

Lemma acc_NaN_sample_ignored_witness :
  goal (handleAccTelemetry (mkAcc (Fin 0) (Fin 0) NaN) (run climb_start new_Copter)) =
  goal (run climb_start new_Copter).
Proof.
  rewrite (acc_NaN_sample_ignored (mkAcc (Fin 0) (Fin 0) NaN)
             (run climb_start new_Copter) eq_refl).
  vm_compute. reflexivity.
Defined.

(** One off-target sample, in a phase where the handler acts. *)
Lemma acc_step (data : AccData) (st : Copter) (z gz t : Q) :
  climbing (copterStates st) = true ->
  acc_z data = Fin z ->
  g_z (goal st) = Fin gz ->
  g_thrust (goal st) = Fin t ->
  0.01 < Qabs (gz - z) ->
  let st' := handleAccTelemetry data st in
  copterStates st' = copterStates st /\
  g_z (goal st') = Fin gz /\
  g_thrust (goal st') = Fin (t + 1250 * (gz - z)) /\
  sp_thrust (nextSetpoint st') =
    sp_thrust (nextSetpoint (setThrust (VNum (Fin (t + 1250 * (gz - z)))) st)).
Proof.
  intros Hp Hz Hgz Ht H st'. subst st'.
  rewrite (handleAcc_active _ _ Hp). cbv zeta.
  rewrite Hz, Hgz, Ht, (deltaToGoal_beyond _ _ H). simpl Js.strict_eq.
  assert (Qeq_bool (gz - z) 0 = false) as ->.
  { apply Qeq_bool_false_iff. intro E. rewrite E in H. discriminate H. }
  simpl. repeat split. exact Hgz.
Qed.

(** X5.  The altitude feedback winds up: [n] samples in a row that are
    off target by the same amount add [n] times [1250 * (goal.z - z)] to
    [goal.thrust], without bound, while the thrust staged for the pulse
    stays an integer from 10001 to 60000. *)
Theorem acc_feedback_winds_up (data : AccData) (z gz gt : Q) (n : nat) :
  forall st,
  climbing (copterStates st) = true ->
  acc_z data = Fin z ->
  g_z (goal st) = Fin gz ->
  g_thrust (goal st) = Fin gt ->
  0.01 < Qabs (gz - z) ->
  let st' := Nat.iter n (handleAccTelemetry data) st in
  (exists t, g_thrust (goal st') = Fin t /\
             t == gt + inject_Z (Z.of_nat n) * (1250 * (gz - z))) /\
  (n <> O ->
     exists m : Z, sp_thrust (nextSetpoint st') = Fin (inject_Z m) /\
                   (10001 <= m <= 60000)%Z).
Proof.
  intros st Hp Hz Hgz Hgt H.
  assert (let st' := Nat.iter n (handleAccTelemetry data) st in
          climbing (copterStates st') = true /\ g_z (goal st') = Fin gz /\
          (exists t, g_thrust (goal st') = Fin t /\
                     t == gt + inject_Z (Z.of_nat n) * (1250 * (gz - z))) /\
          (n <> O ->
             exists m : Z, sp_thrust (nextSetpoint st') = Fin (inject_Z m) /\
                           (10001 <= m <= 60000)%Z)) as Hall.
  { induction n as [|n IH].
    - simpl. split; [exact Hp|]. split; [exact Hgz|]. split.
      + exists gt. split; [exact Hgt|]. simpl. ring.
      + intro E. contradiction.
    - simpl Nat.iter. destruct IH as (Hp' & Hgz' & (t & Ht & Et) & _).
      destruct (acc_step data _ z gz t Hp' Hz Hgz' Ht H) as (E1 & E2 & E3 & E4).
      cbv zeta. split; [now rewrite E1|]. split; [exact E2|]. split.
      + eexists. split; [exact E3|]. rewrite Et, Nat2Z.inj_succ.
        unfold Z.succ. rewrite inject_Z_plus. change (inject_Z 1) with 1. ring.
      + intros _. rewrite E4. apply setThrust_range. discriminate. }
  cbv zeta in Hall. destruct Hall as (_ & _ & H3 & H4). split; assumption.
Qed.

Lemma acc_feedback_winds_up_witness :
  let st' := Nat.iter 40 (handleAccTelemetry (mkAcc (Fin 0) (Fin 0) (Fin 0.5)))
                      (run climb_start new_Copter) in
  (exists t, g_thrust (goal st') = Fin t /\ t == 85000) /\
  exists m : Z, sp_thrust (nextSetpoint st') = Fin (inject_Z m) /\
                (10001 <= m <= 60000)%Z.
Proof.
  intro st'.
  destruct (acc_feedback_winds_up (mkAcc (Fin 0) (Fin 0) (Fin 0.5)) 0.5 1.5 35000 40
              (run climb_start new_Copter) eq_refl eq_refl eq_refl eq_refl eq_refl)
    as ((t & Ht & Et) & Hm).
  split.
  - exists t. split; [exact Ht|]. rewrite Et. reflexivity.
  - apply Hm. discriminate.
Defined.

(** X6.  While the copter takes off, moves or hovers, a stabilizer
    sample cancels the attitude the operator has staged: the pulse that
    follows sends zero roll, pitch and yaw with the staged thrust, X-mode
    on or off. *)
Theorem stabilizer_sample_zeroes_next_pulse (data : StabilizerData) (st : Copter) :
  stabilizing (copterStates st) = true ->
  let st' := pulse (handleStabilizerTelemetry data st) in
  exists sp,
    currentSetpoint st' = Some sp /\
    sent st' = sp :: sent st /\
    sp_roll sp ≡ Fin 0 /\ sp_pitch sp ≡ Fin 0 /\ sp_yaw sp = Fin 0 /\
    sp_thrust sp = sp_thrust (nextSetpoint st).
Proof.
  intros Hp st'. subst st'.
  unfold handleStabilizerTelemetry, pulse, setpoint. cbv zeta.
  simpl copterStates.
  destruct (copterStates st); try discriminate Hp; simpl;
    (eexists; split; [reflexivity|]);
    destruct (xmode st); repeat split.
Qed.

Lemma stabilizer_sample_zeroes_next_pulse_witness :
  let st := setRoll (Fin 12) (with_xmode true (with_copterStates hovering new_Copter)) in
  exists sp,
    currentSetpoint
      (pulse (handleStabilizerTelemetry (mkStabilizer (Fin 1) (Fin 2) (Fin 3) (Fin 4)) st))
      = Some sp /\
    sp_roll sp ≡ Fin 0.
Proof.
  intro st.
  destruct (stabilizer_sample_zeroes_next_pulse
              (mkStabilizer (Fin 1) (Fin 2) (Fin 3) (Fin 4)) st eq_refl)
    as (sp & H1 & _ & H2 & _).
  exists sp. split; [exact H1|exact H2].
Defined.

End Feedback.

(** ** The landing ramp, tick after tick *)

Section RampRounds.

Local Open Scope Q_scope.

Lemma fire_ramp_timer h ms d st :
  find_timer h (timers st) = Some (mkTimer h true ms (CbLandCurve d)) ->
  fire_timer h st = landCurve d st.
Proof.
  intro Hf. unfold fire_timer, bind, get. rewrite Hf. reflexivity.
Qed.

Lemma fire_no_timer h st :
  find_timer h (timers st) = None -> step (TimerFires h) st = st.
Proof.
  intro Hf. unfold step. simpl handle_input.
  unfold fire_timer, bind, get. now rewrite Hf.
Qed.

Lemma find_timer_cleared_outer p l : find_timer p (cleared (Some p) l) = None.
Proof.
  destruct (find_timer p (cleared (Some p) l)) as [t|] eqn:E; [|reflexivity].
  apply find_timer_in in E as [Hin Eh].
  apply in_cleared in Hin as [_ Hn]. congruence.
Qed.

Lemma descend_noop n h p st :
  find_timer h (timers st) = None ->
  find_timer p (timers st) = None ->
  descend n h p st = st.
Proof.
  intros Hh Hp. induction n as [|n IH]; [reflexivity|].
  simpl. now rewrite (fire_no_timer h st Hh), (fire_no_timer p st Hp).
Qed.

(** A tick above the floor. *)
Lemma landCurve_above d T st :
  getThrust st = VNum (Fin T) ->
  10001 < T - 1000 ->
  landCurve d st =
  Returned tt (setThrust (VNum (Fin (T - 1000)))
                 (with_goal (with_g_thrust (Fin (T - 1000)) (goal st)) st)).
Proof.
  intros Hg Hlt. rewrite (landCurve_Fin d T st Hg). cbv zeta.
  assert (Qle_bool (T - 1000) 10001 = false) as ->
    by (apply Qle_bool_false_iff; exact Hlt).
  assert (Qeq_bool (T - 1000) 10001 = false) as ->.
  { apply Qeq_bool_false_iff. intro E. rewrite E in Hlt. discriminate Hlt. }
  reflexivity.
Qed.

(** The tick that reaches the floor, in landing. *)
Lemma landCurve_floor d T st :
  copterStates st = landing ->
  getThrust st = VNum (Fin T) ->
  T - 1000 <= 10001 ->
  landCurve d st =
  Returned tt
    (resolve d "waiting"
       (with_copterStates waiting
          (leaveLanding
             (setThrust (VNum (Fin 10001))
                (with_goal (with_g_thrust (Fin 10001) (goal st)) st))))).
Proof.
  intros Hp Hg Hle. rewrite (landCurve_Fin d T st Hg). cbv zeta.
  assert (Qle_bool (T - 1000) 10001 = true) as ->
    by (apply Qle_bool_iff; exact Hle).
  change (Qeq_bool 10001 10001) with true. cbv iota.
  unfold bind, get, modify.
  rewrite fire_valid by exact Hp. reflexivity.
Qed.

(** A round above the floor: the ramp tick stages the lower thrust, the
    pulse makes it current.  The new current thrust is the staged
    integer: it lies under every integer that [T - 1000] lies under. *)
Lemma round_above h p d T st :
  copterStates st = landing ->
  hoverTimer st = Some h ->
  pulseTimer st = Some p ->
  find_timer h (timers st) = Some (mkTimer h true 250 (CbLandCurve d)) ->
  find_timer p (timers st) = Some (mkTimer p true 100 CbPulse) ->
  getThrust st = VNum (Fin T) ->
  10001 < T - 1000 ->
  let st' := step (TimerFires p) (step (TimerFires h) st) in
  copterStates st' = landing /\
  hoverTimer st' = Some h /\
  pulseTimer st' = Some p /\
  timers st' = timers st /\
  resolved st' = resolved st /\
  exists T', getThrust st' = VNum (Fin T') /\
             forall N : Z, T - 1000 <= inject_Z N -> T' <= inject_Z N.
Proof.
  intros Hph Hh Hp Hfh Hfp Hg Hlt st'. subst st'.
  set (st1 := setThrust (VNum (Fin (T - 1000)))
                (with_goal (with_g_thrust (Fin (T - 1000)) (goal st)) st)).
  assert (step (TimerFires h) st = st1) as ->.
  { unfold step. simpl handle_input.
    now rewrite (fire_ramp_timer h 250 d st Hfh), (landCurve_above d T st Hg Hlt). }
  assert (timers st1 = timers st) as Ht1 by reflexivity.
  assert (step (TimerFires p) st1 = pulse st1) as ->.
  { unfold step. simpl handle_input.
    rewrite (fire_pulse_timer p (mkTimer p true 100 CbPulse) st1);
      [reflexivity|rewrite Ht1; exact Hfp|reflexivity|reflexivity]. }
  split; [exact Hph|]. split; [exact Hh|]. split; [exact Hp|].
  split; [reflexivity|]. split; [reflexivity|].
  unfold getThrust, current_field, pulse, setpoint. simpl.
  assert (Js.Qlt_bool (T - 1000) 10001 = false) as ->
    by (apply Qlt_bool_false_iff; lra).
  simpl.
  destruct (Js.Qlt_bool 60000 (T - 1000)) eqn:E.
  - eexists. split; [reflexivity|]. apply Qlt_bool_iff in E.
    change (inject_Z (Qfloor (60000 + (1 # 2)))) with 60000.
    intros N HN. lra.
  - eexists. split; [reflexivity|]. intros N HN.
    pose proof (Qfloor_le (T - 1000 + (1 # 2))) as Hfl.
    assert (inject_Z (Qfloor (T - 1000 + (1 # 2))) < inject_Z (N + 1)) as Hlt'
      by (rewrite inject_Z_plus; change (inject_Z 1) with 1; lra).
    rewrite <- Zlt_Qlt in Hlt'. rewrite <- Zle_Qle. lia.
Qed.

(** The round that reaches the floor lands, and the rounds after it find
    no timer to fire. *)
Lemma round_floor n h p d T st :
  copterStates st = landing ->
  hoverTimer st = Some h ->
  pulseTimer st = Some p ->
  find_timer h (timers st) = Some (mkTimer h true 250 (CbLandCurve d)) ->
  getThrust st = VNum (Fin T) ->
  T - 1000 <= 10001 ->
  touched_down h p d st (descend (S n) h p st).
Proof.
  intros Hph Hh Hp Hfh Hg Hle. unfold touched_down.
  simpl descend.
  set (st1 := setThrust (VNum (Fin 10001))
                (with_goal (with_g_thrust (Fin 10001) (goal st)) st)).
  set (st2 := resolve d "waiting"
                (with_copterStates waiting (leaveLanding st1))).
  assert (step (TimerFires h) st = st2) as ->.
  { unfold step. simpl handle_input.
    now rewrite (fire_ramp_timer h 250 d st Hfh),
                (landCurve_floor d T st Hph Hg Hle). }
  destruct (leaveLanding_effect st1) as (Ht & _ & Hfr).
  assert (timers st2 = cleared (Some p) (cleared (Some h) (timers st))) as Ht2.
  { change (timers st2) with (timers (leaveLanding st1)). rewrite Ht.
    change (pulseTimer st1) with (pulseTimer st).
    change (hoverTimer st1) with (hoverTimer st).
    change (timers st1) with (timers st). now rewrite Hh, Hp. }
  assert (find_timer h (timers st2) = None) as Hnh
    by (rewrite Ht2; apply find_timer_cleared).
  assert (find_timer p (timers st2) = None) as Hnp
    by (rewrite Ht2; apply find_timer_cleared_outer).
  rewrite (fire_no_timer p st2 Hnp), (descend_noop n h p st2 Hnh Hnp).
  split; [reflexivity|].
  split.
  { change (resolved st2)
      with ((d, "waiting"%string) :: resolved (leaveLanding st1)).
    rewrite Hfr. reflexivity. }
  split.
  { change (goal st2) with (goal (leaveLanding st1)).
    rewrite Hfr. reflexivity. }
  split; assumption.
Qed.

(** Each round above the floor takes 1000 off the bound. *)
Lemma descend_lands (k : nat) :
  forall (st : Copter) (h p d : nat) (T : Q),
  copterStates st = landing ->
  hoverTimer st = Some h ->
  pulseTimer st = Some p ->
  find_timer h (timers st) = Some (mkTimer h true 250 (CbLandCurve d)) ->
  find_timer p (timers st) = Some (mkTimer p true 100 CbPulse) ->
  getThrust st = VNum (Fin T) ->
  T <= 11001 + 1000 * inject_Z (Z.of_nat k) ->
  touched_down h p d st (descend (S k) h p st).
Proof.
  induction k as [|k IH]; intros st h p d T Hph Hh Hp Hfh Hfp Hg Hle.
  - apply (round_floor 0%nat h p d T st); auto.
    change (inject_Z (Z.of_nat 0)) with 0 in Hle. lra.
  - destruct (Qlt_le_dec 10001 (T - 1000)) as [Habove|Hbelow].
    + destruct (round_above h p d T st Hph Hh Hp Hfh Hfp Hg Habove)
        as (E1 & E2 & E3 & E4 & E5 & T' & E6 & E7).
      change (descend (S (S k)) h p st)
        with (descend (S k) h p (step (TimerFires p) (step (TimerFires h) st))).
      unfold touched_down. rewrite <- E5. apply (IH _ h p d T'); auto.
      * now rewrite E4.
      * now rewrite E4.
      * rewrite Nat2Z.inj_succ in Hle. unfold Z.succ in Hle.
        rewrite inject_Z_plus in Hle. change (inject_Z 1) with 1 in Hle.
        assert (T' <= inject_Z (11001 + 1000 * Z.of_nat k)) as Hb.
        { apply E7. rewrite inject_Z_plus, inject_Z_mult.
          change (inject_Z 11001) with 11001.
          change (inject_Z 1000) with 1000. lra. }
        rewrite inject_Z_plus, inject_Z_mult in Hb.
        change (inject_Z 11001) with 11001 in Hb.
        change (inject_Z 1000) with 1000 in Hb. exact Hb.
    + apply (round_floor (S k) h p d T st); auto.
Qed.

Lemma descend_add n m h p st :
  descend (n + m) h p st = descend m h p (descend n h p st).
Proof.
  revert st. induction n as [|n IH]; intro st; [reflexivity|].
  simpl. apply IH.
Qed.

(** X7.  A landing always completes when a pulse follows each ramp tick:
    from a current thrust of at most [11001 + 1000 * k], [k + 1] rounds
    of a ramp tick and a pulse tick bring the machine to waiting, with
    the goal thrust at 10001, both timers stopped and [land]'s promise
    resolved with 'waiting', and further rounds leave that state as it
    is.  In particular a landing from a current thrust of at most 60000,
    the most the setter stages, is over after 50 rounds. *)
Theorem landing_completes (st : Copter) (h p d : nat) (T : Q) :
  copterStates st = landing ->
  hoverTimer st = Some h ->
  pulseTimer st = Some p ->
  find_timer h (timers st) = Some (mkTimer h true 250 (CbLandCurve d)) ->
  find_timer p (timers st) = Some (mkTimer p true 100 CbPulse) ->
  getThrust st = VNum (Fin T) ->
  (forall k : nat,
     T <= 11001 + 1000 * inject_Z (Z.of_nat k) ->
     touched_down h p d st (descend (S k) h p st) /\
     forall n : nat, descend (S k + n) h p st = descend (S k) h p st) /\
  (T <= 60000 -> touched_down h p d st (descend 50 h p st)).
Proof.
  intros Hph Hh Hp Hfh Hfp Hg. split.
  - intros k Hk.
    pose proof (descend_lands k st h p d T Hph Hh Hp Hfh Hfp Hg Hk) as Hl.
    split; [exact Hl|].
    intro n. rewrite descend_add.
    destruct Hl as (_ & _ & _ & Hnh & Hnp).
    apply descend_noop; assumption.
  - intro H60.
    apply (descend_lands 49 st h p d T Hph Hh Hp Hfh Hfp Hg).
    change (inject_Z (Z.of_nat 49)) with 49. lra.
Qed.

Lemma landing_completes_witness :
  touched_down 3 1 1 (run descent_start new_Copter)
    (descend 28 3 1 (run descent_start new_Copter)) /\
  touched_down 3 1 1 (run descent_start new_Copter)
    (descend 50 3 1 (run descent_start new_Copter)).
Proof.
  destruct (landing_completes (run descent_start new_Copter) 3 1 1 37700)
    as (Hk & H50); try reflexivity.
  split.
  - apply (Hk 27%nat). vm_compute. discriminate.
  - apply H50. vm_compute. discriminate.
Defined.

End RampRounds.

Section RampStalls.

Local Open Scope Q_scope.




(** [changethrust] on a frame that does not hold exactly one hand. *)
Lemma changethrust_no_single_hand frame st :
  List.length (hands frame) <> 1%nat ->
  changethrust frame st = setThrust (getThrust st) st.
Proof.
  intro H. unfold changethrust. cbv zeta.
  destruct (hands frame) as [|a [|b l]]; try reflexivity.
  simpl in H. congruence.
Qed.

(** X9.  The hand tracker undoes the landing ramp: a frame without
    exactly one hand hands the current thrust back to the setter, over
    what the ramp tick has staged.  With such a frame between every ramp
    tick and the pulse the current thrust never moves and the landing
    never completes, though the goal thrust has dropped by 1000. *)
Theorem hand_tracker_stalls_landing (d n : nat) (frame : Frame) (m : Z) (st : Copter) :
  copterStates st = landing ->
  getThrust st = VNum (Fin (inject_Z m)) ->
  (11001 < m <= 60000)%Z ->
  List.length (hands frame) <> 1%nat ->
  let st' := Nat.iter n (tracked_round d frame) st in
  copterStates st' = landing /\
  getThrust st' = VNum (Fin (inject_Z m)) /\
  resolved st' = resolved st /\
  (n <> O -> g_thrust (goal st') = Fin (inject_Z m - 1000)).
Proof.
  intros Hp Hg Hm Hf st'. subst st'.
  assert (forall s, copterStates s = landing ->
            getThrust s = VNum (Fin (inject_Z m)) ->
            copterStates (tracked_round d frame s) = landing /\
            getThrust (tracked_round d frame s) = VNum (Fin (inject_Z m)) /\
            resolved (tracked_round d frame s) = resolved s /\
            g_thrust (goal (tracked_round d frame s)) = Fin (inject_Z m - 1000))
    as Hround.
  { intros s Hs Hgs. unfold tracked_round.
    assert (10001 < inject_Z m - 1000) as Habove.
    { assert (inject_Z 11001 < inject_Z m) by (rewrite <- Zlt_Qlt; lia).
      change (inject_Z 11001) with 11001 in *. lra. }
    rewrite (landCurve_above d (inject_Z m) s Hgs Habove). simpl state_of.
    rewrite (changethrust_no_single_hand frame _ Hf).
    match goal with
    | |- context [setThrust (getThrust ?s1) ?s1] =>
        assert (getThrust s1 = VNum (Fin (inject_Z m))) as -> by exact Hgs
    end.
    split; [exact Hs|].
    split; [|split; reflexivity].
    unfold getThrust, current_field, pulse, setpoint. simpl.
    assert (Js.Qlt_bool (inject_Z m) 10001 = false) as ->.
    { apply Qlt_bool_false_iff. change 10001 with (inject_Z 10001).
      rewrite <- Zle_Qle. lia. }
    assert (Js.Qlt_bool 60000 (inject_Z m) = false) as ->.
    { apply Qlt_bool_false_iff. change 60000 with (inject_Z 60000).
      rewrite <- Zle_Qle. lia. }
    simpl. f_equal. apply (round_Z m). }
  induction n as [|n IH].
  - simpl. split; [|split; [|split]]; auto.
    intro E. contradiction.
  - simpl Nat.iter. destruct IH as (E1 & E2 & E3 & _).
    destruct (Hround _ E1 E2) as (R1 & R2 & R3 & R4).
    split; [exact R1|]. split; [exact R2|]. split; [congruence|].
    intros _. exact R4.
Qed.

Lemma hand_tracker_stalls_landing_witness :
  let st' := Nat.iter 100 (tracked_round 1 (mkFrame [])) (run descent_start new_Copter) in
  copterStates st' = landing /\ getThrust st' = VNum (Fin (inject_Z 37700)).
Proof.
  intro st'.
  destruct (hand_tracker_stalls_landing 1 100 (mkFrame []) 37700
              (run descent_start new_Copter)) as (H1 & H2 & _).
  - reflexivity.
  - reflexivity.
  - lia.
  - simpl. discriminate.
  - split; [exact H1|exact H2].
Defined.

End RampStalls.

(** ** The manual takeoff ramp *)

Section TakeoffRamp.

Local Open Scope Q_scope.

Lemma with_timers_same st : with_timers (timers st) st = st.
Proof. destruct st; reflexivity. Qed.

Lemma thrustup_total d q z st :
  exists r st', thrustup d q z st = Returned r st'.
Proof.
  unfold thrustup. cbv zeta.
  repeat match goal with
         | |- context [if ?c then _ else _] => destruct c
         end;
    unfold bind, modify, ret; eexists; eexists; reflexivity.
Qed.

(** [thrustup] neither reads nor writes the timers. *)
Lemma thrustup_with_timers d q z l st :
  thrustup d q z (with_timers l st) =
  match thrustup d q z st with
  | Returned r st' => Returned r (with_timers l st')
  | Thrown e st' => Thrown e (with_timers l st')
  end.
Proof.
  unfold thrustup. cbv zeta.
  repeat match goal with
         | |- context [if ?c then _ else _] => destruct c
         end; reflexivity.
Qed.

Lemma find_set_callback h cb t l :
  find_timer h l = Some t ->
  find_timer h (set_callback h cb l) =
  Some (mkTimer (handle t) (repeats t) (delay t) cb).
Proof.
  unfold find_timer, set_callback.
  induction l as [|a l IH]; simpl; [discriminate|].
  destruct (handle a =? h)%nat eqn:E; simpl.
  - intros [= <-]. now rewrite E.
  - rewrite E. exact IH.
Qed.

Lemma fire_thrustup_timer h ms d q z l st r st' :
  find_timer h l = Some (mkTimer h true ms (CbThrustup d q z)) ->
  thrustup d q z st = Returned r st' ->
  step (TimerFires h) (with_timers l st) =
  with_timers (set_callback h (CbThrustup d (fst r) (snd r)) l) st'.
Proof.
  intros Hf Hr. unfold step. simpl handle_input.
  unfold fire_timer, bind at 1, get.
  change (timers (with_timers l st)) with l. rewrite Hf.
  simpl repeats. cbv iota. unfold bind at 1, modify at 1.
  simpl callback. unfold run_callback, bind.
  rewrite thrustup_with_timers, Hr. reflexivity.
Qed.

(** Ticks of the timer that runs [thrustup] are runs of [thrustup] on the
    values the timer keeps. *)
Lemma ticks_thrustups h ms d q z st (n : nat) :
  find_timer h (timers st) = Some (mkTimer h true ms (CbThrustup d q z)) ->
  exists l q' z',
    thrustups n d q z st = Returned (q', z') (state_of (thrustups n d q z st)) /\
    ticks n h st = with_timers l (state_of (thrustups n d q z st)) /\
    find_timer h l = Some (mkTimer h true ms (CbThrustup d q' z')).
Proof.
  intro Hf. induction n as [|n IH].
  - exists (timers st), q, z. split; [reflexivity|].
    split; [simpl; now rewrite with_timers_same | exact Hf].
  - destruct IH as (l & q' & z' & Hr & Ht & Hl).
    destruct (thrustup_total d q' z' (state_of (thrustups n d q z st)))
      as ([q2 z2] & st3 & E3).
    assert (thrustups (S n) d q z st = Returned (q2, z2) st3) as Hs.
    { simpl thrustups. unfold bind at 1. rewrite Hr. exact E3. }
    exists (set_callback h (CbThrustup d q2 z2) l), q2, z2.
    rewrite Hs. simpl state_of. split; [reflexivity|]. split.
    + change (ticks (S n) h st) with (step (TimerFires h) (ticks n h st)).
      rewrite Ht.
      apply (fire_thrustup_timer h ms d q' z' l _ (q2, z2) st3 Hl E3).
    + now rewrite (find_set_callback h (CbThrustup d q2 z2) _ l Hl).
Qed.

(** The thirteen runs of [thrustup] that make the curve, and what later
    runs do. *)
Lemma thrustups_13 d st :
  thrustups 13 d 37700 0 st =
  Returned (0, 6%Z) (state_of (thrustups 13 d 37700 0 st)).
Proof. reflexivity. Qed.

Lemma thrustups_after_13 d st (n : nat) :
  thrustups (n + 13) d 37700 0 st = thrustups 13 d 37700 0 st.
Proof.
  induction n as [|n IH]; [reflexivity|].
  change (thrustups (S n + 13) d 37700 0 st)
    with (bind (thrustups (n + 13) d 37700 0)
               (fun r => thrustup d (fst r) (snd r)) st).
  unfold bind. rewrite IH, thrustups_13. reflexivity.
Qed.

(** X10.  The ramp of [takeoff1]: the staged thrust rises from 37700 in
    steps of 500, is capped at 39601 on the fourth tick and held there
    for four ticks, steps down and is held at 37700; the promise is
    resolved, once, on the thirteenth tick and no sooner; later ticks do
    nothing; and the ramp never moves the machine out of the phase it
    is in. *)
Theorem takeoff1_ramp (h d : nat) (ms : Z) (st : Copter) (n : nat) :
  find_timer h (timers st) = Some (mkTimer h true ms (CbThrustup d 37700 0)) ->
  staged_thrusts 13 h st =
    [Fin 38200; Fin 38700; Fin 39200; Fin 39601; Fin 39601; Fin 39601;
     Fin 39601; Fin 39101; Fin 38601; Fin 38101; Fin 37700; Fin 37700;
     Fin 37700] /\
  resolved (ticks 12 h st) = resolved st /\
  resolved (ticks (n + 13) h st) = (d, "OK"%string) :: resolved st /\
  g_thrust (goal (ticks (n + 13) h st)) = Fin 37700 /\
  sp_thrust (nextSetpoint (ticks (n + 13) h st)) = Fin 37700 /\
  copterStates (ticks (n + 13) h st) = copterStates st.
Proof.
  intro Hf.
  assert (forall k, exists l,
            ticks k h st = with_timers l (state_of (thrustups k d 37700 0 st)))
    as Hk.
  { intro k. destruct (ticks_thrustups h ms d 37700 0 st k Hf)
      as (l & _ & _ & _ & E & _). now exists l. }
  split.
  { unfold staged_thrusts. cbv [map seq].
    repeat match goal with
           | |- context [ticks ?k h st] =>
               let l := fresh "l" in let E := fresh "E" in
               destruct (Hk k) as (l & E); rewrite E; clear E
           end.
    reflexivity. }
  split.
  { destruct (Hk 12%nat) as (l & ->). reflexivity. }
  destruct (Hk (n + 13)%nat) as (l & ->).
  rewrite thrustups_after_13. repeat split.
Qed.

Lemma takeoff1_ramp_witness :
  let st := state_of (takeoff1 on_the_ground) in
  resolved (ticks 12 2 st) = [] /\
  resolved (ticks 13 2 st) = [(0%nat, "OK"%string)] /\
  copterStates (ticks 13 2 st) = taking_off.
Proof.
  intro st.
  destruct (takeoff1_ramp 2 0 250 st 0 eq_refl) as (_ & H1 & H2 & _ & _ & H3).
  split; [exact H1|]. split; [exact H2|exact H3].
Defined.

End TakeoffRamp.

(** ** What the control code writes *)

Section Tidy.

Lemma tidy_new : tidy new_Copter.
Proof.
  constructor.
  - reflexivity.
  - left. reflexivity.
  - left. split; reflexivity.
  - repeat split.
  - exact I.
Qed.

Lemma tidy_tview a b : tview b = tview a -> tidy a -> tidy b.
Proof.
  unfold tview. intros E [H1 H2 H3 H4 H5].
  injection E as E1 E2 E3 E4 E5 E6 Gr Gp Gy Gx Gyy Gz.
  constructor; rewrite ?E1, ?E2, ?E3, ?E4, ?E5, ?E6, ?Gr, ?Gp, ?Gy, ?Gx, ?Gyy, ?Gz;
    assumption.
Qed.

Lemma keeps_refl st : keeps st st.
Proof.
  split; [auto|]. split; [reflexivity|]. split; [reflexivity|auto].
Qed.

Lemma keeps_trans a b c : keeps a b -> keeps b c -> keeps a c.
Proof.
  intros (H1 & H2 & H3 & H4) (K1 & K2 & K3 & K4).
  split; [auto|]. split; [congruence|]. split; [congruence|auto].
Qed.

Lemma keeps_tview a b :
  tview b = tview a -> telemetry b = telemetry a -> xmode b = xmode a ->
  keeps a b.
Proof.
  intros E Ht Hx. split; [now apply tidy_tview|].
  split; [exact Ht|]. split; [exact Hx|].
  unfold tview in E. injection E as E1 _. now rewrite E1.
Qed.

Lemma keeps_setThrust v st : keeps st (setThrust v st).
Proof.
  split; [|split; [reflexivity|split; [reflexivity|auto]]].
  intros [H1 H2 H3 H4 H5]. constructor; auto.
  destruct v as [[q|]| |s].
  - right. right. apply setThrust_range. discriminate.
  - right. left. reflexivity.
  - right. right. apply setThrust_range. discriminate.
  - right. right. apply setThrust_range. discriminate.
Qed.

Lemma keeps_setpoint roll pitch yaw thrust st :
  keeps st (setpoint roll pitch yaw thrust st).
Proof.
  split; [|split; [reflexivity|split; [reflexivity|auto]]].
  intros [H1 H2 H3 H4 H5]. constructor; auto.
Qed.

Lemma leaveLanding_eq st :
  leaveLanding st =
  setpoint (Fin 0) (Fin 0) (Fin 0) (Fin 0)
    (with_timers (cleared (pulseTimer st) (cleared (hoverTimer st) (timers st))) st).
Proof.
  unfold leaveLanding, clearInterval. cbv zeta.
  destruct (hoverTimer st) as [hh|] eqn:Eh; simpl;
    destruct (pulseTimer st) as [hp|] eqn:Ep; reflexivity.
Qed.

Lemma keeps_leaveLanding st : keeps st (leaveLanding st).
Proof.
  rewrite leaveLanding_eq.
  eapply keeps_trans; [|apply keeps_setpoint].
  apply keeps_tview; reflexivity.
Qed.

Lemma destination_not_setup e : destination e <> setup.
Proof. destruct e; discriminate. Qed.

Lemma keeps_leave p st : keeps st (leave p st).
Proof.
  destruct p; try apply keeps_refl. apply keeps_leaveLanding.
Qed.

Lemma leave_goal p st : goal (leave p st) = goal st.
Proof.
  destruct p; try reflexivity.
  unfold leave. now rewrite leaveLanding_eq.
Qed.

Lemma keeps_fire e st : keeps st (state_of (fire e st)).
Proof.
  destruct (Phase_eqb (copterStates st) (source e)) eqn:E.
  - apply Phase_eqb_eq in E. rewrite (fire_valid e st E). simpl state_of.
    destruct (keeps_leave (source e) st) as (K1 & K2 & K3 & _).
    pose proof (leave_goal (source e) st) as Hg.
    remember (leave (source e) st) as st1 eqn:E1. clear E1.
    split.
    + intro Ht. pose proof (tidy_altitude st Ht) as Hz. rewrite E in Hz.
      destruct (K1 Ht) as [H1 H2 H3 H4 H5].
      assert ((connecting st1 = 0%nat /\ subscriptions st1 = []) \/
              (destination e <> setup /\
               ((connecting st1 = 1%nat /\ subscriptions st1 = []) \/
                (connecting st1 = 0%nat /\ subscriptions st1 = all_channels))))
        as H3'.
      { destruct H3 as [H3|[_ H3]]; [left; exact H3|].
        right. split; [apply destination_not_setup|exact H3]. }
      rewrite <- Hg in Hz.
      destruct e; simpl in *; constructor; simpl; auto.
    + split; [|split].
      * rewrite <- K2. destruct e; reflexivity.
      * rewrite <- K3. destruct e; reflexivity.
      * intros _. destruct e; simpl; discriminate.
  - apply Phase_eqb_neq in E. rewrite (fire_invalid e st E). apply keeps_refl.
Qed.

End Tidy.

Section TidySteps.

Ltac inert := apply keeps_tview; reflexivity.

Lemma keeps_stopThrustingUp d st : keeps st (state_of (stopThrustingUp d st)).
Proof.
  unfold stopThrustingUp, bind, modify.
  pose proof (keeps_fire Ev.stabilize st) as Hf.
  destruct (fire Ev.stabilize st) as [[] st1|e st1]; simpl in *; auto.
  eapply keeps_trans; [exact Hf|]. inert.
Qed.

Lemma keeps_takeoff st : keeps st (state_of (takeoff st)).
Proof.
  unfold takeoff, bind, defer, lift. cbv zeta.
  set (st0 := with_nextDeferred (S (nextDeferred st)) st).
  assert (keeps st st0) as H0 by inert.
  pose proof (keeps_fire Ev.takeoff st0) as Hf.
  destruct (fire Ev.takeoff st0) as [[] st1|e st1]; simpl in *.
  - eapply keeps_trans; [exact H0|]. eapply keeps_trans; [exact Hf|]. inert.
  - eapply keeps_trans; [exact H0|exact Hf].
Qed.

Lemma keeps_takeoff1 st : keeps st (state_of (takeoff1 st)).
Proof.
  unfold takeoff1, bind, defer, lift. cbv zeta.
  set (st0 := with_nextDeferred (S (nextDeferred st)) st).
  assert (keeps st st0) as H0 by inert.
  pose proof (keeps_fire Ev.takeoff st0) as Hf.
  destruct (fire Ev.takeoff st0) as [[] st1|e st1]; simpl in *.
  - eapply keeps_trans; [exact H0|]. eapply keeps_trans; [exact Hf|]. inert.
  - eapply keeps_trans; [exact H0|exact Hf].
Qed.

Lemma keeps_land st : keeps st (state_of (land st)).
Proof.
  unfold land, bind, defer, lift, get, modify. cbv zeta.
  set (st0 := with_nextDeferred (S (nextDeferred st)) st).
  assert (keeps st st0) as H0 by inert.
  pose proof (keeps_fire Ev.land st0) as Hf.
  destruct (fire Ev.land st0) as [[] st1|e st1]; simpl in *.
  - eapply keeps_trans; [exact H0|]. eapply keeps_trans; [exact Hf|].
    destruct (flightTimer st1); inert.
  - eapply keeps_trans; [exact H0|exact Hf].
Qed.

Lemma keeps_hover st : keeps st (state_of (hover st)).
Proof.
  unfold hover, bind. pose proof (keeps_fire Ev.stabilize st) as Hf.
  destruct (fire Ev.stabilize st) as [[] st1|e st1]; exact Hf.
Qed.

Lemma keeps_landCurve d st : keeps st (state_of (landCurve d st)).
Proof.
  unfold landCurve, bind, get, modify. cbv zeta.
  match goal with
  | |- context [setThrust ?v ?s] =>
      assert (keeps st (setThrust v s)) as H1
        by (eapply keeps_trans; [|apply keeps_setThrust]; inert);
      set (st1 := setThrust v s) in *
  end.
  destruct (Js.strict_eq _ _); [|exact H1].
  pose proof (keeps_fire Ev.landed st1) as Hf.
  destruct (fire Ev.landed st1) as [[] st2|e st2]; simpl in *.
  - eapply keeps_trans; [exact H1|]. eapply keeps_trans; [exact Hf|]. inert.
  - eapply keeps_trans; [exact H1|exact Hf].
Qed.

Lemma keeps_thrustup d q z st : keeps st (state_of (thrustup d q z st)).
Proof.
  unfold thrustup. cbv zeta.
  repeat match goal with
         | |- context [if ?c then _ else _] => destruct c
         end;
    unfold bind, modify, ret; simpl state_of;
    try apply keeps_refl;
    try inert;
    (eapply keeps_trans; [apply keeps_setThrust|inert]).
Qed.

Lemma keeps_fire_timer h st : keeps st (state_of (fire_timer h st)).
Proof.
  unfold fire_timer, bind, get.
  destruct (find_timer h (timers st)) as [t|]; [|apply keeps_refl].
  unfold modify.
  set (st1 := (if repeats t then fun st => st
               else fun st => with_timers (remove_timer h (timers st)) st) st).
  assert (keeps st st1) as H1.
  { subst st1. destruct (repeats t); [apply keeps_refl|inert]. }
  apply (keeps_trans _ _ _ H1). unfold run_callback.
  destruct (callback t) as [|d|d|d q z].
  - apply keeps_setpoint.
  - apply keeps_stopThrustingUp.
  - apply keeps_landCurve.
  - unfold bind, modify. pose proof (keeps_thrustup d q z st1) as Hk.
    destruct (thrustup d q z st1) as [r st2|e st2]; simpl in *; auto.
    eapply keeps_trans; [exact Hk|]. inert.
Qed.

(** [connect] gets past the state machine from setup only. *)
Lemma tidy_connect_call st : tidy st -> tidy (state_of (connect st)).
Proof.
  intro Ht. unfold connect, bind, modify.
  destruct (Phase_eqb (copterStates st) (source Ev.connect)) eqn:E.
  - apply Phase_eqb_eq in E. rewrite (fire_valid Ev.connect st E).
    simpl. destruct Ht as [H1 H2 H3 H4 H5]. constructor; simpl; auto.
    destruct H3 as [[Hc Hs]|[Hn _]]; [|simpl in E; contradiction].
    right. split; [discriminate|]. left. rewrite Hc. auto.
  - apply Phase_eqb_neq in E. now rewrite (fire_invalid Ev.connect st E).
Qed.

Lemma connect_frame st :
  telemetry (state_of (connect st)) = telemetry st /\
  (copterStates st <> setup -> copterStates (state_of (connect st)) <> setup).
Proof.
  unfold connect, bind, modify.
  destruct (keeps_fire Ev.connect st) as (_ & K2 & _ & K4).
  destruct (fire Ev.connect st) as [[] st1|e st1]; simpl in *; auto.
Qed.

(** The callback of [driver.connect] subscribes the four channels. *)
Lemma tidy_connected st n :
  connecting st = S n ->
  tidy st ->
  tidy (state_of (connected_callback (with_connecting n st))).
Proof.
  intros Hc Ht. unfold connected_callback, bind, modify.
  match goal with
  | |- context [fire Ev.ready ?s] => set (st1 := s)
  end.
  assert (tidy st1) as H1.
  { destruct Ht as [H1 H2 H3 H4 H5]. constructor; simpl; auto.
    destruct H3 as [[Hz _]|[Hn [[Ho Hs]|[Hz _]]]]; try congruence.
    right. split; [exact Hn|]. right.
    assert (n = 0%nat) as -> by congruence.
    split; [reflexivity|]. unfold subscribe. simpl. now rewrite Hs. }
  destruct (keeps_fire Ev.ready st1) as (K1 & _).
  destruct (fire Ev.ready st1) as [[] st2|e st2]; simpl in *; auto.
Qed.

Lemma connected_frame st n :
  telemetry (state_of (connected_callback (with_connecting n st))) = telemetry st /\
  (copterStates st <> setup ->
   copterStates (state_of (connected_callback (with_connecting n st))) <> setup).
Proof.
  unfold connected_callback, bind, modify.
  match goal with
  | |- context [fire Ev.ready ?s] => set (st1 := s)
  end.
  destruct (keeps_fire Ev.ready st1) as (_ & K2 & _ & K4).
  destruct (fire Ev.ready st1) as [[] st2|e st2]; simpl in *; auto.
Qed.

(** Every input keeps the invariant, replaces at most the snapshot of
    its own channel and does not go back to setup. *)
Lemma step_facts i st :
  (tidy st -> tidy (step i st)) /\
  telemetry (step i st) = record_sample i (telemetry st) /\
  (copterStates st <> setup -> copterStates (step i st) <> setup).
Proof.
  assert (forall st', keeps st st' ->
            (tidy st -> tidy st') /\ telemetry st' = telemetry st /\
            (copterStates st <> setup -> copterStates st' <> setup)) as Hk.
  { intros st' (K1 & K2 & _ & K4). auto. }
  unfold step. destruct i; simpl handle_input; simpl record_sample;
    try (unfold modify; simpl state_of; apply Hk; inert).
  - split; [apply tidy_connect_call|apply connect_frame].
  - unfold bind, get. destruct (connecting st) as [|n] eqn:Ec.
    + apply Hk, keeps_refl.
    + unfold modify at 1. split; [intro Ht; now apply tidy_connected|].
      apply connected_frame.
  - unfold bind. pose proof (keeps_takeoff st) as Hf.
    destruct (takeoff st); apply Hk; exact Hf.
  - unfold bind. pose proof (keeps_takeoff1 st) as Hf.
    destruct (takeoff1 st); apply Hk; exact Hf.
  - unfold bind. pose proof (keeps_land st) as Hf.
    destruct (land st); apply Hk; exact Hf.
  - unfold bind. pose proof (keeps_hover st) as Hf.
    destruct (hover st); apply Hk; exact Hf.
  - apply Hk, keeps_fire.
  - apply Hk, keeps_setThrust.
  - unfold modify. simpl state_of. split; [|split]; auto.
    intro Ht. eapply tidy_tview; [|exact Ht]. reflexivity.
  - apply Hk, keeps_setpoint.
  - unfold modify. simpl state_of.
    split; [|split];
      [| |rewrite (steady_phase _ _ (steady_stabilizer data st)); auto].
    + intro Ht. eapply tidy_tview; [|exact Ht].
      unfold handleStabilizerTelemetry. cbv zeta. simpl copterStates.
      destruct (copterStates st); reflexivity.
    + unfold handleStabilizerTelemetry. cbv zeta. simpl copterStates.
      destruct (copterStates st); reflexivity.
  - unfold modify. simpl state_of.
    split; [|split];
      [| |rewrite (steady_phase _ _ (steady_motor data st)); auto].
    + intro Ht. eapply tidy_tview; [|exact Ht].
      unfold handleMotorTelemetry. cbv zeta. simpl copterStates.
      destruct (copterStates st); reflexivity.
    + unfold handleMotorTelemetry. cbv zeta. simpl copterStates.
      destruct (copterStates st); reflexivity.
  - unfold modify. simpl state_of.
    split; [|split];
      [| |rewrite (steady_phase _ _ (steady_acc data st)); auto].
    all: unfold handleAccTelemetry; cbv zeta; simpl copterStates.
    match goal with
    | |- context [with_telemetry ?t st] => set (st1 := with_telemetry t st)
    end.
    assert (tidy st -> tidy st1) as H1
      by (intro Ht; eapply tidy_tview; [|exact Ht]; reflexivity).
    assert (forall v, tidy st ->
              tidy (setThrust (VNum v) (with_goal (with_g_thrust v (goal st1)) st1)))
      as H2.
    { intros v Ht. apply keeps_setThrust.
      eapply tidy_tview; [|exact (H1 Ht)]. reflexivity. }
    + intro Ht. destruct (copterStates st); auto;
        destruct (negb _); auto; apply H2; exact Ht.
    + destruct (copterStates st); try reflexivity;
        destruct (negb _); reflexivity.
  - unfold modify. simpl state_of. unfold handleGyroTelemetry.
    split; [|split]; auto.
    intro Ht. eapply tidy_tview; [|exact Ht]. reflexivity.
  - apply Hk, keeps_fire_timer.
Qed.

Lemma reachable_tidy st : reachable st -> tidy st.
Proof.
  induction 1 as [|i st _ IH]; [exact tidy_new|].
  now apply (proj1 (step_facts i st)).
Qed.

End TidySteps.

(** ** Invariants of the reachable states *)

Section ReachableFacts.

(** X11.  The getters report what the driver was last sent: in every
    reachable state [currentSetpoint] is the latest entry of the driver's
    log, and it is still the initial [{}] exactly when nothing was sent
    yet. *)
Theorem getters_report_last_sent (st : Copter) :
  reachable st ->
  currentSetpoint st = hd_error (sent st) /\
  (getThrust st = VUndefined <-> sent st = []).
Proof.
  intro H. pose proof (tidy_current st (reachable_tidy st H)) as Hc.
  split; [exact Hc|].
  unfold getThrust, current_field. rewrite Hc.
  destruct (sent st); simpl; split; intro E; try reflexivity; discriminate.
Qed.

Lemma getters_report_last_sent_witness :
  currentSetpoint (run descent_start new_Copter) =
  hd_error (sent (run descent_start new_Copter)).
Proof.
  apply (proj1 (getters_report_last_sent (run descent_start new_Copter)
                  (reachable_run descent_start new_Copter reachable_new))).
Defined.

(** X12.  Whatever the inputs, the thrust a pulse sends is the initial
    0, [NaN], or an integer from 10001 to 60000: nothing but the setter
    writes the staged thrust. *)
Theorem pulse_thrust_is_staged (st : Copter) :
  reachable st ->
  staged (sp_thrust (nextSetpoint st)) /\
  exists sp, hd_error (sent (pulse st)) = Some sp /\
             sp_thrust sp = sp_thrust (nextSetpoint st) /\
             staged (sp_thrust sp).
Proof.
  intro H. pose proof (tidy_staged st (reachable_tidy st H)) as Hs.
  split; [exact Hs|].
  unfold pulse, setpoint. simpl. eexists. split; [reflexivity|].
  split; [reflexivity|exact Hs].
Qed.

Lemma pulse_thrust_is_staged_witness :
  staged (sp_thrust (nextSetpoint (run descent_start new_Copter))).
Proof.
  apply (proj1 (pulse_thrust_is_staged (run descent_start new_Copter)
                  (reachable_run descent_start new_Copter reachable_new))).
Defined.

(** X13.  The telemetry channels are subscribed at most once: [connect]
    gets past the state machine from setup only, so in every reachable
    state at most one [driver.connect] is pending and the subscriptions
    are none or motor, stabilizer, accelerometer, gyro, once each and in
    that order. *)
Theorem subscribed_at_most_once (st : Copter) :
  reachable st ->
  (connecting st <= 1)%nat /\
  (subscriptions st = [] \/ subscriptions st = all_channels) /\
  (subscriptions st = all_channels -> connecting st = 0%nat).
Proof.
  intro H. pose proof (tidy_connect st (reachable_tidy st H)) as Hc.
  destruct Hc as [[Hz Hs]|[_ [[Ho Hs]|[Hz Hs]]]]; rewrite ?Hz, ?Ho, Hs;
    repeat split; auto; discriminate.
Qed.

Lemma subscribed_at_most_once_witness :
  subscriptions (run [CallConnect; DriverConnected; CallConnect; DriverConnected]
                     new_Copter) = [] \/
  subscriptions (run [CallConnect; DriverConnected; CallConnect; DriverConnected]
                     new_Copter) = all_channels.
Proof.
  apply (subscribed_at_most_once
           (run [CallConnect; DriverConnected; CallConnect; DriverConnected]
                new_Copter)).
  apply reachable_run. constructor.
Defined.

(** X14.  The goal the control code holds: the roll, pitch, yaw, x and y
    goals are never written and stay 0; the altitude goal follows the
    phase, 1.5 in taking-off and 1.0 in hovering, moving and landing. *)
Theorem goal_follows_phase (st : Copter) :
  reachable st ->
  (g_roll (goal st) = Fin 0 /\ g_pitch (goal st) = Fin 0 /\
   g_yaw (goal st) = Fin 0 /\ g_x (goal st) = Fin 0 /\ g_y (goal st) = Fin 0) /\
  (copterStates st = taking_off -> g_z (goal st) = Fin 1.5) /\
  (copterStates st = hovering \/ copterStates st = moving \/
   copterStates st = landing -> g_z (goal st) = Fin 1.0).
Proof.
  intro H. pose proof (reachable_tidy st H) as [_ _ _ Ha Hz].
  split; [exact Ha|].
  unfold altitude_of in Hz.
  split.
  - intro E. now rewrite E in Hz.
  - intros [E|[E|E]]; now rewrite E in Hz.
Qed.

Lemma goal_follows_phase_witness :
  g_z (goal (run descent_start new_Copter)) = Fin 1.0.
Proof.
  apply (proj2 (proj2 (goal_follows_phase (run descent_start new_Copter)
                  (reachable_run descent_start new_Copter reachable_new)))).
  right. right. reflexivity.
Defined.

(** X15.  The telemetry store keeps the latest sample of each channel
    and nothing else writes it: after any inputs a channel's snapshot is
    the last sample delivered on that channel, or what it was if none
    was. *)
Theorem telemetry_keeps_latest (inputs : list Input) :
  forall st,
  stabilizer (telemetry (run inputs st)) =
    latest pick_stabilizer inputs (stabilizer (telemetry st)) /\
  motor (telemetry (run inputs st)) =
    latest pick_motor inputs (motor (telemetry st)) /\
  acc (telemetry (run inputs st)) =
    latest pick_acc inputs (acc (telemetry st)) /\
  gyro (telemetry (run inputs st)) =
    latest pick_gyro inputs (gyro (telemetry st)).
Proof.
  induction inputs as [|i inputs IH]; intro st.
  - repeat split.
  - simpl run. unfold latest. simpl fold_left.
    destruct (IH (step i st)) as (H1 & H2 & H3 & H4).
    rewrite H1, H2, H3, H4.
    rewrite (proj1 (proj2 (step_facts i st))).
    unfold latest. destruct i; repeat split.
Qed.

(** X16.  No phase is a trap and setup is never seen again: once the
    machine has left setup no input brings it back, and from every
    phase at most three events lead to waiting. *)
Theorem phases_never_trap (st : Copter) :
  (forall inputs, copterStates st <> setup ->
                  copterStates (run inputs st) <> setup) /\
  exists events,
    (List.length events <= 3)%nat /\
    copterStates (run (map CallEvent events) st) = waiting.
Proof.
  split.
  - intros inputs. revert st.
    induction inputs as [|i inputs IH]; intros st H; [exact H|].
    simpl. apply IH. now apply (proj2 (proj2 (step_facts i st))).
  - assert (forall e s, copterStates s = source e ->
              copterStates (step (CallEvent e) s) = destination e) as Hstep.
    { intros e s E. unfold step. simpl handle_input.
      rewrite (fire_valid e s E). destruct e; reflexivity. }
    destruct (copterStates st) eqn:E.
    + exists [Ev.connect; Ev.ready]. split; [simpl; lia|].
      simpl. apply (Hstep Ev.ready). apply (Hstep Ev.connect). exact E.
    + exists [Ev.ready]. split; [simpl; lia|].
      simpl. apply (Hstep Ev.ready). exact E.
    + exists []. split; [simpl; lia|exact E].
    + exists [Ev.stabilize; Ev.land; Ev.landed]. split; [simpl; lia|].
      simpl. apply (Hstep Ev.landed). apply (Hstep Ev.land).
      apply (Hstep Ev.stabilize). exact E.
    + exists [Ev.land; Ev.landed]. split; [simpl; lia|].
      simpl. apply (Hstep Ev.landed). apply (Hstep Ev.land). exact E.
    + exists [Ev.settle; Ev.land; Ev.landed]. split; [simpl; lia|].
      simpl. apply (Hstep Ev.landed). apply (Hstep Ev.land).
      apply (Hstep Ev.settle). exact E.
    + exists [Ev.landed]. split; [simpl; lia|].
      simpl. apply (Hstep Ev.landed). exact E.
Qed.

Lemma phases_never_trap_witness :
  copterStates (run [CallLand; TimerFires 3; CallTakeoff1] on_the_ground) <> setup.
Proof.
  apply (proj1 (phases_never_trap on_the_ground)). discriminate.
Defined.

End ReachableFacts.

(** ** Takeoff, hover and land together *)

Section FlightCalls.

Local Open Scope nat_scope.

(** The takeoff timeout run outside taking-off resolves nothing. *)
Lemma stopThrustingUp_elsewhere d st :
  copterStates st <> taking_off ->
  stopThrustingUp d st =
  Thrown (InvalidTransition (copterStates st) Ev.stabilize taking_off) st.
Proof.
  intro H. unfold stopThrustingUp, bind.
  now rewrite (fire_invalid Ev.stabilize st H).
Qed.

(** X17.  A [hover] called before the takeoff timeout takes its place:
    the machine is hovering at once, with the altitude goal at 1.0; when
    the timeout then fires its [stabilize] fails, so [resolve] is not
    reached: the promise [takeoff] returned stays pending, and the
    timeout, having fired, will not run again. *)
Theorem hover_preempts_takeoff_timeout (st : Copter) :
  copterStates st = waiting ->
  let d := nextDeferred st in
  let h := S (nextHandle st) in
  let st1 := state_of (takeoff st) in
  let st2 := state_of (hover st1) in
  let st3 := step (TimerFires h) st2 in
  hover st1 = Returned "OK"%string st2 /\
  copterStates st2 = hovering /\
  g_z (goal st2) = Fin 1.0 /\
  threw (fire_timer h st2) =
    Some (InvalidTransition hovering Ev.stabilize taking_off) /\
  copterStates st3 = hovering /\
  resolved st3 = resolved st /\
  find_timer h (timers st3) = None.
Proof.
  intros Hp d h st1 st2 st3.
  pose proof (takeoff_from_waiting st Hp) as Ht.
  assert (copterStates st1 = taking_off) as Hp1 by (subst st1; now rewrite Ht).
  assert (hover st1 =
          Returned "OK"%string (enterHovering (with_copterStates hovering st1)))
    as Hh.
  { unfold hover, bind. now rewrite (fire_valid Ev.stabilize st1 Hp1). }
  assert (st2 = enterHovering (with_copterStates hovering st1)) as E2
    by (subst st2; now rewrite Hh).
  assert (find_timer h (timers st2) =
          Some (mkTimer h false 2000 (CbStopThrustingUp d))) as Hf.
  { rewrite E2. subst st1 h. rewrite Ht. unfold find_timer.
    cbn -[Nat.eqb]. now rewrite Nat.eqb_refl. }
  assert (fire_timer h st2 =
          Thrown (InvalidTransition hovering Ev.stabilize taking_off)
                 (with_timers (remove_timer h (timers st2)) st2)) as Hfire.
  { unfold fire_timer, bind, get. rewrite Hf. simpl repeats.
    unfold modify. simpl run_callback.
    rewrite stopThrustingUp_elsewhere; [|rewrite E2; discriminate].
    rewrite E2. reflexivity. }
  split; [rewrite Hh, E2; reflexivity|].
  split; [rewrite E2; reflexivity|].
  split; [rewrite E2; reflexivity|].
  split; [rewrite Hfire; reflexivity|].
  assert (st3 = with_timers (remove_timer h (timers st2)) st2) as E3.
  { subst st3. unfold step. simpl handle_input. now rewrite Hfire. }
  split; [rewrite E3, E2; reflexivity|].
  split; [rewrite E3, E2; subst st1; rewrite Ht; reflexivity|].
  rewrite E3. apply (find_timer_cleared_outer h).
Qed.

Lemma hover_preempts_takeoff_timeout_witness :
  let st3 := step (TimerFires 2)
               (state_of (hover (state_of (takeoff on_the_ground)))) in
  copterStates st3 = hovering /\ resolved st3 = [].
Proof.
  intro st3.
  destruct (hover_preempts_takeoff_timeout on_the_ground eq_refl)
    as (_ & _ & _ & _ & H1 & H2 & _).
  split; [exact H1|exact H2].
Defined.

(** X18.  [land] stops whatever timer [flightTimer] names, the takeoff
    timeout or the ramp of [takeoff1]: called in hovering in a reachable
    state, it leaves no timer with that handle, so that timer cannot
    fire during the landing or after it. *)
Theorem land_stops_flight_timer (st : Copter) (f : nat) :
  reachable st ->
  copterStates st = hovering ->
  flightTimer st = Some f ->
  let st' := state_of (land st) in
  find_timer f (timers st') = None /\
  step (TimerFires f) st' = st' /\
  flightTimer st' = Some f.
Proof.
  intros Hr Hp Hf st'. subst st'.
  pose proof (wf_flight st (reachable_wf st Hr) f Hf) as Hlt.
  rewrite (land_from_hovering st Hp). cbv zeta. rewrite Hf.
  simpl state_of. unfold setInterval, add_timer, clearInterval.
  match goal with
  | |- find_timer f (timers ?s) = None /\ _ => set (st' := s)
  end.
  assert (find_timer f (timers st') = None) as Hn.
  { subst st'. unfold find_timer. cbn -[Nat.eqb remove_timer].
    assert ((nextHandle st =? f) = false) as -> by (apply Nat.eqb_neq; lia).
    apply (find_timer_cleared_outer f (timers st)). }
  split; [exact Hn|]. split; [now apply fire_no_timer|].
  subst st'. simpl. exact Hf.
Qed.

Lemma land_stops_flight_timer_witness :
  let st := run [CallConnect; DriverConnected; CallTakeoff; CallHover]
                new_Copter in
  find_timer 2 (timers (state_of (land st))) = None.
Proof.
  intro st.
  assert (reachable st) as Hr.
  { apply (reachable_run [CallConnect; DriverConnected; CallTakeoff; CallHover]).
    constructor. }
  destruct (land_stops_flight_timer st 2 Hr eq_refl eq_refl) as (H & _).
  exact H.
Defined.

End FlightCalls.

(** ** The hand tracker *)

Section HandTracker.

Local Open Scope Q_scope.

(** What [changethrust] stages for one hand at height [a]. *)
Lemma changethrust_one_hand (a : Q) st :
  sp_thrust (nextSetpoint (changethrust (mkFrame [mkHand (Fin a)]) st)) =
  Fin (inject_Z (Qfloor
         ((if Js.Qlt_bool (a * 133) 10001 then 10001
           else if Js.Qlt_bool 60000 (a * 133) then 60000 else a * 133)
          + (1 # 2)))).
Proof.
  change (changethrust (mkFrame [mkHand (Fin a)]) st)
    with (setThrust (VNum (Fin (a * 133))) st).
  rewrite setThrust_Fin.
  destruct (Js.Qlt_bool (a * 133) 10001); [reflexivity|].
  destruct (Js.Qlt_bool 60000 (a * 133)); reflexivity.
Qed.

(** X19.  With one hand in the frame the staged thrust follows the
    height of the palm: it is the clamped, rounded 133 times the height,
    an integer from 10001 to 60000 that never decreases when the hand
    rises.  The base thrust assigned under a hand lower than 150 is
    overwritten before it is used: from a height of 76 the staged thrust
    is above 10001. *)
Theorem changethrust_follows_height (a b : Q) (st : Copter) :
  a <= b ->
  exists m n : Z,
    sp_thrust (nextSetpoint (changethrust (mkFrame [mkHand (Fin a)]) st)) =
      Fin (inject_Z m) /\
    sp_thrust (nextSetpoint (changethrust (mkFrame [mkHand (Fin b)]) st)) =
      Fin (inject_Z n) /\
    (10001 <= m <= n)%Z /\ (n <= 60000)%Z /\
    (76 <= a -> (10001 < m)%Z).
Proof.
  intro Hab. rewrite !changethrust_one_hand.
  set (ca := if Js.Qlt_bool (a * 133) 10001 then 10001
             else if Js.Qlt_bool 60000 (a * 133) then 60000 else a * 133).
  set (cb := if Js.Qlt_bool (b * 133) 10001 then 10001
             else if Js.Qlt_bool 60000 (b * 133) then 60000 else b * 133).
  assert (10001 <= ca /\ ca <= 60000 /\ (76 <= a -> 10108 <= ca)) as (Ha1 & Ha2 & Ha3).
  { subst ca. destruct (Js.Qlt_bool (a * 133) 10001) eqn:E1.
    - apply Qlt_bool_iff in E1. repeat split; lra.
    - apply Qlt_bool_false_iff in E1.
      destruct (Js.Qlt_bool 60000 (a * 133)) eqn:E2.
      + repeat split; lra.
      + apply Qlt_bool_false_iff in E2. repeat split; lra. }
  assert (ca <= cb /\ cb <= 60000) as (Hcab & Hb2).
  { subst ca cb.
    destruct (Js.Qlt_bool (a * 133) 10001) eqn:A1;
      destruct (Js.Qlt_bool 60000 (a * 133)) eqn:A2;
      destruct (Js.Qlt_bool (b * 133) 10001) eqn:B1;
      destruct (Js.Qlt_bool 60000 (b * 133)) eqn:B2;
      rewrite ?Qlt_bool_iff, ?Qlt_bool_false_iff in *; split; lra. }
  exists (Qfloor (ca + (1 # 2))), (Qfloor (cb + (1 # 2))).
  split; [reflexivity|]. split; [reflexivity|].
  split; [split|split].
  - change 10001%Z with (Qfloor 10001). apply Qfloor_resp_le. lra.
  - apply Qfloor_resp_le. lra.
  - change 60000%Z with (Qfloor (60000 + (1 # 2))). apply Qfloor_resp_le. lra.
  - intro H76. specialize (Ha3 H76).
    apply Z.lt_le_trans with (m := Qfloor 10108); [reflexivity|].
    apply Qfloor_resp_le. lra.
Qed.

Lemma changethrust_follows_height_witness :
  exists m n : Z,
    sp_thrust (nextSetpoint (changethrust (mkFrame [mkHand (Fin 100)]) new_Copter)) =
      Fin (inject_Z m) /\
    sp_thrust (nextSetpoint (changethrust (mkFrame [mkHand (Fin 200)]) new_Copter)) =
      Fin (inject_Z n) /\
    (10001 < m <= n)%Z.
Proof.
  destruct (changethrust_follows_height 100 200 new_Copter)
    as (m & n & H1 & H2 & (H3 & H4) & _ & H5).
  - discriminate.
  - exists m, n. split; [exact H1|]. split; [exact H2|].
    split; [apply H5; discriminate|exact H4].
Defined.

(** X20.  The tracker's [takeoff] chains [hover] on the promise of
    [copter.takeoff]: when that promise is resolved the timeout has
    already moved the machine to hovering, so the chained [hover] fails
    with [InvalidTransition] and changes nothing. *)
Theorem chained_hover_fails (st : Copter) :
  copterStates st = waiting ->
  let d := nextDeferred st in
  let st3 := step (TimerFires (S (nextHandle st))) (state_of (takeoff st)) in
  hd_error (resolved st3) = Some (d, "OK"%string) /\
  copterStates st3 = hovering /\
  hover st3 = Thrown (InvalidTransition hovering Ev.stabilize taking_off) st3.
Proof.
  intros Hp d st3.
  pose proof (takeoff_from_waiting st Hp) as Ht.
  set (h := S (nextHandle st)) in *.
  set (st1 := state_of (takeoff st)) in *.
  assert (find_timer h (timers st1) =
          Some (mkTimer h false 2000 (CbStopThrustingUp d))) as Hf.
  { subst st1 h. rewrite Ht. unfold find_timer. cbn -[Nat.eqb].
    now rewrite Nat.eqb_refl. }
  assert (st3 = resolve d "OK"
                  (enterHovering
                     (with_copterStates hovering
                        (with_timers (remove_timer h (timers st1)) st1)))) as E3.
  { subst st3. unfold step. simpl handle_input.
    unfold fire_timer, bind, get. rewrite Hf. simpl repeats.
    unfold modify. simpl run_callback.
    rewrite stopThrustingUp_taking_off; [reflexivity|].
    subst st1. rewrite Ht. reflexivity. }
  assert (copterStates st3 = hovering) as Hp3 by (rewrite E3; reflexivity).
  split; [rewrite E3; reflexivity|]. split; [exact Hp3|].
  unfold hover, bind. rewrite fire_invalid; rewrite Hp3; [reflexivity|discriminate].
Qed.

Lemma chained_hover_fails_witness :
  let st3 := step (TimerFires 2) (state_of (takeoff on_the_ground)) in
  hover st3 = Thrown (InvalidTransition hovering Ev.stabilize taking_off) st3.
Proof.
  intro st3.
  destruct (chained_hover_fails on_the_ground eq_refl) as (_ & _ & H).
  exact H.
Defined.

End HandTracker.

(** ** Connecting *)

Section Connecting.

(** X21.  [connect] called in setup moves the machine to connected at
    once and to waiting when [driver.connect] is fulfilled, after
    subscribing motor, stabilizer, accelerometer and gyro in that order;
    nothing is sent to the driver and no timer is started on the way. *)
Theorem connect_then_waiting (st : Copter) :
  copterStates st = setup ->
  connecting st = 0%nat ->
  let st1 := step CallConnect st in
  let st2 := step DriverConnected st1 in
  threw (connect st) = None /\
  copterStates st1 = connected /\
  subscriptions st1 = subscriptions st /\
  copterStates st2 = waiting /\
  subscriptions st2 = subscriptions st ++ all_channels /\
  connecting st2 = 0%nat /\
  sent st2 = sent st /\
  timers st2 = timers st.
Proof.
  intros Hp Hc st1 st2.
  assert (connect st =
          Returned tt (with_connecting 1 (with_copterStates connected st))) as E1.
  { unfold connect, bind, modify. rewrite (fire_valid Ev.connect st Hp).
    simpl. now rewrite Hc. }
  assert (st1 = with_connecting 1 (with_copterStates connected st)) as ->.
  { subst st1. unfold step. simpl handle_input. now rewrite E1. }
  set (st1 := with_connecting 1 (with_copterStates connected st)) in *.
  set (st1' := subscribe ch_gyro
                 (subscribe ch_accelerometer
                    (subscribe ch_stabilizer
                       (subscribe ch_motor (with_connecting 0 st1))))).
  assert (connected_callback (with_connecting 0 st1) =
          Returned tt (with_copterStates waiting st1')) as E2.
  { unfold connected_callback, bind, modify. fold st1'.
    now rewrite (fire_valid Ev.ready st1' eq_refl). }
  assert (st2 = with_copterStates waiting st1') as ->.
  { subst st2. unfold step. simpl handle_input. unfold bind at 1, get.
    change (connecting st1) with 1%nat. cbv iota.
    unfold bind, modify at 1. now rewrite E2. }
  rewrite E1. subst st1' st1. unfold subscribe. simpl.
  rewrite <- !app_assoc. repeat split.
Qed.

Lemma connect_then_waiting_witness :
  copterStates (step DriverConnected (step CallConnect new_Copter)) = waiting /\
  subscriptions (step DriverConnected (step CallConnect new_Copter)) = all_channels.
Proof.
  destruct (connect_then_waiting new_Copter eq_refl eq_refl)
    as (_ & _ & _ & H1 & H2 & _).
  split; [exact H1|exact H2].
Defined.

End Connecting.
